(** * ironic_temper: the reconciliation client and the failure handler

    A shallow embedding of [pkg/clients/openstack.go] and
    [pkg/provision/errorHandler.go].

    - Go [int]/[int64] values are [Z]; no arithmetic of the program can
      overflow them (they are only compared and converted).
    - The remote services (bare-metal, compute, DNS) are external: a
      [Backend] gives each remote call as a function on an abstract
      remote state [W], so every theorem holds for every behaviour of the
      remote side.  Each call is recorded in a request log, through which
      the order and the number of remote calls are stated.
    - A Go function [func (c *Client) F(n *model.IronicNode) (err error)]
      becomes [F n : M (option error)]; when [F] writes through [n] the
      updated node is returned next to the error.
    - A run-time panic (index out of range, nil dereference) is the
      [Panic] outcome. *)

From Stdlib Require Import ZArith List String Ascii Bool Lia QArith Qabs.
Import ListNotations.
Local Open Scope string_scope.
Local Open Scope list_scope.
Local Open Scope Z_scope.

Set Implicit Arguments.

(** ** Data model *)

(** [time.Duration]: a number of nanoseconds. *)
Definition Duration := Z.
Definition time_Second : Duration := 1000000000.

Module model.

Record Memory := { PhysicalMb : Z }.
Record CPU := { Count : Z }.
Record Inventory := { InvMemory : Memory; InvCPU : CPU }.
Record RootDisk := { Size : Z }.
Record InspectonData := { Inventory_ : Inventory; RootDisk_ : RootDisk }.

(** Modelled from the spec: the struct [model.IronicNode] of [pkg/model],
    which is not under src/.  The fields are the ones the client reads
    or writes; the spec's Node has the same attributes (identifier,
    display name, DNS host, IP address, resource-class label, inventory
    snapshot, and the workload identifier and address). *)
Record IronicNode := {
  UUID : string;
  Name : string;
  Host : string;
  IP : string;
  ResourceClass : string;
  InstanceUUID : string;
  InstanceIPv4 : string;
  InspectionData : InspectonData
}.

Definition set_Host (n : IronicNode) (h : string) : IronicNode :=
  {| UUID := UUID n; Name := Name n; Host := h; IP := IP n;
     ResourceClass := ResourceClass n; InstanceUUID := InstanceUUID n;
     InstanceIPv4 := InstanceIPv4 n; InspectionData := InspectionData n |}.

Definition set_ResourceClass (n : IronicNode) (rc : string) : IronicNode :=
  {| UUID := UUID n; Name := Name n; Host := Host n; IP := IP n;
     ResourceClass := rc; InstanceUUID := InstanceUUID n;
     InstanceIPv4 := InstanceIPv4 n; InspectionData := InspectionData n |}.

End model.

(** The dynamic types of the [error] values the program tells apart.
    [ErrDefault409] is gophercloud's conflict error with the status code
    it carries; [ErrUnexpectedResponseCode] stands for gophercloud's other
    HTTP errors; [ErrOther] for any other error of a remote call;
    [ErrWaitTimeout] is [wait.ErrWaitTimeout]; [fmt_Errorf format] is the
    error built by [fmt.Errorf(format)] with no operands. *)
Inductive error :=
| ErrDefault409 (Actual : Z)
| ErrUnexpectedResponseCode (Actual : Z)
| ErrOther (msg : string)
| ErrWaitTimeout
| fmt_Errorf (format : string).

(** A Go pair [(value, err)]. *)
Inductive result (A : Type) :=
| Ok (a : A)
| Err (e : error).
Arguments Err {A} e.

(** [interface{}] values of a patch operation. *)
Inductive value :=
| VString (s : string)
| VBool (b : bool).

Record UpdateOperation := { Op : string; Path : string; Value : value }.
Definition UpdateOpts := list UpdateOperation.

Module nodes.
Inductive TargetProvisionState := TargetManage | TargetProvide.
Definition ReplaceOp : string := "replace".

Record DriverValidation := { Result : bool; Reason : string }.
(** The four sub-results [ValidateNode] reads, under the names of
    gophercloud's [nodes.NodeValidation]. *)
Record NodeValidation := {
  Inspect : DriverValidation;
  Power : DriverValidation;
  Management : DriverValidation;
  Network : DriverValidation
}.
Record Node := { PowerState : string; ProvisionState : string;
                 NodeResourceClass : string }.
End nodes.

Module ports.
Record Port := { UUID : string }.
End ports.

Module zones.
Record Zone := { ID : string }.
End zones.

Module recordsets.
Record CreateOpts := {
  Name : string; TTL : Z; Type_ : string; Records : list string }.
End recordsets.

Module flavors.
Record Flavor := { ID : string; Name : string; RAM : Z; Disk : Z; VCPUs : Z }.
End flavors.

(** ** The remote side *)

(** One constructor per remote call of the client, with its arguments. *)
Inductive Request :=
| ZonesList (name : string)
| RecordsetsCreate (zoneID : string) (opts : recordsets.CreateOpts)
| PortsList (nodeUUID : string)
| PortsUpdate (portUUID : string) (opts : UpdateOpts)
| NodesUpdate (uuid : string) (opts : UpdateOpts)
| NodesGet (uuid : string)
| NodesValidate (uuid : string)
| NodesChangeProvisionState (uuid : string) (target : nodes.TargetProvisionState)
| ServersForceDelete (id : string)
| ServersWaitForStatus (id : string) (status : string) (secs : Z)
| FlavorsListDetail.

(** A pager of flavors: what [flavors.ListDetail] returns.  [PagerErr] is
    the pager's own error; each page is what [flavors.ExtractFlavors]
    gives for it. *)
Inductive Pager :=
| PagerErr (e : error)
| Pages (ps : list (result (list flavors.Flavor))).

(** The remote services, over a remote state [W].  A listing call gives
    [AllPages()] and then the [Extract...] of the pages, each of which can
    fail.  [deadline_tick] is the scheduling of [wait.Poll]'s timer: whether
    a ticker value that falls on the deadline is delivered before the
    deadline closes the channel. *)
Record Backend (W : Type) := {
  zones_List : string -> W -> result (result (list zones.Zone)) * W;
  recordsets_Create : string -> recordsets.CreateOpts -> W -> option error * W;
  ports_List : string -> W -> result (result (list ports.Port)) * W;
  ports_Update : string -> UpdateOpts -> W -> option error * W;
  nodes_Update : string -> UpdateOpts -> W -> option error * W;
  nodes_Get : string -> W -> result nodes.Node * W;
  nodes_Validate : string -> W -> result nodes.NodeValidation * W;
  nodes_ChangeProvisionState :
    string -> nodes.TargetProvisionState -> W -> option error * W;
  servers_ForceDelete : string -> W -> option error * W;
  servers_WaitForStatus : string -> string -> Z -> W -> option error * W;
  flavors_ListDetail : W -> Pager * W;
  deadline_tick : W -> bool
}.

(** ** The monad of the client: remote state, request log, panics *)

Inductive outcome (A : Type) :=
| Return (a : A)
| Panic (msg : string).
Arguments Panic {A} msg.

Definition M (W A : Type) : Type := W -> outcome A * W * list Request.

Definition ret {W A} (a : A) : M W A := fun w => (Return a, w, []).

Definition bind {W A B} (m : M W A) (k : A -> M W B) : M W B :=
  fun w =>
    match m w with
    | (Return a, w1, l1) =>
        match k a w1 with
        | (o, w2, l2) => (o, w2, l1 ++ l2)
        end
    | (Panic msg, w1, l1) => (Panic msg, w1, l1)
    end.

Definition panic {W A} (msg : string) : M W A := fun w => (Panic msg, w, []).

(** A remote call: its answer, the new remote state, and its log entry. *)
Definition call {W A} (r : Request) (f : W -> A * W) : M W A :=
  fun w => match f w with (a, w') => (Return a, w', [r]) end.

Declare Scope client_scope.
Delimit Scope client_scope with client.
Notation "x <- m ;; k" := (bind m (fun x => k))
  (at level 100, m at next level, right associativity) : client_scope.
Notation "m ;;; k" := (bind m (fun _ => k))
  (at level 100, right associativity) : client_scope.
Local Open Scope client_scope.

(** ** k8s.io/apimachinery/pkg/util/wait *)

Definition ConditionFunc (W : Type) := M W (bool * option error).

(** Modelled from the spec: [wait.Poll] (with [wait.WaitFor] behind it) of
    k8s.io/apimachinery, the Retry/Poll Primitive, which is not under src/.
    The condition is invoked on every value the ticker delivers and once
    more when the deadline closes the channel; an error of the condition
    ends the poll with that error, [true] without error ends it with
    success, and [false] on the closing invocation ends it with
    [ErrWaitTimeout].  [ticks] is the number of ticker values delivered
    before the deadline.  Time is idealised: a condition returns before the
    next tick, so no tick is dropped. *)
Fixpoint WaitFor {W} (ticks : nat) (fn : ConditionFunc W) : M W (option error) :=
  r <- fn ;;
  match r with
  | (_, Some err) => ret (Some err)
  | (true, None) => ret None
  | (false, None) =>
      match ticks with
      | O => ret (Some ErrWaitTimeout)
      | S n => WaitFor n fn
      end
  end.

(** The ticker fires at [interval], [2*interval], ...; the deadline is at
    [timeout].  A tick strictly before the deadline is delivered; one that
    falls on the deadline is delivered or not, by [deadline_tick]. *)
Definition delivered (interval timeout : Duration) (at_deadline : bool) : nat :=
  Z.to_nat (if at_deadline then timeout / interval else (timeout - 1) / interval).

(** Modelled from the spec: [wait.Poll], which is not under src/: the
    poll of [WaitFor] over the ticks of its interval before its timeout.
    [time.NewTicker] panics on a non-positive interval.  A zero timeout
    (poll without deadline) is never passed by the program and is outside
    this model.  [at_deadline] is the scheduling of the timer against the
    ticker, read from the state the poll starts in. *)
Definition Poll {W} (at_deadline : W -> bool) (interval timeout : Duration)
    (condition : ConditionFunc W) : M W (option error) :=
  fun w =>
    if interval <=? 0 then panic "non-positive interval for NewTicker" w
    else WaitFor (delivered interval timeout (at_deadline w)) condition w.

(** The answer a condition gives when the poll has to go on. *)
Definition pending : bool * option error := (false, None).

(** [invocations fn w answers w' log]: invoked again and again from the
    state [w], the condition [fn] gives [answers], in this order, and
    leaves the state [w'] and the requests [log]. *)
Inductive invocations {W} (fn : ConditionFunc W)
    : W -> list (bool * option error) -> W -> list Request -> Prop :=
| invocations_nil : forall w, invocations fn w [] w []
| invocations_cons : forall w r w1 l1 rs w2 l2,
    fn w = (Return r, w1, l1) ->
    invocations fn w1 rs w2 l2 ->
    invocations fn w (r :: rs) w2 (l1 ++ l2).

(** A condition instrumented with the history of its answers: every
    invocation appends its answer to the history kept next to the state. *)
Definition recording {W} (fn : ConditionFunc W)
    : ConditionFunc (W * list (bool * option error)) :=
  fun s =>
    match fn (fst s) with
    | (Return r, w1, l) => (Return r, (w1, snd s ++ [r]), l)
    | (Panic msg, w1, l) => (Panic msg, (w1, snd s), l)
    end.

(** What an answer of the condition makes [WaitFor] return. *)
Definition verdict (r : bool * option error) : option error := snd r.

Definition decisive (r : bool * option error) : Prop := r <> pending.

(** The shape of the history of answers of a poll with [ticks] ticks,
    and the result that goes with it. *)
Definition poll_shape (ticks : nat) (rs : list (bool * option error))
    (res : outcome (option error)) : Prop :=
  (exists k, (k <= ticks)%nat /\ rs = repeat pending k ++ [(true, None)]
             /\ res = Return None)
  \/ (exists k b e, (k <= ticks)%nat /\ rs = repeat pending k ++ [(b, Some e)]
                    /\ res = Return (Some e))
  \/ (rs = repeat pending (S ticks) /\ res = Return (Some ErrWaitTimeout))
  \/ (exists k msg, (k <= ticks)%nat /\ rs = repeat pending k /\ res = Panic msg).

(** ** Library functions on strings *)

(** [strings.Split(s, sep)] for a separator of one byte, which is what
    the program passes: the pieces of [s] between the occurrences of
    [sep], in order. *)
Fixpoint strings_Split (s : string) (sep : ascii) : list string :=
  match s with
  | EmptyString => [EmptyString]
  | String c rest =>
      if Ascii.eqb c sep then EmptyString :: strings_Split rest sep
      else match strings_Split rest sep with
           | [] => [String c EmptyString]
           | piece :: pieces => String c piece :: pieces
           end
  end.

(** [strings.Contains(s, sep)] for a separator of one byte. *)
Fixpoint strings_Contains (s : string) (sep : ascii) : bool :=
  match s with
  | EmptyString => false
  | String c rest => Ascii.eqb c sep || strings_Contains rest sep
  end.

(** The bytes that start a flag, a width, a precision or an argument
    index after ['%'] in a format, and the bytes outside ASCII. *)
Definition directive_byte (c : ascii) : bool :=
  let k := N_of_ascii c in
  (existsb (Ascii.eqb c) ["#"; "+"; "-"; " "; "["; "*"; "."]%char
   || ((48 <=? k) && (k <=? 57)) || (128 <=? k))%N.

(** The text [fmt.Sprintf(format)] renders when it is given no operand,
    on the formats whose verbs follow their ['%'] directly: text is
    copied, ["%%"] gives ["%"], a verb finds no operand and gives
    ["%!v(MISSING)"], and a ['%'] that ends the format gives
    ["%!(NOVERB)"].  [None] on a format with flags, width, precision or
    argument index, which this fragment leaves out. *)
Fixpoint fmt_Sprintf (format : string) : option string :=
  match format with
  | EmptyString => Some EmptyString
  | String c rest =>
      if Ascii.eqb c "%" then
        match rest with
        | EmptyString => Some "%!(NOVERB)"
        | String verb rest' =>
            if Ascii.eqb verb "%" then option_map (String "%") (fmt_Sprintf rest')
            else if directive_byte verb then None
            else option_map
                   (fun out => String "%" (String "!" (String verb (append "(MISSING)" out))))
                   (fmt_Sprintf rest')
        end
      else option_map (String c) (fmt_Sprintf rest)
  end.

(** [err.Error()]: the message of an error built by [fmt.Errorf]. *)
Definition Error (err : error) : option string :=
  match err with
  | fmt_Errorf format => fmt_Sprintf format
  | ErrOther msg => Some msg
  | ErrWaitTimeout => Some "timed out waiting for the condition"
  | ErrDefault409 _ | ErrUnexpectedResponseCode _ => None
  end.

(** ** The nearest-fit matcher *)

(** The loop of [getMatchingFlavorFor] over one page of flavors, for any
    type [D] of deltas with its comparison [gt] ([delta > best] in the
    source, on [float64]). *)
Section Matcher.

Variable D : Type.
Variable gt : D -> D -> bool.
Variable calcDelta : Z -> Z -> D.

(** The variables the loop reads and writes: the running bests [ram],
    [disk], [cpu], the result [name], and the node [n]. *)
Record scan := {
  ram : D;
  disk : D;
  cpu : D;
  name : string;
  n : model.IronicNode
}.

Definition measured_ram (nd : model.IronicNode) : Z :=
  model.PhysicalMb (model.InvMemory (model.Inventory_ (model.InspectionData nd))).
Definition measured_disk (nd : model.IronicNode) : Z :=
  model.Size (model.RootDisk_ (model.InspectionData nd)).
Definition measured_cpu (nd : model.IronicNode) : Z :=
  model.Count (model.InvCPU (model.Inventory_ (model.InspectionData nd))).

(** The three deltas of a candidate for the node of a scan. *)
Definition dram (s : scan) (f : flavors.Flavor) : D :=
  calcDelta (flavors.RAM f) (measured_ram (n s)).
Definition ddisk (s : scan) (f : flavors.Flavor) : D :=
  calcDelta (flavors.Disk f) (measured_disk (n s)).
Definition dcpu (s : scan) (f : flavors.Flavor) : D :=
  calcDelta (flavors.VCPUs f) (measured_cpu (n s)).

(** One iteration of [for _, f := range fs]; each [continue] leaves
    the variables as they are at that point. *)
Definition visit (s : scan) (f : flavors.Flavor) : scan :=
  let delta := calcDelta (flavors.RAM f) (measured_ram (n s)) in
  if gt delta (ram s) then s
  else
    let s1 := {| ram := delta; disk := disk s; cpu := cpu s;
                 name := name s; n := n s |} in
    let delta := calcDelta (flavors.Disk f) (measured_disk (n s1)) in
    if gt delta (disk s1) then s1
    else
      let s2 := {| ram := ram s1; disk := delta; cpu := cpu s1;
                   name := name s1; n := n s1 |} in
      let delta := calcDelta (flavors.VCPUs f) (measured_cpu (n s2)) in
      if gt delta (cpu s2) then s2
      else
        {| ram := ram s2; disk := disk s2; cpu := delta;
           name := flavors.Name f;
           n := model.set_ResourceClass (n s2) (flavors.Name f) |}.

Definition range (fs : list flavors.Flavor) (s : scan) : scan :=
  fold_left visit fs s.

(** A candidate passes all three comparisons against the running bests. *)
Definition passes (s : scan) (f : flavors.Flavor) : bool :=
  negb (gt (calcDelta (flavors.RAM f) (measured_ram (n s))) (ram s))
  && negb (gt (calcDelta (flavors.Disk f) (measured_disk (n s))) (disk s))
  && negb (gt (calcDelta (flavors.VCPUs f) (measured_cpu (n s))) (cpu s)).

End Matcher.

(** The [float64] deltas: an exact rational, or one of the two special
    values a division by zero produces.  Rounding is left out: a quotient
    is the exact rational. *)
Inductive float64 :=
| Finite (q : Q)
| PosInf
| NaN.

(** [x > y] on [float64]: false whenever an operand is NaN. *)
Definition float64_gt (x y : float64) : bool :=
  match x, y with
  | Finite a, Finite b => negb (Qle_bool a b)
  | PosInf, Finite _ => true
  | _, _ => false
  end.

(** Modelled from the spec: [calcDelta], which is not under src/: the
    relative delta [|candidate - measured| / candidate], in floating
    point, so that a zero candidate gives an infinity, or NaN when the
    measured value is zero too. *)
Definition calcDelta (candidate measured : Z) : float64 :=
  if candidate =? 0 then (if measured =? 0 then NaN else PosInf)
  else Finite (Qabs (inject_Z candidate - inject_Z measured) / inject_Z candidate)%Q.

(** The bests a page starts with: [ram := 0.1], [disk := 0.2],
    [cpu := 0.1]. *)
Definition page_start (name0 : string) (n0 : model.IronicNode) : scan float64 :=
  {| ram := Finite (1 # 10); disk := Finite (2 # 10); cpu := Finite (1 # 10);
     name := name0; n := n0 |}.

(** The page callback of [getMatchingFlavorFor]: the loop over the
    flavors of the page, from the initial bests; it returns [false, nil]. *)
Definition matchPage (fs : list flavors.Flavor) (name0 : string)
    (n0 : model.IronicNode) : scan float64 :=
  range float64_gt calcDelta fs (page_start name0 n0).

(** Two candidates are equally good for a node: their three deltas are
    the same numbers. *)
Definition float64_eq (x y : float64) : Prop :=
  match x, y with
  | Finite a, Finite b => (a == b)%Q
  | PosInf, PosInf => True
  | _, _ => False
  end.

Definition equally_good (nd : model.IronicNode) (a b : flavors.Flavor) : Prop :=
  float64_eq (calcDelta (flavors.RAM a) (measured_ram nd))
             (calcDelta (flavors.RAM b) (measured_ram nd))
  /\ float64_eq (calcDelta (flavors.Disk a) (measured_disk nd))
                (calcDelta (flavors.Disk b) (measured_disk nd))
  /\ float64_eq (calcDelta (flavors.VCPUs a) (measured_cpu nd))
                (calcDelta (flavors.VCPUs b) (measured_cpu nd)).

Definition matchHandler (p : result (list flavors.Flavor))
    (st : string * model.IronicNode) : bool * option error * (string * model.IronicNode) :=
  match p with
  | Err e => (true, Some e, st)
  | Ok fs => let s := matchPage fs (fst st) (snd st) in (false, None, (name s, n s))
  end.

(** gophercloud's [Pager.EachPage] over the pages of a listing: a page
    whose extraction fails ends the iteration with that error, an empty
    page ends it, and so does a handler that returns [false] or an error. *)
Fixpoint EachPage {S : Type} (ps : list (result (list flavors.Flavor)))
    (handler : result (list flavors.Flavor) -> S -> bool * option error * S)
    (st : S) : option error * S :=
  match ps with
  | [] => (None, st)
  | p :: rest =>
      match p with
      | Err e => (Some e, st)
      | Ok [] => (None, st)
      | Ok (_ :: _) =>
          match handler p st with
          | (_, Some e, st') => (Some e, st')
          | (true, None, st') => EachPage rest handler st'
          | (false, None, st') => (None, st')
          end
      end
  end.

(** Modelled from the spec: the type [config.Rule] of [pkg/config], which
    is not under src/: the operation lists for the node and for its ports. *)
Record RuleOperation := { RuleOp : string; RulePath : string; RuleValue : value }.
Record Rule := { Properties_Node : list RuleOperation;
                 Properties_Port : list RuleOperation }.

(** ** The client ([pkg/clients/openstack.go]) *)

Section Client.

Variable W : Type.
Variable B : Backend W.
(** [c.domain] *)
Variable domain : string.

Local Abbreviation M := (M W).

(** The condition of [updatePorts] for one port: a conflict keeps the
    poll going, any other error ends it. *)
Definition updatePorts_cf (opts : UpdateOpts) (p : ports.Port) : ConditionFunc W :=
  err <- call (PortsUpdate (ports.UUID p) opts) (ports_Update B (ports.UUID p) opts) ;;
  match err with
  | Some (ErrDefault409 _) => ret (false, None)
  | Some e => ret (true, Some e)
  | None => ret (true, None)
  end.

(** [for _, p := range ps] of [updatePorts]. *)
Fixpoint updatePorts_range (opts : UpdateOpts) (ps : list ports.Port) : M (option error) :=
  match ps with
  | [] => ret None
  | p :: rest =>
      err <- Poll (deadline_tick B) (5 * time_Second) (60 * time_Second) (updatePorts_cf opts p) ;;
      match err with
      | Some e => ret (Some e)
      | None => updatePorts_range opts rest
      end
  end.

Definition updatePorts (opts : UpdateOpts) (n : model.IronicNode) : M (option error) :=
  l <- call (PortsList (model.UUID n)) (ports_List B (model.UUID n)) ;;
  match l with
  | Err e => ret (Some e)
  | Ok (Err e) => ret (Some e)
  | Ok (Ok ps) => updatePorts_range opts ps
  end.

(** The condition of [updateNode]: every error keeps the poll going. *)
Definition updateNode_cf (opts : UpdateOpts) (n : model.IronicNode) : ConditionFunc W :=
  err <- call (NodesUpdate (model.UUID n) opts) (nodes_Update B (model.UUID n) opts) ;;
  match err with
  | Some _ => ret (false, None)
  | None => ret (true, None)
  end.

Definition updateNode (opts : UpdateOpts) (n : model.IronicNode) : M (option error) :=
  Poll (deadline_tick B) (5 * time_Second) (60 * time_Second) (updateNode_cf opts n).

Definition toUpdateOperation (r : RuleOperation) : UpdateOperation :=
  {| Op := RuleOp r; Path := RulePath r; Value := RuleValue r |}.

(** [ApplyRules]; the rendering of the rule template, [getRules], is a
    parameter. *)
Definition ApplyRules
    (getRules : model.IronicNode -> M (model.IronicNode * Rule * option error))
    (n : model.IronicNode) : M (model.IronicNode * option error) :=
  r <- getRules n ;;
  match r with
  | (n, _, Some e) => ret (n, Some e)
  | (n, rules, None) =>
      let updateNode_opts := map toUpdateOperation (Properties_Node rules) in
      let updatePorts_opts := map toUpdateOperation (Properties_Port rules) in
      err <- updatePorts updatePorts_opts n ;;
      match err with
      | Some e => ret (n, Some e)
      | None => err <- updateNode updateNode_opts n ;; ret (n, err)
      end
  end.

Definition CreateDNSRecordFor (n : model.IronicNode) : M (model.IronicNode * option error) :=
  allPages <- call (ZonesList (domain ++ ".")) (zones_List B (domain ++ ".")) ;;
  match allPages with
  | Err e => ret (n, Some e)
  | Ok (Err _) | Ok (Ok []) => ret (n, Some (fmt_Errorf "wrong dns zone"))
  | Ok (Ok (zone0 :: _)) =>
      let na := strings_Split (model.Name n) "-" in
      if (List.length na <? 1)%nat then ret (n, Some (fmt_Errorf "wrong node name"))
      else
        match nth_error na 0, nth_error na 1 with
        | Some na0, Some na1 =>
            let name := (na0 ++ "r-" ++ na1)%string in
            let recordName := (name ++ "." ++ domain ++ ".")%string in
            let n := model.set_Host n recordName in
            let opts := {| recordsets.Name := recordName;
                           recordsets.TTL := 3600;
                           recordsets.Type_ := "A";
                           recordsets.Records := [model.IP n] |} in
            err <- call (RecordsetsCreate (zones.ID zone0) opts)
                        (recordsets_Create B (zones.ID zone0) opts) ;;
            match err with
            | Some (ErrDefault409 Actual) =>
                if Actual =? 409 then ret (n, None) else ret (n, err)
            | _ => ret (n, err)
            end
        | _, _ => panic "index out of range"
        end
  end.

Definition ValidateNode (n : model.IronicNode) : M (option error) :=
  r <- call (NodesValidate (model.UUID n)) (nodes_Validate B (model.UUID n)) ;;
  match r with
  | Err e => ret (Some e)
  | Ok v =>
      if negb (nodes.Result (nodes.Inspect v))
      then ret (Some (fmt_Errorf (nodes.Reason (nodes.Inspect v))))
      else if negb (nodes.Result (nodes.Power v))
      then ret (Some (fmt_Errorf (nodes.Reason (nodes.Power v))))
      else if negb (nodes.Result (nodes.Management v))
      then ret (Some (fmt_Errorf (nodes.Reason (nodes.Management v))))
      else if negb (nodes.Result (nodes.Network v))
      then ret (Some (fmt_Errorf (nodes.Reason (nodes.Network v))))
      else ret None
  end.

(** [DeleteTestInstance] has the node by pointer; the node it leaves
    is returned next to the error. *)
Definition DeleteTestInstance (n : model.IronicNode) : M (model.IronicNode * option error) :=
  err <- call (ServersForceDelete (model.InstanceUUID n))
              (servers_ForceDelete B (model.InstanceUUID n)) ;;
  match err with
  | Some e => ret (n, Some e)
  | None =>
      err <- call (ServersWaitForStatus (model.InstanceUUID n) "DELETED" 60)
                  (servers_WaitForStatus B (model.InstanceUUID n) "DELETED" 60) ;;
      ret (n, err)
  end.

Definition getMatchingFlavorFor (n : model.IronicNode)
    : M (model.IronicNode * string * option error) :=
  pager <- call FlavorsListDetail (flavors_ListDetail B) ;;
  match pager with
  | PagerErr e => ret (n, "", Some e)
  | Pages ps =>
      match EachPage ps matchHandler ("", n) with
      | (err, (name, n)) => ret (n, name, err)
      end
  end.

(** The condition [cf(tp)] of [ProvideNode]. *)
Definition ProvideNode_cf (n : model.IronicNode) (tp : nodes.TargetProvisionState)
    : ConditionFunc W :=
  err <- call (NodesChangeProvisionState (model.UUID n) tp)
              (nodes_ChangeProvisionState B (model.UUID n) tp) ;;
  match err with
  | Some (ErrDefault409 _) => ret (false, None)
  | Some e => ret (true, Some e)
  | None => ret (true, None)
  end.

(** The condition [cfp] of [ProvideNode]. *)
Definition ProvideNode_cfp (n : model.IronicNode) : ConditionFunc W :=
  r <- call (NodesGet (model.UUID n)) (nodes_Get B (model.UUID n)) ;;
  match r with
  | Err e => ret (true, Some e)
  | Ok node =>
      if negb (String.eqb (nodes.ProvisionState node) "available")
      then ret (false, None)
      else ret (true, None)
  end.

Definition ProvideNode (n : model.IronicNode) : M (option error) :=
  err <- Poll (deadline_tick B) (5 * time_Second) (30 * time_Second) (ProvideNode_cf n nodes.TargetManage) ;;
  match err with
  | Some e => ret (Some e)
  | None =>
      err <- Poll (deadline_tick B) (5 * time_Second) (30 * time_Second)
               (ProvideNode_cf n nodes.TargetProvide) ;;
      match err with
      | Some e => ret (Some e)
      | None => Poll (deadline_tick B) (5 * time_Second) (30 * time_Second) (ProvideNode_cfp n)
      end
  end.

Definition PrepareNode (n : model.IronicNode) : M (option error) :=
  match nth_error (strings_Split (model.Name n) "-") 1 with
  | None => panic "index out of range"
  | Some conductor =>
      let opts :=
        [ {| Op := nodes.ReplaceOp; Path := "/conductor_group"; Value := VString conductor |};
          {| Op := nodes.ReplaceOp; Path := "/maintenance"; Value := VBool true |} ] in
      updateNode opts n
  end.

End Client.

(** The record name and the creation request for a node whose name
    splits into [na0], [na1], ... *)
Definition recordName_of (domain na0 na1 : string) : string :=
  ((na0 ++ "r-" ++ na1) ++ "." ++ domain ++ ".")%string.

Definition createOpts_of (domain na0 na1 : string) (n : model.IronicNode)
    : recordsets.CreateOpts :=
  {| recordsets.Name := recordName_of domain na0 na1;
     recordsets.TTL := 3600;
     recordsets.Type_ := "A";
     recordsets.Records := [model.IP n] |}.

(** What the creation's answer makes of the step. *)
Definition dns_verdict (err : option error) : option error :=
  match err with
  | Some (ErrDefault409 Actual) => if Actual =? 409 then None else err
  | _ => err
  end.

(** The four sub-results of a validation, in the order [ValidateNode]
    reads them. *)
Definition sub_results (v : nodes.NodeValidation) : list nodes.DriverValidation :=
  [nodes.Inspect v; nodes.Power v; nodes.Management v; nodes.Network v].

(** ** The failure handler ([pkg/provision/errorHandler.go]) *)

Module provision.

(** The dynamic types of the values sent on [e.Errors]:
    [*SchedulerError], whose [Node] pointer can be nil, or another
    error. *)
Inductive failure :=
| SchedulerError (Err : string) (Node : option model.IronicNode)
| OtherError (err : error).

(** What the [select] of the handler can receive. *)
Inductive signal :=
| Errors_recv (err : failure)
| ctx_Done.

Section Handler.

Variable W : Type.
(** [e.clients.DeleteNodeTestDeployment], which is not under src/. *)
Variable DeleteNodeTestDeployment : model.IronicNode -> M W (option error).

(** The goroutine of [initHandler], run on the signals in the order
    they become ready: one [select], after which the goroutine
    returns.  The result is the signals it has not received. *)
Definition initHandler (ready : list signal) : M W (list signal) :=
  match ready with
  | [] => ret []
  | Errors_recv (SchedulerError _ None) :: _ => panic "nil pointer dereference"
  | Errors_recv (SchedulerError _ (Some node)) :: rest =>
      if negb (String.eqb (model.InstanceUUID node) "")
      then (DeleteNodeTestDeployment node ;;; ret rest)
      else ret rest
  | Errors_recv (OtherError _) :: rest => ret rest
  | ctx_Done :: rest => ret rest
  end.

(** The handler the spec describes: the same [select] in a loop that
    ends when the cancellation signal is received. *)
Fixpoint loopingHandler (ready : list signal) : M W (list signal) :=
  match ready with
  | [] => ret []
  | Errors_recv (SchedulerError _ None) :: _ => panic "nil pointer dereference"
  | Errors_recv (SchedulerError _ (Some node)) :: rest =>
      if negb (String.eqb (model.InstanceUUID node) "")
      then (DeleteNodeTestDeployment node ;;; loopingHandler rest)
      else loopingHandler rest
  | Errors_recv (OtherError _) :: rest => loopingHandler rest
  | ctx_Done :: rest => ret rest
  end.

End Handler.

End provision.

(** ** Remote sides for the examples *)

(** A remote side whose state is the number of calls it has answered:
    [update k] is the answer of a writing call made in state [k], [get k]
    the node a [nodes.Get] made in state [k] returns; the listings and
    the validation are fixed. *)
Definition counting_remote
    (update : nat -> option error)
    (get : nat -> result nodes.Node)
    (zs : result (result (list zones.Zone)))
    (ps : result (result (list ports.Port)))
    (v : result nodes.NodeValidation)
    (pg : Pager)
    (tick : bool) : Backend nat :=
  {| zones_List := fun _ k => (zs, S k);
     recordsets_Create := fun _ _ k => (update k, S k);
     ports_List := fun _ k => (ps, S k);
     ports_Update := fun _ _ k => (update k, S k);
     nodes_Update := fun _ _ k => (update k, S k);
     nodes_Get := fun _ k => (get k, S k);
     nodes_Validate := fun _ k => (v, S k);
     nodes_ChangeProvisionState := fun _ _ k => (update k, S k);
     servers_ForceDelete := fun _ k => (update k, S k);
     servers_WaitForStatus := fun _ _ _ k => (update k, S k);
     flavors_ListDetail := fun k => (pg, S k);
     deadline_tick := fun _ => tick |}.

Definition no_validation : nodes.NodeValidation :=
  {| nodes.Inspect := {| nodes.Result := true; nodes.Reason := "" |};
     nodes.Power := {| nodes.Result := true; nodes.Reason := "" |};
     nodes.Management := {| nodes.Result := true; nodes.Reason := "" |};
     nodes.Network := {| nodes.Result := true; nodes.Reason := "" |} |}.

Definition node_in_state (st : string) : nodes.Node :=
  {| nodes.PowerState := "power on"; nodes.ProvisionState := st;
     nodes.NodeResourceClass := "" |}.

(** The remote side answers the first [k] writing calls with a conflict
    and accepts the later ones; the node is available from state
    [ready] on. *)
Definition locked_remote (k ready : nat) (tick : bool) : Backend nat :=
  counting_remote
    (fun i => if (i <? k)%nat then Some (ErrDefault409 409) else None)
    (fun i => Ok (node_in_state (if (i <? ready)%nat then "manageable" else "available")))
    (Ok (Ok [ {| zones.ID := "zone-1" |} ]))
    (Ok (Ok [ {| ports.UUID := "port-1" |} ]))
    (Ok no_validation)
    (Pages [])
    tick.

(** The remote side answers every writing call with the error [e]. *)
Definition failing_remote (e : error) : Backend nat :=
  counting_remote
    (fun _ => Some e)
    (fun _ => Err e)
    (Ok (Ok [ {| zones.ID := "zone-1" |} ]))
    (Ok (Ok [ {| ports.UUID := "port-1" |} ]))
    (Ok no_validation)
    (Pages [])
    false.

(** A condition that never settles, on a state that counts its
    invocations. *)
Definition never_settles : ConditionFunc nat :=
  fun k => (Return pending, S k, []).

Definition node0 : model.IronicNode :=
  {| model.UUID := "uuid-1"; model.Name := "node001-bb12"; model.Host := "";
     model.IP := "10.0.0.7"; model.ResourceClass := "";
     model.InstanceUUID := ""; model.InstanceIPv4 := "";
     model.InspectionData :=
       {| model.Inventory_ :=
            {| model.InvMemory := {| model.PhysicalMb := 64000 |};
               model.InvCPU := {| model.Count := 16 |} |};
          model.RootDisk_ := {| model.Size := 500 |} |} |}.

(** The candidates of the spec's example, and one with the measured RAM
    but twice the disk. *)
Definition flavor_A : flavors.Flavor :=
  {| flavors.ID := "1"; flavors.Name := "A";
     flavors.RAM := 65000; flavors.Disk := 520; flavors.VCPUs := 16 |}.
Definition flavor_B : flavors.Flavor :=
  {| flavors.ID := "2"; flavors.Name := "B";
     flavors.RAM := 64500; flavors.Disk := 510; flavors.VCPUs := 16 |}.
Definition flavor_C : flavors.Flavor :=
  {| flavors.ID := "3"; flavors.Name := "C";
     flavors.RAM := 64000; flavors.Disk := 1000; flavors.VCPUs := 16 |}.
(** A second candidate with the capacities of [flavor_A]. *)
Definition flavor_A2 : flavors.Flavor :=
  {| flavors.ID := "4"; flavors.Name := "A2";
     flavors.RAM := 65000; flavors.Disk := 520; flavors.VCPUs := 16 |}.

(** A DNS service that keeps the names of its records: the creation of
    a record that exists is answered with a conflict, and adds nothing. *)
Definition dns_remote : Backend (list string) :=
  {| zones_List := fun _ recs => (Ok (Ok [ {| zones.ID := "zone-1" |} ]), recs);
     recordsets_Create := fun _ opts recs =>
       if existsb (String.eqb (recordsets.Name opts)) recs
       then (Some (ErrDefault409 409), recs)
       else (None, recordsets.Name opts :: recs);
     ports_List := fun _ recs => (Ok (Ok []), recs);
     ports_Update := fun _ _ recs => (None, recs);
     nodes_Update := fun _ _ recs => (None, recs);
     nodes_Get := fun _ recs => (Ok (node_in_state "available"), recs);
     nodes_Validate := fun _ recs => (Ok no_validation, recs);
     nodes_ChangeProvisionState := fun _ _ recs => (None, recs);
     servers_ForceDelete := fun _ recs => (None, recs);
     servers_WaitForStatus := fun _ _ _ recs => (None, recs);
     flavors_ListDetail := fun recs => (Pages [], recs);
     deadline_tick := fun _ => false |}.

(** [node0] with a test instance. *)
Definition node_with_instance : model.IronicNode :=
  {| model.UUID := "uuid-1"; model.Name := "node001-bb12"; model.Host := "";
     model.IP := "10.0.0.7"; model.ResourceClass := "A";
     model.InstanceUUID := "instance-1"; model.InstanceIPv4 := "10.0.1.9";
     model.InspectionData := model.InspectionData node0 |}.

(** A node whose name has no hyphen. *)
Definition node_without_hyphen : model.IronicNode :=
  {| model.UUID := "uuid-2"; model.Name := "node002"; model.Host := "";
     model.IP := "10.0.0.8"; model.ResourceClass := "";
     model.InstanceUUID := "instance-2"; model.InstanceIPv4 := "10.0.1.10";
     model.InspectionData := model.InspectionData node0 |}.

(** A validation whose inspection sub-result fails with a reason that
    holds a formatting verb. *)
Definition validation_with_verb : nodes.NodeValidation :=
  {| nodes.Inspect := {| nodes.Result := false; nodes.Reason := "hi%d" |};
     nodes.Power := {| nodes.Result := true; nodes.Reason := "" |};
     nodes.Management := {| nodes.Result := true; nodes.Reason := "" |};
     nodes.Network := {| nodes.Result := true; nodes.Reason := "" |} |}.

Definition validating_remote (v : nodes.NodeValidation) : Backend nat :=
  counting_remote (fun _ => None) (fun _ => Ok (node_in_state "available"))
    (Ok (Ok [ {| zones.ID := "zone-1" |} ])) (Ok (Ok [])) (Ok v) (Pages []) false.

(** The teardown the handler calls, for the examples: the teardown of
    [openstack.go], with its error alone. *)
Definition teardown {W} (B : Backend W) (n : model.IronicNode) : M W (option error) :=
  r <- DeleteTestInstance B n ;; ret (snd r).

(** Two failures for the handler, and the signals of a run in which both
    are sent before the cancellation. *)
Definition failure_1 : provision.failure :=
  provision.SchedulerError "validation failed" (Some node_with_instance).
Definition failure_2 : provision.failure :=
  provision.SchedulerError "test instance unreachable" (Some node_without_hyphen).
Definition two_failures : list provision.signal :=
  [provision.Errors_recv failure_1; provision.Errors_recv failure_2; provision.ctx_Done].

(** The remote side has no port for the node and answers every node
    update with the error [e]. *)
Definition node_update_failing_remote (e : error) : Backend nat :=
  counting_remote
    (fun _ => Some e)
    (fun _ => Err e)
    (Ok (Ok [ {| zones.ID := "zone-1" |} ]))
    (Ok (Ok []))
    (Ok no_validation)
    (Pages [])
    false.

(** Rules with one operation for the node and none for the ports, and
    a rendering that gives them for every node. *)
Definition rules_0 : Rule :=
  {| Properties_Node :=
       [ {| RuleOp := "add"; RulePath := "/resource_class"; RuleValue := VString "A" |} ];
     Properties_Port := [] |}.
Definition getRules_0 {W} (n : model.IronicNode)
    : M W (model.IronicNode * Rule * option error) :=
  ret (n, rules_0, None).

Definition patch_0 : UpdateOpts :=
  [ {| Op := "add"; Path := "/resource_class"; Value := VString "A" |} ].

(** * The rest of the client *)

(** The errors the rest of the client returns: an [error] as before, an
    error built by [fmt.Errorf] with operands, whose text is [msg], and
    the client's own [*NodeNotFoundError]. *)
Inductive client_error :=
| Of_error (e : error)
| errorString (msg : string)
| NodeNotFoundError (Err : string).

Module hypervisors.
Record Hypervisor := { HypervisorHostname : string; LocalGB : Z; MemoryMB : Z }.
End hypervisors.

Module images.
Record Image := { ID : string; Name : string }.
End images.

Module services.
Record Service := { Host : string; Zone : string }.
End services.

Module servers.
Record CreateOpts := {
  Name : string; FlavorRef : string; ImageRef : string; AvailabilityZone : string }.
Record Server := { ID : string; AccessIPv4 : string }.
End servers.

(** [nodes.PowerOn] *)
Definition nodes_PowerOn : string := "power on".

(** A pager over pages of any element type, as [Pager] is for flavors. *)
Inductive PagerOf (A : Type) :=
| PagerErrOf (e : error)
| PagesOf (ps : list (result (list A))).
Arguments PagerErrOf {A} e.

(** The remote calls and the other outside calls of the rest of the
    client, over the remote state [W].  These calls are not entered in
    the request log: what they do is read from the state they leave.
    [time_Now] is [time.Now().Format("2006-01-02T15:04:05")];
    [ping_NewPinger addr] and [pinger_Run addr count] are the two calls
    on the pinger of go-ping. *)
Record Externals (W : Type) := {
  nodes_ChangePowerState : string -> string -> W -> option error * W;
  nodes_Delete : string -> W -> option error * W;
  hypervisors_List : W -> result (result (list hypervisors.Hypervisor)) * W;
  images_ListDetail : string -> W -> PagerOf images.Image * W;
  services_List : string -> W -> PagerOf services.Service * W;
  servers_Create : servers.CreateOpts -> W -> result servers.Server * W;
  time_Now : W -> string * W;
  ping_NewPinger : string -> W -> option error * W;
  pinger_Run : string -> Z -> W -> option error * W
}.

(** An outside call that is not entered in the request log. *)
Definition outside {W A} (f : W -> A * W) : M W A :=
  fun w => match f w with (a, w') => (Return a, w', []) end.

(** gophercloud's [Pager.EachPage] for any element type; the same
    iteration as [EachPage]. *)
Fixpoint EachPageOf {A S : Type} (ps : list (result (list A)))
    (handler : result (list A) -> S -> bool * option error * S)
    (st : S) : option error * S :=
  match ps with
  | [] => (None, st)
  | p :: rest =>
      match p with
      | Err e => (Some e, st)
      | Ok [] => (None, st)
      | Ok (_ :: _) =>
          match handler p st with
          | (_, Some e, st') => (Some e, st')
          | (true, None, st') => EachPageOf rest handler st'
          | (false, None, st') => (None, st')
          end
      end
  end.

Definition set_InstanceUUID (n : model.IronicNode) (id : string) : model.IronicNode :=
  {| model.UUID := model.UUID n; model.Name := model.Name n; model.Host := model.Host n;
     model.IP := model.IP n; model.ResourceClass := model.ResourceClass n;
     model.InstanceUUID := id; model.InstanceIPv4 := model.InstanceIPv4 n;
     model.InspectionData := model.InspectionData n |}.

Definition set_InstanceIPv4 (n : model.IronicNode) (ip : string) : model.IronicNode :=
  {| model.UUID := model.UUID n; model.Name := model.Name n; model.Host := model.Host n;
     model.IP := model.IP n; model.ResourceClass := model.ResourceClass n;
     model.InstanceUUID := model.InstanceUUID n; model.InstanceIPv4 := ip;
     model.InspectionData := model.InspectionData n |}.

(** The loop of the page callback of [getImageID]: the first image of
    the page with the name ends the iteration ([false, nil]); a page
    without one lets it go on ([true, nil]). *)
Fixpoint getImageID_range (name : string) (imgs : list images.Image) (id : string)
    : bool * option error * string :=
  match imgs with
  | [] => (true, None, id)
  | i :: rest =>
      if String.eqb (images.Name i) name then (false, None, images.ID i)
      else getImageID_range name rest id
  end.

Definition getImageID_handler (name : string) (p : result (list images.Image))
    (id : string) : bool * option error * string :=
  match p with
  | Err e => (false, Some e, id)
  | Ok imgs => getImageID_range name imgs id
  end.

(** The loop of the page callback of [getFlavorID]: the first flavor of
    the page with the name gives [true, nil], a page without one
    [false, nil]. *)
Fixpoint getFlavorID_range (name : string) (fs : list flavors.Flavor) (id : string)
    : bool * option error * string :=
  match fs with
  | [] => (false, None, id)
  | f :: rest =>
      if String.eqb (flavors.Name f) name then (true, None, flavors.ID f)
      else getFlavorID_range name rest id
  end.

Definition getFlavorID_handler (name : string) (p : result (list flavors.Flavor))
    (id : string) : bool * option error * string :=
  match p with
  | Err e => (true, Some e, id)
  | Ok fs => getFlavorID_range name fs id
  end.

(** The loop of the page callback of [getConductorZone]. *)
Fixpoint getConductorZone_range (name : string) (svs : list services.Service) (id : string)
    : bool * option error * string :=
  match svs with
  | [] => (false, None, id)
  | sv :: rest =>
      if String.eqb (services.Host sv) name then (true, None, services.Zone sv)
      else getConductorZone_range name rest id
  end.

Definition getConductorZone_handler (name : string) (p : result (list services.Service))
    (id : string) : bool * option error * string :=
  match p with
  | Err e => (true, Some e, id)
  | Ok svs => getConductorZone_range name svs id
  end.

(** The loop of the condition of [WaitForNovaPropagation] over the
    hypervisors of a listing. *)
Fixpoint WaitForNovaPropagation_range (uuid : string) (hys : list hypervisors.Hypervisor)
    : bool :=
  match hys with
  | [] => false
  | hv :: rest =>
      if String.eqb (hypervisors.HypervisorHostname hv) uuid
      then if (hypervisors.LocalGB hv >? 0) && (hypervisors.MemoryMB hv >? 0)
           then true
           else WaitForNovaPropagation_range uuid rest
      else WaitForNovaPropagation_range uuid rest
  end.

Section ClientRest.

Variable W : Type.
Variable B : Backend W.
Variable X : Externals W.
(** [c.cfg.Deployment.Image] and [c.cfg.Deployment.ConductorZone] *)
Variable Deployment_Image : string.
Variable Deployment_ConductorZone : string.

Local Abbreviation M := (M W).

Definition CheckIronicNodeCreated (n : model.IronicNode)
    : M (model.IronicNode * option client_error) :=
  if negb (String.eqb (model.UUID n) "") then ret (n, None)
  else
    r <- call (NodesGet (model.UUID n)) (nodes_Get B (model.UUID n)) ;;
    match r with
    | Err _ =>
        ret (n, Some (NodeNotFoundError ("could not find node " ++ model.UUID n)))
    | Ok node => ret (model.set_ResourceClass n (nodes.NodeResourceClass node), None)
    end.

(** The condition of [PowerNodeOn]. *)
Definition PowerNodeOn_cf (n : model.IronicNode) : ConditionFunc W :=
  r <- call (NodesGet (model.UUID n)) (nodes_Get B (model.UUID n)) ;;
  match r with
  | Err _ => ret (false, Some (fmt_Errorf "cannot power on node"))
  | Ok node =>
      if negb (String.eqb (nodes.PowerState node) nodes_PowerOn)
      then ret (false, None)
      else ret (true, None)
  end.

Definition PowerNodeOn (n : model.IronicNode) : M (option client_error) :=
  err <- outside (nodes_ChangePowerState X (model.UUID n) nodes_PowerOn) ;;
  match err with
  | Some (ErrDefault409 _) =>
      ret (Some (errorString ("cannot power on node " ++ model.UUID n)))
  | Some _ =>
      ret (Some (errorString ("cannot power on node " ++ model.UUID n)))
  | None =>
      r <- Poll (deadline_tick B) (5 * time_Second) (30 * time_Second) (PowerNodeOn_cf n) ;;
      ret (option_map Of_error r)
  end.

(** The condition [cfp] of [WaitForNovaPropagation]. *)
Definition WaitForNovaPropagation_cfp (n : model.IronicNode) : ConditionFunc W :=
  p <- outside (hypervisors_List X) ;;
  match p with
  | Err e => ret (true, Some e)
  | Ok (Err e) => ret (true, Some e)
  | Ok (Ok hys) =>
      if WaitForNovaPropagation_range (model.UUID n) hys then ret (true, None)
      else ret (false, None)
  end.

Definition WaitForNovaPropagation (n : model.IronicNode) : M (option error) :=
  Poll (deadline_tick B) (10 * time_Second) (600 * time_Second)
       (WaitForNovaPropagation_cfp n).

Definition getImageID (name : string) : M (string * option error) :=
  pager <- outside (images_ListDetail X name) ;;
  match pager with
  | PagerErrOf e => ret ("", Some e)
  | PagesOf ps =>
      match EachPageOf ps (getImageID_handler name) "" with
      | (err, id) => ret (id, err)
      end
  end.

Definition getFlavorID (name : string) : M (string * option error) :=
  pager <- call FlavorsListDetail (flavors_ListDetail B) ;;
  match pager with
  | PagerErr e => ret ("", Some e)
  | Pages ps =>
      match EachPage ps (getFlavorID_handler name) "" with
      | (err, id) => ret (id, err)
      end
  end.

Definition getConductorZone (name : string) : M (string * option error) :=
  pager <- outside (services_List X name) ;;
  match pager with
  | PagerErrOf e => ret ("", Some e)
  | PagesOf ps =>
      match EachPageOf ps (getConductorZone_handler name) "" with
      | (err, id) => ret (id, err)
      end
  end.

Definition DeployTestInstance (n : model.IronicNode)
    : M (model.IronicNode * option error) :=
  i <- getImageID Deployment_Image ;;
  z <- getConductorZone Deployment_ConductorZone ;;
  match snd z with
  | Some e => ret (n, Some e)
  | None =>
      now <- outside (time_Now X) ;;
      let opts := {| servers.Name := now ++ "_inspector_test";
                     servers.FlavorRef := model.ResourceClass n;
                     servers.ImageRef := fst i;
                     servers.AvailabilityZone := fst z ++ "::" ++ model.UUID n |} in
      r <- outside (servers_Create X opts) ;;
      match r with
      | Err e => ret (n, Some e)
      | Ok s =>
          let n := set_InstanceUUID n (servers.ID s) in
          err <- call (ServersWaitForStatus (servers.ID s) "ACTIVE" 60)
                      (servers_WaitForStatus B (servers.ID s) "ACTIVE" 60) ;;
          match err with
          | Some e => ret (n, Some e)
          | None =>
              let n := set_InstanceIPv4 n (servers.AccessIPv4 s) in
              err <- outside (ping_NewPinger X (model.InstanceIPv4 n)) ;;
              match err with
              | Some e => ret (n, Some e)
              | None =>
                  err <- outside (pinger_Run X (model.InstanceIPv4 n) 3) ;;
                  ret (n, err)
              end
          end
      end
  end.

(** The condition [cfp] of [DeleteNode]. *)
Definition DeleteNode_cfp (n : model.IronicNode) : ConditionFunc W :=
  err <- outside (nodes_Delete X (model.UUID n)) ;;
  match err with
  | Some e => ret (false, Some e)
  | None => ret (true, None)
  end.

Definition DeleteNode (n : model.IronicNode) : M (option error) :=
  Poll (deadline_tick B) (5 * time_Second) (30 * time_Second) (DeleteNode_cfp n).

End ClientRest.

(** ** Outside calls and remote sides for the examples of this part *)

(** Outside calls on a counting state: fixed answers, but for the delete
    call, whose answer [del k] depends on the state. *)
Definition counting_externals
    (power : option error)
    (del : nat -> option error)
    (hys : result (result (list hypervisors.Hypervisor)))
    (imgs : PagerOf images.Image)
    (svcs : PagerOf services.Service)
    (srv : result servers.Server)
    (pong : option error) : Externals nat :=
  {| nodes_ChangePowerState := fun _ _ k => (power, S k);
     nodes_Delete := fun _ k => (del k, S k);
     hypervisors_List := fun k => (hys, S k);
     images_ListDetail := fun _ k => (imgs, S k);
     services_List := fun _ k => (svcs, S k);
     servers_Create := fun _ k => (srv, S k);
     time_Now := fun k => ("2021-03-01T10:00:00", S k);
     ping_NewPinger := fun _ k => (None, S k);
     pinger_Run := fun _ _ k => (pong, S k) |}.

(** The node has three ports; the remote side accepts the update of the
    first and answers the later updates with the error 500. *)
Definition three_ports : list ports.Port :=
  [ {| ports.UUID := "port-1" |}; {| ports.UUID := "port-2" |}; {| ports.UUID := "port-3" |} ].

Definition second_port_failing_remote : Backend nat :=
  counting_remote
    (fun i => if (i <? 2)%nat then None else Some (ErrUnexpectedResponseCode 500))
    (fun _ => Ok (node_in_state "available"))
    (Ok (Ok [ {| zones.ID := "zone-1" |} ]))
    (Ok (Ok three_ports))
    (Ok no_validation)
    (Pages [])
    false.

(** Rules with one operation for the ports and one for the node. *)
Definition rules_1 : Rule :=
  {| Properties_Node :=
       [ {| RuleOp := "add"; RulePath := "/resource_class"; RuleValue := VString "A" |} ];
     Properties_Port :=
       [ {| RuleOp := "replace"; RulePath := "/pxe_enabled"; RuleValue := VBool true |} ] |}.
Definition getRules_1 {W} (n : model.IronicNode)
    : M W (model.IronicNode * Rule * option error) :=
  ret (n, rules_1, None).
Definition patch_1 : UpdateOpts :=
  [ {| Op := "replace"; Path := "/pxe_enabled"; Value := VBool true |} ].

(** Images and services for the examples. *)
Definition image_1 : images.Image := {| images.ID := "img-1"; images.Name := "ubuntu" |}.
Definition image_2 : images.Image := {| images.ID := "img-2"; images.Name := "cirros" |}.
Definition image_3 : images.Image := {| images.ID := "img-3"; images.Name := "cirros" |}.
Definition service_1 : services.Service :=
  {| services.Host := "nova-compute-1"; services.Zone := "zone-a" |}.
Definition service_2 : services.Service :=
  {| services.Host := "nova-compute-2"; services.Zone := "zone-b" |}.
Definition server_1 : servers.Server :=
  {| servers.ID := "instance-9"; servers.AccessIPv4 := "10.0.1.99" |}.

(** The outside calls of the examples: the image listing has an empty
    page before its last page; each service is on a page of its own. *)
Definition example_externals (imgs : PagerOf images.Image) (srv : result servers.Server)
    : Externals nat :=
  counting_externals None (fun _ => None) (Ok (Ok []))
    imgs
    (PagesOf [Ok [service_1]; Ok [service_2]])
    srv None.

Definition image_pages : PagerOf images.Image :=
  PagesOf (map (@Ok _) ([[image_1]; [image_2]] ++ [[]; [image_3]])).

(** A flavor listing with one flavor on each page. *)
Definition paged_flavors_remote : Backend nat :=
  counting_remote (fun _ => None) (fun _ => Ok (node_in_state "available"))
    (Ok (Ok [ {| zones.ID := "zone-1" |} ])) (Ok (Ok [])) (Ok no_validation)
    (Pages [Ok [flavor_A]; Ok [flavor_B]]) false.

(** The wait for the status of a server fails, every other call of the
    remote side succeeds. *)
Definition wait_failing_remote : Backend nat :=
  {| zones_List := fun _ k => (Ok (Ok []), S k);
     recordsets_Create := fun _ _ k => (None, S k);
     ports_List := fun _ k => (Ok (Ok []), S k);
     ports_Update := fun _ _ k => (None, S k);
     nodes_Update := fun _ _ k => (None, S k);
     nodes_Get := fun _ k => (Ok (node_in_state "available"), S k);
     nodes_Validate := fun _ k => (Ok no_validation, S k);
     nodes_ChangeProvisionState := fun _ _ k => (None, S k);
     servers_ForceDelete := fun _ k => (None, S k);
     servers_WaitForStatus := fun _ _ _ k => (Some (ErrOther "status ERROR"), S k);
     flavors_ListDetail := fun k => (Pages [], S k);
     deadline_tick := fun _ => false |}.

(** ** Predicates on the scan of the matcher *)

(** The three deltas of a candidate for a node are numbers within the
    initial thresholds 10%, 20%, 10%. *)
Definition within_thresholds (nd : model.IronicNode) (f : flavors.Flavor) : Prop :=
  exists qr qd qc,
    calcDelta (flavors.RAM f) (measured_ram nd) = Finite qr
    /\ calcDelta (flavors.Disk f) (measured_disk nd) = Finite qd
    /\ calcDelta (flavors.VCPUs f) (measured_cpu nd) = Finite qc
    /\ (qr <= 1 # 10)%Q /\ (qd <= 2 # 10)%Q /\ (qc <= 1 # 10)%Q.

(** No capacity of the candidate is zero. *)
Definition nonzero_capacities (f : flavors.Flavor) : Prop :=
  flavors.RAM f <> 0 /\ flavors.Disk f <> 0 /\ flavors.VCPUs f <> 0.

(** What holds of a scan that started from [name0] and [nd] after the
    candidates [seen]: the node kept its inventory, the running bests are
    numbers within the initial thresholds, and either nothing was recorded
    or the recorded name and resource class are those of a candidate seen
    that is within the thresholds. *)
Definition scan_invariant (name0 : string) (nd : model.IronicNode)
    (seen : list flavors.Flavor) (s : scan float64) : Prop :=
  model.InspectionData (n s) = model.InspectionData nd
  /\ (exists r d c, ram s = Finite r /\ disk s = Finite d /\ cpu s = Finite c
                    /\ (r <= 1 # 10)%Q /\ (d <= 2 # 10)%Q /\ (c <= 1 # 10)%Q)
  /\ ((name s = name0 /\ n s = nd)
      \/ (exists f, In f seen
                    /\ name s = flavors.Name f
                    /\ n s = model.set_ResourceClass nd (flavors.Name f)
                    /\ within_thresholds nd f)).

(** * The inventory loader (the Redfish client) *)

(** ** What the Redfish service returns *)

(** The structs of gofish the loader reads, with the fields it reads.
    A call of gofish that returns [(values, err)] is the pair of a list
    and an optional error.  [RotationSpeedRPM] is a [float32] of which
    only the comparison with 0 is used; it is an integer here. *)
Module Drive.
Record t := {
  Name : string; Model : string; Manufacturer : string;
  CapacityBytes : Z; RotationSpeedRPM : Z }.
End Drive.

Module Storage.
Record t := { Drives : list Drive.t * option error }.
End Storage.

Module Processor.
Record t := { InstructionSet : string }.
End Processor.

Module EthernetInterface.
Record t := { ID : string; MACAddress : string }.
End EthernetInterface.

Module Chassis.
Record t := { Manufacturer : string; SerialNumber : string; SKU : string; Model : string }.
End Chassis.

(** ** What the loader writes *)

Module Disk.
Record t := { Name : string; Model : string; Vendor : string; Size : Z; Rotational : bool }.
End Disk.

Module RootDiskData.
Record t := { Name : string; Model : string; Vendor : string; Size : Z; Rotational : bool }.
End RootDiskData.

Module NodeInterface.
Record t := { Connection : string; ConnectionIP : string; Mac : string }.
End NodeInterface.

(** The fields of [model.InspectonData] the loader writes:
    [Inventory.SystemVendor], [Inventory.Memory.PhysicalMb],
    [Inventory.Disks], [Inventory.CPU], [Inventory.Boot], [RootDisk] and
    [BootInterface]. *)
Module Inspected.
Record t := {
  Manufacturer : string;
  SerialNumber : string;
  ProductName : string;
  PhysicalMb : Z;
  Disks : list Disk.t;
  CPU_Count : Z;
  CPU_Architecture : string;
  PxeInterface : string;
  CurrentBootMode : string;
  RootDisk : RootDiskData.t;
  BootInterface : string
}.

(** [model.InspectonData{}] *)
Definition zero : t :=
  {| Manufacturer := ""; SerialNumber := ""; ProductName := ""; PhysicalMb := 0;
     Disks := []; CPU_Count := 0; CPU_Architecture := "";
     PxeInterface := ""; CurrentBootMode := "";
     RootDisk := {| RootDiskData.Name := ""; RootDiskData.Model := "";
                    RootDiskData.Vendor := ""; RootDiskData.Size := 0;
                    RootDiskData.Rotational := false |};
     BootInterface := "" |}.

Definition set_SystemVendor (d : t) (m sn pn : string) : t :=
  {| Manufacturer := m; SerialNumber := sn; ProductName := pn;
     PhysicalMb := PhysicalMb d; Disks := Disks d; CPU_Count := CPU_Count d;
     CPU_Architecture := CPU_Architecture d; PxeInterface := PxeInterface d;
     CurrentBootMode := CurrentBootMode d; RootDisk := RootDisk d;
     BootInterface := BootInterface d |}.

Definition set_PhysicalMb (d : t) (mb : Z) : t :=
  {| Manufacturer := Manufacturer d; SerialNumber := SerialNumber d;
     ProductName := ProductName d;
     PhysicalMb := mb; Disks := Disks d; CPU_Count := CPU_Count d;
     CPU_Architecture := CPU_Architecture d; PxeInterface := PxeInterface d;
     CurrentBootMode := CurrentBootMode d; RootDisk := RootDisk d;
     BootInterface := BootInterface d |}.

Definition set_Disks (d : t) (ds : list Disk.t) (root : RootDiskData.t) : t :=
  {| Manufacturer := Manufacturer d; SerialNumber := SerialNumber d;
     ProductName := ProductName d;
     PhysicalMb := PhysicalMb d; Disks := ds; CPU_Count := CPU_Count d;
     CPU_Architecture := CPU_Architecture d; PxeInterface := PxeInterface d;
     CurrentBootMode := CurrentBootMode d; RootDisk := root;
     BootInterface := BootInterface d |}.

Definition set_CPU (d : t) (count : Z) (arch : string) : t :=
  {| Manufacturer := Manufacturer d; SerialNumber := SerialNumber d;
     ProductName := ProductName d;
     PhysicalMb := PhysicalMb d; Disks := Disks d; CPU_Count := count;
     CPU_Architecture := arch; PxeInterface := PxeInterface d;
     CurrentBootMode := CurrentBootMode d; RootDisk := RootDisk d;
     BootInterface := BootInterface d |}.

Definition set_Boot (d : t) (pxe mode bootif : string) : t :=
  {| Manufacturer := Manufacturer d; SerialNumber := SerialNumber d;
     ProductName := ProductName d;
     PhysicalMb := PhysicalMb d; Disks := Disks d; CPU_Count := CPU_Count d;
     CPU_Architecture := CPU_Architecture d; PxeInterface := pxe;
     CurrentBootMode := mode; RootDisk := RootDisk d;
     BootInterface := bootif |}.
End Inspected.

(** A Go map from strings, read through its lookups. *)
Definition strmap (V : Type) : Type := string -> option V.
Definition strmap_empty {V} : strmap V := fun _ => None.
Definition strmap_set {V} (m : strmap V) (k : string) (v : V) : strmap V :=
  fun k' => if String.eqb k' k then Some v else m k'.

(** Go's [a / b] on [int]: truncated, with the wrap-around of the one
    quotient that does not fit. *)
Definition int_quot (a b : Z) : Z :=
  (Z.quot a b + 2 ^ 63) mod 2 ^ 64 - 2 ^ 63.

(** [strings.Replace(s, old, new, 1)] for [old] and [new] of one byte:
    the first occurrence is replaced. *)
Fixpoint strings_Replace1 (s : string) (old new : ascii) : string :=
  match s with
  | EmptyString => EmptyString
  | String c rest =>
      if Ascii.eqb c old then String new rest
      else String c (strings_Replace1 rest old new)
  end.

(** [strings.ReplaceAll(s, old, new)] for [old] and [new] of one byte. *)
Fixpoint strings_ReplaceAll (s : string) (old new : ascii) : string :=
  match s with
  | EmptyString => EmptyString
  | String c rest =>
      String (if Ascii.eqb c old then new else c) (strings_ReplaceAll rest old new)
  end.

(** [strings.ToLower] on the letters of ASCII; the other bytes are left
    as they are. *)
Definition lower_byte (c : ascii) : ascii :=
  let k := N_of_ascii c in
  if ((65 <=? k) && (k <=? 90))%N then ascii_of_N (k + 32) else c.

Fixpoint strings_ToLower (s : string) : string :=
  match s with
  | EmptyString => EmptyString
  | String c rest => String (lower_byte c) (strings_ToLower rest)
  end.

(** [strings.Contains(s, substr)] *)
Fixpoint strings_ContainsStr (s substr : string) : bool :=
  match s with
  | EmptyString => String.prefix substr EmptyString
  | String c rest => String.prefix substr s || strings_ContainsStr rest substr
  end.

(** [mapInterfaceToNetbox]: the two tests on [p[1]] one after the
    other; an index outside a slice panics. *)
Definition mapInterfaceToNetbox (id : string) : outcome string :=
  let p := strings_Split id "." in
  match nth_error p 1 with
  | None => Panic "index out of range"
  | Some p1 =>
      let integrated :=
        if String.eqb p1 "Integrated" then
          match nth_error p 2 with
          | None => Panic "index out of range"
          | Some p2 =>
              match nth_error (strings_Split p2 "-") 1 with
              | None => Panic "index out of range"
              | Some nr1 => Return ("L" ++ nr1)%string
              end
          end
        else Return "" in
      match integrated with
      | Panic msg => Panic msg
      | Return intf =>
          if String.eqb p1 "Slot" then
            match nth_error p 2 with
            | None => Panic "index out of range"
            | Some p2 =>
                let nr := strings_Split p2 "-" in
                match nth_error nr 0, nth_error nr 1 with
                | Some nr0, Some nr1 => Return ("PCI" ++ nr0 ++ "-P" ++ nr1)%string
                | _, _ => Panic "index out of range"
                end
            end
          else Return intf
      end
  end.

(** The loop of [setNetworkDevicesData] over the interfaces. *)
Fixpoint setNetworkDevicesData_range (ethInt : list EthernetInterface.t)
    (intfs : strmap NodeInterface.t) : outcome (strmap NodeInterface.t) :=
  match ethInt with
  | [] => Return intfs
  | e :: rest =>
      match mapInterfaceToNetbox (EthernetInterface.ID e) with
      | Panic msg => Panic msg
      | Return key =>
          setNetworkDevicesData_range rest
            (strmap_set intfs key
               {| NodeInterface.Connection := ""; NodeInterface.ConnectionIP := "";
                  NodeInterface.Mac := EthernetInterface.MACAddress e |})
      end
  end.

Section Redfish.

(** [int64(float64(c) * 1.074)]: the floating-point scaling of a
    capacity is a parameter. *)
Variable scale : Z -> Z.

(** The memory modules of gofish and [calcTotalMemory], which is not
    under src/. *)
Variable Memory : Type.
Variable calcTotalMemory : list Memory -> Z.

(** One computer system of the service, with what its calls return. *)
Record ComputerSystem := {
  System_Memory : list Memory * option error;
  System_Storage : list Storage.t * option error;
  System_Processors : list Processor.t * option error;
  System_EthernetInterfaces : list EthernetInterface.t * option error;
  ProcessorSummary_Count : Z;
  ProcessorSummary_LogicalProcessorCount : Z
}.

(** [r.service]: its chassis and its systems. *)
Record Service := {
  Service_Chassis : list Chassis.t * option error;
  Service_Systems : list ComputerSystem * option error
}.

(** What the loader works on: [r.data] and the interfaces of [r.node]. *)
Record loader := {
  data : Inspected.t;
  Interfaces : strmap NodeInterface.t
}.

Definition with_data (r : loader) (d : Inspected.t) : loader :=
  {| data := d; Interfaces := Interfaces r |}.

Definition setMemory (s : ComputerSystem) (r : loader) : loader * option error :=
  match System_Memory s with
  | (_, Some e) => (r, Some e)
  | (mem, None) => (with_data r (Inspected.set_PhysicalMb (data r) (calcTotalMemory mem)), None)
  end.

(** One drive of the inner loop of [setDisks]. *)
Definition setDisks_drive (acc : RootDiskData.t * list Disk.t) (s : Drive.t)
    : RootDiskData.t * list Disk.t :=
  let rootDisk := fst acc in
  let rotational := negb (Drive.RotationSpeedRPM s =? 0) in
  let disk := {| Disk.Name := Drive.Name s; Disk.Model := Drive.Model s;
                 Disk.Vendor := Drive.Manufacturer s;
                 Disk.Size := scale (Drive.CapacityBytes s);
                 Disk.Rotational := rotational |} in
  let rootDisk :=
    if Drive.CapacityBytes s >? RootDiskData.Size rootDisk then
      {| RootDiskData.Name := Drive.Name s; RootDiskData.Model := Drive.Model s;
         RootDiskData.Vendor := Drive.Manufacturer s;
         RootDiskData.Size := scale (Drive.CapacityBytes s);
         RootDiskData.Rotational :=
           if Drive.RotationSpeedRPM s =? 0 then rotational
           else RootDiskData.Rotational rootDisk |}
    else rootDisk in
  (rootDisk, snd acc ++ [disk]).

(** One storage of the outer loop: a storage whose drives cannot be
    listed is passed over. *)
Definition setDisks_storage (acc : RootDiskData.t * list Disk.t) (st : Storage.t)
    : RootDiskData.t * list Disk.t :=
  match Storage.Drives st with
  | (_, Some _) => acc
  | (ds, None) => fold_left setDisks_drive ds acc
  end.

Definition rootDisk_start : RootDiskData.t :=
  {| RootDiskData.Name := ""; RootDiskData.Model := ""; RootDiskData.Vendor := "";
     RootDiskData.Size := 0; RootDiskData.Rotational := true |}.

Definition setDisks (s : ComputerSystem) (r : loader) : loader * option error :=
  let acc := fold_left setDisks_storage (fst (System_Storage s)) (rootDisk_start, []) in
  (with_data r (Inspected.set_Disks (data r) (snd acc) (fst acc)), snd (System_Storage s)).

Definition setCPUs (s : ComputerSystem) (r : loader) : outcome (loader * option error) :=
  match System_Processors s with
  | (_, Some e) => Return (r, Some e)
  | ([], None) => Return (r, None)
  | (cpu0 :: _, None) =>
      if ProcessorSummary_Count s =? 0 then Panic "integer divide by zero"
      else
        Return (with_data r
                  (Inspected.set_CPU (data r)
                     (int_quot (ProcessorSummary_LogicalProcessorCount s)
                               (ProcessorSummary_Count s))
                     (strings_Replace1 (Processor.InstructionSet cpu0) "-" "_")),
                None)
  end.

Definition setNetworkDevicesData (s : ComputerSystem) (r : loader)
    : outcome (loader * option error) :=
  match System_EthernetInterfaces s with
  | (_, Some e) => Return (r, Some e)
  | ([], None) => Return (r, None)
  | (e0 :: rest, None) =>
      let d := Inspected.set_Boot (data r)
                 (EthernetInterface.MACAddress e0) "bios"
                 ("01-" ++ strings_ReplaceAll (EthernetInterface.MACAddress e0) ":" "-")%string in
      match setNetworkDevicesData_range (e0 :: rest) strmap_empty with
      | Panic msg => Panic msg
      | Return intfs => Return ({| data := d; Interfaces := intfs |}, None)
      end
  end.

Definition setInventory (service : Service) (r : loader) : outcome (loader * option error) :=
  match Service_Chassis service with
  | (_, Some e) => Return (r, Some e)
  | ([], None) => Return (r, None)
  | (ch0 :: _, None) =>
      let serial :=
        if strings_ContainsStr (strings_ToLower (Chassis.Manufacturer ch0)) "dell"
        then Chassis.SKU ch0 else Chassis.SerialNumber ch0 in
      let r := with_data r (Inspected.set_SystemVendor (data r)
                              (Chassis.Manufacturer ch0) serial (Chassis.Model ch0)) in
      match Service_Systems service with
      | (_, Some e) => Return (r, Some e)
      | ([], None) => Return (r, None)
      | (s0 :: _, None) =>
          match setMemory s0 r with
          | (r, Some e) => Return (r, Some e)
          | (r, None) =>
              match setDisks s0 r with
              | (r, Some e) => Return (r, Some e)
              | (r, None) =>
                  match setCPUs s0 r with
                  | Panic msg => Panic msg
                  | Return (r, Some e) => Return (r, Some e)
                  | Return (r, None) => setNetworkDevicesData s0 r
                  end
              end
          end
      end
  end.

(** [model.Node], with the two fields the loader writes. *)
Record Node := {
  Node_InspectionData : Inspected.t;
  Node_Interfaces : strmap NodeInterface.t
}.

(** [LoadInventory]; [connect] is what [gofish.Connect] returns. *)
Definition LoadInventory (connect : result Service) (nd : Node)
    : outcome (Node * option error) :=
  match connect with
  | Err e => Return (nd, Some e)
  | Ok service =>
      match setInventory service {| data := Inspected.zero; Interfaces := Node_Interfaces nd |} with
      | Panic msg => Panic msg
      | Return (r, Some e) =>
          Return ({| Node_InspectionData := Node_InspectionData nd;
                     Node_Interfaces := Interfaces r |}, Some e)
      | Return (r, None) =>
          Return ({| Node_InspectionData := data r; Node_Interfaces := Interfaces r |}, None)
      end
  end.

End Redfish.

(** ** Notions for the properties of the loader *)

(** The interface name of an Ethernet interface is [k]. *)
Definition named (k : string) (e : EthernetInterface.t) : bool :=
  match mapInterfaceToNetbox (EthernetInterface.ID e) with
  | Return k' => String.eqb k' k
  | Panic _ => false
  end.

(** The drives of the storages whose drives can be listed, in order. *)
Definition listed_drives (sts : list Storage.t) : list Drive.t :=
  flat_map (fun st => match Storage.Drives st with
                      | (ds, None) => ds
                      | (_, Some _) => []
                      end) sts.

(** An interface string without the separators of the interface
    identifiers. *)
Definition plain (s : string) : Prop :=
  strings_Contains s "." = false /\ strings_Contains s "-" = false.

(** ** A system for the examples of the loader *)

(** The scaling by 1.074 in exact arithmetic, for the examples. *)
Definition scale_exact (c : Z) : Z := c * 1074 / 1000.

Definition drive_1 : Drive.t :=
  {| Drive.Name := "Disk.Bay.0"; Drive.Model := "ST1000"; Drive.Manufacturer := "Seagate";
     Drive.CapacityBytes := 1000; Drive.RotationSpeedRPM := 7200 |}.
Definition drive_2 : Drive.t :=
  {| Drive.Name := "Disk.Bay.1"; Drive.Model := "PM883"; Drive.Manufacturer := "Samsung";
     Drive.CapacityBytes := 1050; Drive.RotationSpeedRPM := 0 |}.

Definition example_system : ComputerSystem unit :=
  {| System_Memory := ([tt; tt], None);
     System_Storage :=
       ([ {| Storage.Drives := ([drive_1], None) |};
          {| Storage.Drives := ([], Some (ErrOther "no drives")) |};
          {| Storage.Drives := ([drive_2], None) |} ], None);
     System_Processors := ([ {| Processor.InstructionSet := "x86-64" |} ], None);
     System_EthernetInterfaces :=
       ([ {| EthernetInterface.ID := "NIC.Integrated.1-1-1";
             EthernetInterface.MACAddress := "aa:bb:cc:dd:ee:01" |} ], None);
     ProcessorSummary_Count := 2;
     ProcessorSummary_LogicalProcessorCount := 48 |}.

Definition example_loader : loader :=
  {| data := Inspected.zero; Interfaces := strmap_empty |}.

(** A service without chassis. *)
Definition service_without_chassis : Service unit :=
  {| Service_Chassis := ([], None); Service_Systems := ([example_system], None) |}.

(** A service whose system cannot list its processors. *)
Definition service_without_processors : Service unit :=
  {| Service_Chassis :=
       ([ {| Chassis.Manufacturer := "Dell Inc."; Chassis.SerialNumber := "SN1";
             Chassis.SKU := "SKU1"; Chassis.Model := "R640" |} ], None);
     Service_Systems :=
       ([ {| System_Memory := ([tt], None);
             System_Storage := ([ {| Storage.Drives := ([drive_1], None) |} ], None);
             System_Processors := ([], Some (ErrOther "no processors"));
             System_EthernetInterfaces := ([], None);
             ProcessorSummary_Count := 2;
             ProcessorSummary_LogicalProcessorCount := 48 |} ], None) |}.

Definition example_node : Node :=
  {| Node_InspectionData :=
       Inspected.set_PhysicalMb Inspected.zero 65536;
     Node_Interfaces := strmap_empty |}.

(** * The discovery loop ([Redfish.loadRedfishInfo]) *)

(** A network adapter, with the MAC addresses of its device functions
    ([f[k].Ethernet.MACAddress]) as [NetworkDeviceFunctions()] returns
    them, and a chassis with its adapters. *)
Module NetworkAdapter.
Record t := { NetworkDeviceFunctions : list string * option error }.
End NetworkAdapter.

Module AdapterChassis.
Record t := { NetworkAdapters : list NetworkAdapter.t * option error }.
End AdapterChassis.

(** One chassis of the loop of [loadRedfishInfo].  The type
    [ironic.InspectorCallbackData] is not under src/: [i.Interfaces] is
    the list of the [MacAddress] fields of its entries, the empty string
    being the zero value [make] fills in. *)
Definition loadRedfishInfo_chassis (interfaces : list string) (chass : AdapterChassis.t)
    : outcome (list string) :=
  match AdapterChassis.NetworkAdapters chass with
  | (_, Some _) => Return interfaces
  | ([], None) => Return interfaces
  | (n0 :: rest, None) =>
      match fst (NetworkAdapter.NetworkDeviceFunctions n0) with
      | [] => Panic "index out of range"
      | mac :: _ => Return (mac :: repeat EmptyString (List.length rest))
      end
  end.

Fixpoint loadRedfishInfo_range (chassis : list AdapterChassis.t) (interfaces : list string)
    : outcome (list string) :=
  match chassis with
  | [] => Return interfaces
  | chass :: rest =>
      match loadRedfishInfo_chassis interfaces chass with
      | Panic msg => Panic msg
      | Return interfaces' => loadRedfishInfo_range rest interfaces'
      end
  end.

(** [loadRedfishInfo]; [connect] is what [gofish.Connect] and then
    [service.Chassis()] return. *)
Definition loadRedfishInfo (connect : result (list AdapterChassis.t * option error))
    : outcome (list string * option error) :=
  match connect with
  | Err e => Return ([], Some e)
  | Ok (_, Some e) => Return ([], Some e)
  | Ok (chassis, None) =>
      match loadRedfishInfo_range chassis [] with
      | Panic msg => Panic msg
      | Return interfaces => Return (interfaces, None)
      end
  end.

(** A chassis gives no adapter: the listing fails or is empty. *)
Definition without_adapters (chass : AdapterChassis.t) : Prop :=
  snd (AdapterChassis.NetworkAdapters chass) <> None
  \/ fst (AdapterChassis.NetworkAdapters chass) = [].

Definition chassis_two_adapters : AdapterChassis.t :=
  {| AdapterChassis.NetworkAdapters :=
       ([ {| NetworkAdapter.NetworkDeviceFunctions := (["aa:aa"; "aa:ab"], None) |};
          {| NetworkAdapter.NetworkDeviceFunctions := (["bb:bb"], None) |} ], None) |}.
Definition chassis_no_adapter : AdapterChassis.t :=
  {| AdapterChassis.NetworkAdapters := ([], None) |}.

(** Two nodes whose names differ after the second piece. *)
Definition node_a : model.IronicNode :=
  {| model.UUID := "uuid-a"; model.Name := "node001-bb12-a"; model.Host := "";
     model.IP := "10.0.0.7"; model.ResourceClass := "";
     model.InstanceUUID := ""; model.InstanceIPv4 := "";
     model.InspectionData := model.InspectionData node0 |}.
Definition node_b : model.IronicNode :=
  {| model.UUID := "uuid-b"; model.Name := "node001-bb12-b"; model.Host := "";
     model.IP := "10.0.0.8"; model.ResourceClass := "";
     model.InstanceUUID := ""; model.InstanceIPv4 := "";
     model.InspectionData := model.InspectionData node0 |}.

(** * Properties *)

Unset Implicit Arguments.

(** ** The monad *)

Lemma bind_Return {W A B} (m : M W A) (k : A -> M W B) w a w1 l1 :
  m w = (Return a, w1, l1) ->
  bind m k w = (let '(o, w2, l2) := k a w1 in (o, w2, l1 ++ l2)).
Proof. intros H. unfold bind. rewrite H. reflexivity. Qed.

Lemma bind_Panic {W A B} (m : M W A) (k : A -> M W B) w msg w1 l1 :
  m w = (Panic msg, w1, l1) -> bind m k w = (Panic msg, w1, l1).
Proof. intros H. unfold bind. rewrite H. reflexivity. Qed.

(** ** The Retry/Poll Primitive *)

(** One round of [WaitFor]. *)
Lemma WaitFor_eq {W} ticks (fn : ConditionFunc W) (w : W) :
  WaitFor ticks fn w =
  match fn w with
  | (Return (_, Some err), w1, l1) => (Return (Some err), w1, l1)
  | (Return (true, None), w1, l1) => (Return None, w1, l1)
  | (Return (false, None), w1, l1) =>
      match ticks with
      | O => (Return (Some ErrWaitTimeout), w1, l1)
      | S n => let '(o, w2, l2) := WaitFor n fn w1 in (o, w2, l1 ++ l2)
      end
  | (Panic msg, w1, l1) => (Panic msg, w1, l1)
  end.
Proof.
  destruct ticks; simpl; unfold bind;
    destruct (fn w) as [[[[[] [e|]]|msg] w1] l1]; simpl;
    rewrite ?app_nil_r; reflexivity.
Qed.

Section PollFacts.

Context {W : Type}.
Implicit Types (fn : ConditionFunc W) (w : W).

(** While the condition answers [pending] and ticks remain, the poll
    goes on from the state the condition left. *)
Lemma WaitFor_pending k : forall ticks fn w w1 l1,
  invocations fn w (repeat pending k) w1 l1 ->
  WaitFor (k + ticks) fn w =
  (let '(o, w2, l2) := WaitFor ticks fn w1 in (o, w2, l1 ++ l2)).
Proof.
  induction k as [|k IH]; intros ticks fn w w1 l1 Hinv; simpl in Hinv.
  - inversion Hinv; subst. simpl. destruct (WaitFor ticks fn w1) as [[o w2] l2].
    reflexivity.
  - inversion Hinv as [|? ? w0 l0 ? ? l2 Hfn Hrest]; subst.
    rewrite WaitFor_eq, Hfn. simpl.
    rewrite (IH ticks fn w0 w1 l2 Hrest).
    destruct (WaitFor ticks fn w1) as [[o w2] l3].
    rewrite app_assoc. reflexivity.
Qed.

(** The first decisive answer, if it comes while the channel is still
    served, ends the poll: with the error if there is one, with success
    otherwise; the state and the log are those of the invocations made
    so far. *)
Lemma WaitFor_decided k ticks fn w r w' l :
  (k <= ticks)%nat ->
  decisive r ->
  invocations fn w (repeat pending k ++ [r]) w' l ->
  WaitFor ticks fn w = (Return (verdict r), w', l).
Proof.
  revert ticks w l. induction k as [|k IH]; intros ticks w l Hk Hr Hinv; simpl in Hinv.
  - inversion Hinv as [|? ? w0 l0 ? ? l2 Hfn Hrest]; subst.
    inversion Hrest; subst. rewrite app_nil_r.
    rewrite WaitFor_eq, Hfn.
    destruct r as [[] [e|]]; try reflexivity. exfalso; apply Hr; reflexivity.
  - inversion Hinv as [|? ? w0 l0 ? ? l2 Hfn Hrest]; subst.
    destruct ticks as [|ticks]; [lia|].
    rewrite WaitFor_eq, Hfn. simpl.
    rewrite (IH ticks w0 l2); [reflexivity | lia | assumption ..].
Qed.

(** When every invocation answers [pending], the poll ends with the
    timeout on the closing invocation, the one after the last tick. *)
Lemma WaitFor_timeout ticks : forall fn w w' l,
  invocations fn w (repeat pending (S ticks)) w' l ->
  WaitFor ticks fn w = (Return (Some ErrWaitTimeout), w', l).
Proof.
  induction ticks as [|ticks IH]; intros fn w w' l Hinv; simpl in Hinv;
    inversion Hinv as [|? ? w0 l0 ? ? l2 Hfn Hrest]; subst;
    rewrite WaitFor_eq, Hfn; simpl.
  - inversion Hrest; subst. rewrite app_nil_r. reflexivity.
  - rewrite (IH fn w0 w' l2 Hrest). reflexivity.
Qed.

Lemma poll_shape_step ticks rs res :
  poll_shape ticks rs res -> poll_shape (S ticks) (pending :: rs) res.
Proof.
  intros [(k & Hk & -> & ->)|[(k & b & e & Hk & -> & ->)|[(-> & ->)|(k & msg & Hk & -> & ->)]]].
  - left. exists (S k). split; [lia | split; reflexivity].
  - right; left. exists (S k), b, e. split; [lia | split; reflexivity].
  - right; right; left. split; reflexivity.
  - right; right; right. exists (S k), msg. split; [lia | split; reflexivity].
Qed.

Lemma poll_shape_first ticks r :
  decisive r -> poll_shape ticks [r] (Return (verdict r)).
Proof.
  intros Hr. destruct r as [[] [e|]]; unfold verdict; simpl.
  - right; left. exists 0%nat, true, e. split; [lia | split; reflexivity].
  - left. exists 0%nat. split; [lia | split; reflexivity].
  - right; left. exists 0%nat, false, e. split; [lia | split; reflexivity].
  - exfalso. apply Hr. reflexivity.
Qed.

(** The instrumented poll runs as the plain one, and its history has
    one of the four shapes. *)
Lemma WaitFor_recording ticks : forall fn w h,
  exists rs res w' l,
    WaitFor ticks (recording fn) (w, h) = (res, (w', h ++ rs), l)
    /\ WaitFor ticks fn w = (res, w', l)
    /\ poll_shape ticks rs res.
Proof.
  assert (Hdec : forall t (r : bool * option error) (w1 : W) (l1 : list Request)
                        (h : list (bool * option error)),
             decisive r ->
             exists rs res w' l,
               (Return (verdict r), (w1, h ++ [r]), l1) = (res, (w', h ++ rs), l)
               /\ (Return (verdict r), w1, l1) = (res, w', l)
               /\ poll_shape t rs res).
  { intros t r w1 l1 h Hr. exists [r], (Return (verdict r)), w1, l1.
    split; [reflexivity|split; [reflexivity|apply poll_shape_first; assumption]]. }
  assert (Hpanic : forall t msg (w1 : W) (l1 : list Request)
                          (h : list (bool * option error)),
             exists rs res w' l,
               (@Panic (option error) msg, (w1, h), l1) = (res, (w', h ++ rs), l)
               /\ (@Panic (option error) msg, w1, l1) = (res, w', l)
               /\ poll_shape t rs res).
  { intros t msg w1 l1 h. exists [], (Panic msg), w1, l1. rewrite app_nil_r.
    split; [reflexivity|split; [reflexivity|]].
    right; right; right. exists 0%nat, msg. split; [lia | split; reflexivity]. }
  induction ticks as [|ticks IH]; intros fn w h;
    rewrite (WaitFor_eq _ (recording fn)), (WaitFor_eq _ fn);
    unfold recording at 1; simpl;
    destruct (fn w) as [[[[[] [e|]]|msg] w1] l1]; simpl;
    try (apply Hpanic);
    try (apply (Hdec _ (true, Some e)); discriminate);
    try (apply (Hdec _ (true, None)); discriminate);
    try (apply (Hdec _ (false, Some e)); discriminate).
  - exists [pending], (Return (Some ErrWaitTimeout)), w1, l1.
    split; [reflexivity|split; [reflexivity|]].
    right; right; left. split; reflexivity.
  - destruct (IH fn w1 (h ++ [pending])) as (rs & res & w' & l & Hrec & Hplain & Hshape).
    unfold pending in Hrec. rewrite Hrec, Hplain.
    exists (pending :: rs), res, w', (l1 ++ l).
    split; [rewrite <- app_assoc; reflexivity|split; [reflexivity|]].
    apply poll_shape_step; assumption.
Qed.

(** With a positive interval, the closing invocation brings the number
    of invocations of an undecided poll to at least [timeout / interval]. *)
Lemma delivered_bound interval timeout at_deadline :
  0 < interval ->
  0 < timeout ->
  timeout / interval <= Z.of_nat (S (delivered interval timeout at_deadline)).
Proof.
  intros HI HT. unfold delivered.
  assert (Hq : 0 <= timeout / interval) by (apply Z.div_pos; lia).
  assert (Hlow : timeout / interval - 1 <= (timeout - 1) / interval).
  { apply Z.div_le_lower_bound; [lia|].
    pose proof (Z.mul_div_le timeout interval HI). nia. }
  assert (Hq' : 0 <= (timeout - 1) / interval) by (apply Z.div_pos; lia).
  destruct at_deadline; rewrite Nat2Z.inj_succ, Z2Nat.id; lia.
Qed.

(** [k] ticks fall strictly before the deadline when [k * interval]
    does. *)
Lemma delivered_enough k interval timeout at_deadline :
  0 < interval ->
  Z.of_nat k * interval < timeout ->
  (k <= delivered interval timeout at_deadline)%nat.
Proof.
  intros HI Hk. unfold delivered.
  assert (Hlow : Z.of_nat k <= (timeout - 1) / interval).
  { apply Z.div_le_lower_bound; lia. }
  assert (Hmono : (timeout - 1) / interval <= timeout / interval).
  { apply Z.div_le_mono; lia. }
  destruct at_deadline; lia.
Qed.

End PollFacts.

(** A poll over a condition that cannot panic returns. *)
Lemma WaitFor_returns {W} (fn : ConditionFunc W) :
  (forall w, exists r w' l, fn w = (Return r, w', l)) ->
  forall ticks w, exists res w' l, WaitFor ticks fn w = (Return res, w', l).
Proof.
  intros Hfn. induction ticks as [|ticks IH]; intros w; rewrite WaitFor_eq;
    destruct (Hfn w) as ([[] [e|]] & w1 & l1 & ->); eauto.
  destruct (IH w1) as (res & w' & l & ->). eauto.
Qed.

(** C2. For every condition, interval I and timeout T with I < T, the
    poll ends in one of these ways, where the history is the sequence of
    answers of the invocations it made: with success, on the first answer
    "settled" (every earlier answer being "not settled, no error"); with
    the condition's error, on the first answer that carries an error; or
    with the timeout error, after at least T/I invocations that all
    answered "not settled, no error".  In each case the history ends with
    the deciding answer: no invocation follows it.  The poll panics only
    when its interval is not positive or when the condition panics. *)
Theorem Poll_contract {W} (at_deadline : W -> bool) (interval timeout : Duration)
    (fn : ConditionFunc W) (w : W) :
  interval < timeout ->
  exists h res w' l,
    Poll (fun s => at_deadline (fst s)) interval timeout (recording fn) (w, [])
      = (res, (w', h), l)
    /\ Poll at_deadline interval timeout fn w = (res, w', l)
    /\ ( (exists k, h = repeat pending k ++ [(true, None)] /\ res = Return None)
       \/ (exists k b e, h = repeat pending k ++ [(b, Some e)] /\ res = Return (Some e))
       \/ (h = repeat pending (List.length h)
           /\ res = Return (Some ErrWaitTimeout)
           /\ timeout / interval <= Z.of_nat (List.length h))
       \/ (exists k msg, h = repeat pending k /\ res = Panic msg) )
    /\ (0 < interval ->
        (forall w0, exists r w1 l1, fn w0 = (Return r, w1, l1)) ->
        exists r, res = Return r).
Proof.
  intros HT. unfold Poll. simpl.
  destruct (Z.leb_spec interval 0) as [Hle|HI].
  - exists [], (Panic "non-positive interval for NewTicker"), w, [].
    split; [reflexivity|]. split; [reflexivity|]. split.
    + right; right; right. exists 0%nat, "non-positive interval for NewTicker".
      split; reflexivity.
    + intros HI. lia.
  - set (ticks := delivered interval timeout (at_deadline w)).
    destruct (WaitFor_recording ticks fn w []) as (rs & res & w' & l & Hrec & Hplain & Hshape).
    simpl in Hrec. exists rs, res, w', l.
    split; [assumption|split; [assumption|]]. split.
    + destruct Hshape as [(k & _ & -> & ->)|[(k & b & e & _ & -> & ->)|[(-> & ->)|(k & msg & _ & -> & ->)]]].
      * left. exists k. split; reflexivity.
      * right; left. exists k, b, e. split; reflexivity.
      * right; right; left. rewrite repeat_length.
        split; [reflexivity|split; [reflexivity|]].
        apply delivered_bound; lia.
      * right; right; right. exists k, msg. split; reflexivity.
    + intros _ Hfn. destruct (WaitFor_returns fn Hfn ticks w) as (r & w0 & l0 & Hrun).
      rewrite Hrun in Hplain. inversion Hplain. exists r. reflexivity.
Qed.

Lemma Poll_contract_witness :
  exists h res w' l,
    Poll (fun s : nat * _ => false) (5 * time_Second) (60 * time_Second)
         (recording never_settles) (0%nat, []) = (res, (w', h), l)
    /\ Poll (fun _ => false) (5 * time_Second) (60 * time_Second) never_settles 0%nat
       = (res, w', l)
    /\ ( (exists k, h = repeat pending k ++ [(true, None)] /\ res = Return None)
       \/ (exists k b e, h = repeat pending k ++ [(b, Some e)] /\ res = Return (Some e))
       \/ (h = repeat pending (List.length h)
           /\ res = Return (Some ErrWaitTimeout)
           /\ (60 * time_Second) / (5 * time_Second) <= Z.of_nat (List.length h))
       \/ (exists k msg, h = repeat pending k /\ res = Panic msg) )
    /\ (0 < 5 * time_Second ->
        (forall w0, exists r w1 l1, never_settles w0 = (Return r, w1, l1)) ->
        exists r, res = Return r).
Proof.
  exact (Poll_contract (fun _ => false) (5 * time_Second) (60 * time_Second)
           never_settles 0%nat eq_refl).
Defined.

(** The poll of the witness: twelve invocations, then the timeout. *)
Example Poll_never_settles :
  Poll (fun s : nat * _ => false) (5 * time_Second) (60 * time_Second)
       (recording never_settles) (0%nat, [])
  = (Return (Some ErrWaitTimeout), (12%nat, repeat pending 12), []).
Proof. vm_compute. reflexivity. Qed.

(** C3. The conditions of updatePorts and of ProvideNode report a
    conflict (409) answer of the remote side as "not settled, no error";
    and for every k with k * I < T (and 0 < I), a condition that answers
    "not settled, no error" on its first k invocations and "settled" on
    the next one makes the poll return success, in the state and with the
    requests of these k + 1 invocations. *)
Theorem conflict_never_aborts {W} (B : Backend W) :
  (forall opts p w Actual w1,
      ports_Update B (ports.UUID p) opts w = (Some (ErrDefault409 Actual), w1) ->
      updatePorts_cf B opts p w = (Return pending, w1, [PortsUpdate (ports.UUID p) opts]))
  /\ (forall n tp w Actual w1,
      nodes_ChangeProvisionState B (model.UUID n) tp w = (Some (ErrDefault409 Actual), w1) ->
      ProvideNode_cf B n tp w
      = (Return pending, w1, [NodesChangeProvisionState (model.UUID n) tp]))
  /\ (forall (interval timeout : Duration) (fn : ConditionFunc W) (k : nat) w w' l,
      0 < interval ->
      Z.of_nat k * interval < timeout ->
      invocations fn w (repeat pending k ++ [(true, None)]) w' l ->
      Poll (deadline_tick B) interval timeout fn w = (Return None, w', l)).
Proof.
  split; [|split].
  - intros opts p w Actual w1 H. unfold updatePorts_cf, bind, call. rewrite H. reflexivity.
  - intros n tp w Actual w1 H. unfold ProvideNode_cf, bind, call. rewrite H. reflexivity.
  - intros interval timeout fn k w w' l HI Hk Hinv. unfold Poll.
    destruct (Z.leb_spec interval 0) as [Hle|_]; [lia|].
    apply (WaitFor_decided k _ fn w (true, None)).
    + apply delivered_enough; assumption.
    + discriminate.
    + assumption.
Qed.

Lemma conflict_never_aborts_witness :
  Poll (deadline_tick (locked_remote 2 0 false)) (5 * time_Second) (30 * time_Second)
       (ProvideNode_cf (locked_remote 2 0 false) node0 nodes.TargetManage) 0%nat
  = (Return None, 3%nat,
     [NodesChangeProvisionState "uuid-1" nodes.TargetManage;
      NodesChangeProvisionState "uuid-1" nodes.TargetManage;
      NodesChangeProvisionState "uuid-1" nodes.TargetManage]).
Proof.
  refine (proj2 (proj2 (conflict_never_aborts (locked_remote 2 0 false)))
            (5 * time_Second) (30 * time_Second) _ 2%nat 0%nat 3%nat _ eq_refl eq_refl _).
  refine (invocations_cons (w1 := 1%nat) (l1 := [_]) 0%nat eq_refl _).
  refine (invocations_cons (w1 := 2%nat) (l1 := [_]) 1%nat eq_refl _).
  refine (invocations_cons (w1 := 3%nat) (l1 := [_]) (l2 := []) 2%nat eq_refl _).
  apply invocations_nil.
Defined.

(** ** The nearest-fit matcher *)

Section MatcherFacts.

Variable D : Type.
Variable gt : D -> D -> bool.
Variable cd : Z -> Z -> D.

Local Abbreviation visit' := (visit gt cd).
Local Abbreviation range' := (range gt cd).
Local Abbreviation passes' := (passes gt cd).
Local Abbreviation dram' := (dram cd).
Local Abbreviation ddisk' := (ddisk cd).
Local Abbreviation dcpu' := (dcpu cd).

(** One candidate: RAM first, then disk, then CPU; the first delta that
    exceeds its running best ends the iteration, and the bests compared
    before it keep the candidate's deltas. *)
Lemma visit_cases s f :
  visit' s f =
  if gt (dram' s f) (ram s) then s
  else if gt (ddisk' s f) (disk s) then
    {| ram := dram' s f; disk := disk s; cpu := cpu s; name := name s; n := n s |}
  else if gt (dcpu' s f) (cpu s) then
    {| ram := dram' s f; disk := ddisk' s f; cpu := cpu s; name := name s; n := n s |}
  else
    {| ram := dram' s f; disk := ddisk' s f; cpu := dcpu' s f;
       name := flavors.Name f;
       n := model.set_ResourceClass (n s) (flavors.Name f) |}.
Proof.
  unfold visit, dram, ddisk, dcpu. simpl.
  destruct (gt _ (ram s)); [reflexivity|].
  destruct (gt _ (disk s)); [reflexivity|].
  destruct (gt _ (cpu s)); reflexivity.
Qed.

Lemma visit_rejected s f :
  passes' s f = false ->
  name (visit' s f) = name s /\ n (visit' s f) = n s.
Proof.
  rewrite visit_cases. unfold passes. fold (dram' s f) (ddisk' s f) (dcpu' s f).
  destruct (gt (dram' s f) (ram s)); [split; reflexivity|].
  destruct (gt (ddisk' s f) (disk s)); [split; reflexivity|].
  destruct (gt (dcpu' s f) (cpu s)); [split; reflexivity|].
  discriminate.
Qed.

Lemma visit_accepted s f :
  passes' s f = true ->
  visit' s f =
  {| ram := dram' s f; disk := ddisk' s f; cpu := dcpu' s f;
     name := flavors.Name f;
     n := model.set_ResourceClass (n s) (flavors.Name f) |}.
Proof.
  rewrite visit_cases. unfold passes. fold (dram' s f) (ddisk' s f) (dcpu' s f).
  destruct (gt (dram' s f) (ram s)); [discriminate|].
  destruct (gt (ddisk' s f) (disk s)); [discriminate|].
  destruct (gt (dcpu' s f) (cpu s)); [discriminate|].
  reflexivity.
Qed.

Lemma range_app l1 l2 s : range' (l1 ++ l2) s = range' l2 (range' l1 s).
Proof. unfold range. apply fold_left_app. Qed.

(** When no candidate of a list passes, the scan keeps the name and the
    node it had. *)
Lemma range_none_pass : forall post s,
  (forall post1 g post2, post = post1 ++ g :: post2 ->
                         passes' (range' post1 s) g = false) ->
  name (range' post s) = name s /\ n (range' post s) = n s.
Proof.
  induction post as [|g post IH]; intros s Hnone; [split; reflexivity|].
  assert (Hg : passes' s g = false) by (apply (Hnone [] g post); reflexivity).
  destruct (visit_rejected s g Hg) as [Hname Hn].
  change (range' (g :: post) s) with (range' post (visit' s g)).
  destruct (IH (visit' s g)) as [Hname' Hn'].
  - intros post1 g' post2 Heq. apply (Hnone (g :: post1) g' post2).
    rewrite Heq. reflexivity.
  - split; congruence.
Qed.

(** The candidate recorded is the last one that passes. *)
Lemma range_last_pass pre f post s :
  passes' (range' pre s) f = true ->
  (forall post1 g post2, post = post1 ++ g :: post2 ->
                         passes' (range' (pre ++ f :: post1) s) g = false) ->
  name (range' (pre ++ f :: post) s) = flavors.Name f
  /\ model.ResourceClass (n (range' (pre ++ f :: post) s)) = flavors.Name f.
Proof.
  intros Hf Hnone.
  rewrite range_app.
  change (range' (f :: post) (range' pre s))
    with (range' post (visit' (range' pre s) f)).
  destruct (range_none_pass post (visit' (range' pre s) f)) as [Hname Hn].
  - intros post1 g post2 Heq.
    specialize (Hnone post1 g post2 Heq).
    rewrite range_app in Hnone. exact Hnone.
  - rewrite Hname, Hn, (visit_accepted _ _ Hf). split; reflexivity.
Qed.

(** A candidate none of whose deltas exceeds the delta of the candidate
    accepted just before it is accepted in its turn. *)
Lemma visit_no_worse s a b :
  passes' s a = true ->
  gt (dram' s b) (dram' s a) = false ->
  gt (ddisk' s b) (ddisk' s a) = false ->
  gt (dcpu' s b) (dcpu' s a) = false ->
  passes' (visit' s a) b = true.
Proof.
  intros Ha Hr Hd Hc. rewrite (visit_accepted _ _ Ha).
  unfold passes. simpl.
  unfold dram, ddisk, dcpu, measured_ram, measured_disk, measured_cpu in *.
  simpl. rewrite Hr, Hd, Hc. reflexivity.
Qed.

End MatcherFacts.

Lemma float64_gt_of_eq x y : float64_eq x y -> float64_gt y x = false.
Proof.
  destruct x as [a| |], y as [b| |]; simpl; try contradiction; try reflexivity.
  intros Heq. apply negb_false_iff. apply Qle_bool_iff. rewrite Heq. apply Qle_refl.
Qed.

(** The node of a page scan keeps its inventory. *)
Lemma matchPage_inventory fs name0 nd :
  model.InspectionData (n (matchPage fs name0 nd)) = model.InspectionData nd.
Proof.
  unfold matchPage, range.
  assert (H : forall s, model.InspectionData (n (fold_left (visit float64_gt calcDelta) fs s))
                        = model.InspectionData (n s)).
  { induction fs as [|f fs IH]; intros s; [reflexivity|]. simpl. rewrite IH.
    rewrite visit_cases.
    destruct (float64_gt _ (ram s)); [reflexivity|].
    destruct (float64_gt _ (disk s)); [reflexivity|].
    destruct (float64_gt _ (cpu s)); reflexivity. }
  apply H.
Qed.

(** Of two adjacent candidates that are equally good, the first of which
    passes, the second is the one recorded. *)
Lemma matchPage_tie pre a b name0 nd :
  passes float64_gt calcDelta (matchPage pre name0 nd) a = true ->
  equally_good nd a b ->
  name (matchPage (pre ++ [a; b]) name0 nd) = flavors.Name b
  /\ model.ResourceClass (n (matchPage (pre ++ [a; b]) name0 nd)) = flavors.Name b.
Proof.
  intros Ha (Hr & Hd & Hc). unfold matchPage.
  change (pre ++ [a; b]) with (pre ++ [a] ++ b :: []).
  rewrite app_assoc.
  apply range_last_pass.
  - rewrite range_app.
    change (range float64_gt calcDelta [a] ?s) with (visit float64_gt calcDelta s a).
    pose proof (matchPage_inventory pre name0 nd) as Hinv. unfold matchPage in Hinv.
    apply visit_no_worse; [exact Ha| | |];
      unfold dram, ddisk, dcpu, measured_ram, measured_disk, measured_cpu;
      rewrite Hinv; apply float64_gt_of_eq; assumption.
  - intros post1 g post2 Heq. destruct post1; discriminate.
Qed.

(** C1 (amended). For every list of candidates and every measured
    inventory, the page scan of the matcher starts from the bests 10%,
    20%, 10% and visits the candidates in order; for each it compares the
    RAM delta, then the disk delta, then the CPU delta with the running
    best, and the first delta that exceeds its best rejects the candidate
    (the bests compared before keep the candidate's deltas); a candidate
    that passes all three becomes the recorded name and the node's
    resource class, so the result is the last candidate that passes, and
    the name and the node are unchanged when none passes.  Of two adjacent
    equally good candidates, the first of which passes, the later one is
    recorded.  [getMatchingFlavorFor] returns the scan of the first page
    of the listing.  For the measured inventory (64000, 500, 16) and the
    candidates A (65000, 520, 16), B (64500, 510, 16) the result is B. *)
Theorem nearest_fit_scan {W} (B : Backend W) (nd : model.IronicNode) (name0 : string) :
  (ram (matchPage [] name0 nd) = Finite (1 # 10)
   /\ disk (matchPage [] name0 nd) = Finite (2 # 10)
   /\ cpu (matchPage [] name0 nd) = Finite (1 # 10))
  /\ (forall fs f,
        matchPage (fs ++ [f]) name0 nd
        = visit float64_gt calcDelta (matchPage fs name0 nd) f)
  /\ (forall s f,
        visit float64_gt calcDelta s f =
        if float64_gt (dram calcDelta s f) (ram s) then s
        else if float64_gt (ddisk calcDelta s f) (disk s) then
          {| ram := dram calcDelta s f; disk := disk s; cpu := cpu s;
             name := name s; n := n s |}
        else if float64_gt (dcpu calcDelta s f) (cpu s) then
          {| ram := dram calcDelta s f; disk := ddisk calcDelta s f; cpu := cpu s;
             name := name s; n := n s |}
        else
          {| ram := dram calcDelta s f; disk := ddisk calcDelta s f;
             cpu := dcpu calcDelta s f;
             name := flavors.Name f;
             n := model.set_ResourceClass (n s) (flavors.Name f) |})
  /\ (forall pre f post,
        passes float64_gt calcDelta (matchPage pre name0 nd) f = true ->
        (forall post1 g post2, post = post1 ++ g :: post2 ->
           passes float64_gt calcDelta (matchPage (pre ++ f :: post1) name0 nd) g = false) ->
        name (matchPage (pre ++ f :: post) name0 nd) = flavors.Name f
        /\ model.ResourceClass (n (matchPage (pre ++ f :: post) name0 nd)) = flavors.Name f)
  /\ (forall fs,
        (forall pre g post, fs = pre ++ g :: post ->
           passes float64_gt calcDelta (matchPage pre name0 nd) g = false) ->
        name (matchPage fs name0 nd) = name0 /\ n (matchPage fs name0 nd) = nd)
  /\ (forall pre a b,
        passes float64_gt calcDelta (matchPage pre name0 nd) a = true ->
        equally_good nd a b ->
        name (matchPage (pre ++ [a; b]) name0 nd) = flavors.Name b
        /\ model.ResourceClass (n (matchPage (pre ++ [a; b]) name0 nd)) = flavors.Name b)
  /\ (forall f fs rest w w1,
        flavors_ListDetail B w = (Pages (Ok (f :: fs) :: rest), w1) ->
        getMatchingFlavorFor B nd w
        = (Return (n (matchPage (f :: fs) "" nd), name (matchPage (f :: fs) "" nd), None),
           w1, [FlavorsListDetail]))
  /\ name (matchPage [flavor_A; flavor_B] "" node0) = "B".
Proof.
  split; [repeat split|].
  split; [intros fs f; unfold matchPage; rewrite range_app; reflexivity|].
  split; [intros s f; apply visit_cases|].
  split; [intros pre f post; unfold matchPage; apply range_last_pass|].
  split; [intros fs Hnone; unfold matchPage;
          apply (range_none_pass _ float64_gt calcDelta fs (page_start name0 nd)); exact Hnone|].
  split; [intros pre a b; apply matchPage_tie|].
  split; [|vm_compute; reflexivity].
  intros f fs rest w w1 H.
  unfold getMatchingFlavorFor, bind, call. rewrite H. reflexivity.
Qed.

Lemma nearest_fit_scan_witness :
  name (matchPage ([] ++ [flavor_A; flavor_A2]) "" node0) = flavors.Name flavor_A2
  /\ model.ResourceClass (n (matchPage ([] ++ [flavor_A; flavor_A2]) "" node0))
     = flavors.Name flavor_A2.
Proof.
  destruct (nearest_fit_scan (locked_remote 0 0 false) node0 "")
    as (_ & _ & _ & _ & _ & Htie & _).
  apply Htie.
  - vm_compute. reflexivity.
  - vm_compute. repeat split; reflexivity.
Defined.

(** The claim of C1 on ties fails: [flavor_A] and [flavor_A2] are equally
    good and [flavor_A2] is the later one, but [flavor_C] between them
    lowers the RAM best before the disk comparison rejects it, after
    which [flavor_A2] is rejected on RAM: the earlier one is recorded. *)
Lemma later_tie_not_selected :
  equally_good node0 flavor_A flavor_A2
  /\ name (matchPage [flavor_A; flavor_C; flavor_A2] "" node0) = flavors.Name flavor_A
  /\ model.ResourceClass (n (matchPage [flavor_A; flavor_C; flavor_A2] "" node0))
     = flavors.Name flavor_A
  /\ flavors.Name flavor_A <> flavors.Name flavor_A2.
Proof.
  split; [vm_compute; repeat split; reflexivity|].
  split; [vm_compute; reflexivity|].
  split; [vm_compute; reflexivity|].
  discriminate.
Qed.

(** ** DNS registration *)

(** [strings.Split] gives at least one piece. *)
Lemma strings_Split_length s sep : (1 <= List.length (strings_Split s sep))%nat.
Proof.
  induction s as [|c s IH]; simpl; [lia|].
  destruct (Ascii.eqb c sep); simpl; [lia|].
  destruct (strings_Split s sep); simpl in *; lia.
Qed.

(** It gives a second piece exactly when the separator occurs. *)
Lemma strings_Split_second s sep :
  strings_Contains s sep = true <-> (2 <= List.length (strings_Split s sep))%nat.
Proof.
  induction s as [|c s IH]; simpl.
  - split; [discriminate|lia].
  - pose proof (strings_Split_length s sep) as Hlen.
    destruct (Ascii.eqb c sep); simpl.
    + split; [lia|reflexivity].
    + destruct (strings_Split s sep) as [|piece pieces]; simpl in *; [lia|].
      exact IH.
Qed.

Lemma strings_Split_hyphen s :
  strings_Contains s "-" = true ->
  exists na0 na1 rest, strings_Split s "-" = na0 :: na1 :: rest.
Proof.
  intros H. apply strings_Split_second in H.
  destruct (strings_Split s "-") as [|na0 [|na1 rest]]; simpl in H; try lia.
  exists na0, na1, rest. reflexivity.
Qed.

Lemma strings_Split_no_hyphen s :
  strings_Contains s "-" = false ->
  exists na0, strings_Split s "-" = [na0].
Proof.
  intros H. pose proof (strings_Split_length s "-") as Hlen.
  pose proof (strings_Split_second s "-") as Hsec.
  destruct (strings_Split s "-") as [|na0 [|na1 rest]]; simpl in *; try lia.
  - exists na0. reflexivity.
  - rewrite H in Hsec. destruct Hsec as [_ Hsec]. discriminate Hsec. lia.
Qed.

(** The run of [CreateDNSRecordFor] that reaches the creation. *)
Lemma CreateDNSRecordFor_creates {W} (B : Backend W) domain n w z zs w1 na0 na1 rest err w2 :
  zones_List B (domain ++ ".") w = (Ok (Ok (z :: zs)), w1) ->
  strings_Split (model.Name n) "-" = na0 :: na1 :: rest ->
  recordsets_Create B (zones.ID z) (createOpts_of domain na0 na1 n) w1 = (err, w2) ->
  CreateDNSRecordFor B domain n w
  = (Return (model.set_Host n (recordName_of domain na0 na1), dns_verdict err), w2,
     [ZonesList (domain ++ "."); RecordsetsCreate (zones.ID z) (createOpts_of domain na0 na1 n)]).
Proof.
  intros Hz Hs Hc. unfold CreateDNSRecordFor, bind, call. rewrite Hz, Hs.
  unfold createOpts_of, recordName_of in *. simpl in *. rewrite Hc.
  destruct err as [[a| | | |]|]; simpl; try reflexivity.
  destruct (a =? 409); reflexivity.
Qed.

(** C4. For every node, when the run of the DNS registration reaches the
    record creation, the step returns no error if the creation succeeds or
    is answered with "already exists" (a 409 conflict), and returns the
    creation's error in every other case; it also fails when the zones
    cannot be listed.  Hence registering a node a second time, when the
    second creation is answered with "already exists", gives no error
    either time. *)
Theorem DNS_registration_idempotent {W} (B : Backend W) (domain : string)
    (n : model.IronicNode) (w : W) :
  (forall e w1,
      zones_List B (domain ++ ".") w = (Err e, w1) ->
      CreateDNSRecordFor B domain n w
      = (Return (n, Some e), w1, [ZonesList (domain ++ ".")]))
  /\ (forall z zs w1 na0 na1 rest err w2,
        zones_List B (domain ++ ".") w = (Ok (Ok (z :: zs)), w1) ->
        strings_Split (model.Name n) "-" = na0 :: na1 :: rest ->
        recordsets_Create B (zones.ID z) (createOpts_of domain na0 na1 n) w1 = (err, w2) ->
        let n' := model.set_Host n (recordName_of domain na0 na1) in
        let log := [ZonesList (domain ++ ".");
                    RecordsetsCreate (zones.ID z) (createOpts_of domain na0 na1 n)] in
        (err = Some (ErrDefault409 409) ->
         CreateDNSRecordFor B domain n w = (Return (n', None), w2, log))
        /\ (err = None ->
            CreateDNSRecordFor B domain n w = (Return (n', None), w2, log))
        /\ (forall e, err = Some e -> e <> ErrDefault409 409 ->
            CreateDNSRecordFor B domain n w = (Return (n', Some e), w2, log)))
  /\ (forall z zs w1 na0 na1 rest w2 z' zs' w3 w4,
        zones_List B (domain ++ ".") w = (Ok (Ok (z :: zs)), w1) ->
        strings_Split (model.Name n) "-" = na0 :: na1 :: rest ->
        recordsets_Create B (zones.ID z) (createOpts_of domain na0 na1 n) w1 = (None, w2) ->
        zones_List B (domain ++ ".") w2 = (Ok (Ok (z' :: zs')), w3) ->
        recordsets_Create B (zones.ID z') (createOpts_of domain na0 na1 n) w3
          = (Some (ErrDefault409 409), w4) ->
        (r1 <- CreateDNSRecordFor B domain n ;;
         r2 <- CreateDNSRecordFor B domain (fst r1) ;;
         ret (snd r1, snd r2)) w
        = (Return (None, None), w4,
           [ZonesList (domain ++ ".");
            RecordsetsCreate (zones.ID z) (createOpts_of domain na0 na1 n);
            ZonesList (domain ++ ".");
            RecordsetsCreate (zones.ID z') (createOpts_of domain na0 na1 n)])).
Proof.
  split; [|split].
  - intros e w1 Hz. unfold CreateDNSRecordFor, bind, call. rewrite Hz. reflexivity.
  - intros z zs w1 na0 na1 rest err w2 Hz Hs Hc n' log.
    pose proof (CreateDNSRecordFor_creates B domain n w z zs w1 na0 na1 rest err w2 Hz Hs Hc)
      as Hrun.
    split; [|split].
    + intros ->. exact Hrun.
    + intros ->. exact Hrun.
    + intros e -> Hne. rewrite Hrun. unfold dns_verdict.
      destruct e as [a| | | |]; try reflexivity.
      destruct (Z.eqb_spec a 409) as [->|_]; [exfalso; apply Hne; reflexivity|reflexivity].
  - intros z zs w1 na0 na1 rest w2 z' zs' w3 w4 Hz Hs Hc Hz' Hc'.
    pose proof (CreateDNSRecordFor_creates B domain n w z zs w1 na0 na1 rest None w2 Hz Hs Hc)
      as Hrun1.
    pose proof (CreateDNSRecordFor_creates B domain
                  (model.set_Host n (recordName_of domain na0 na1)) w2 z' zs' w3
                  na0 na1 rest (Some (ErrDefault409 409)) w4 Hz' Hs Hc') as Hrun2.
    unfold bind at 1. rewrite Hrun1. unfold bind at 1. simpl fst. rewrite Hrun2.
    reflexivity.
Qed.

Lemma DNS_registration_idempotent_witness :
  (r1 <- CreateDNSRecordFor dns_remote "example.org" node0 ;;
   r2 <- CreateDNSRecordFor dns_remote "example.org" (fst r1) ;;
   ret (snd r1, snd r2)) []
  = (Return (None, None), ["node001r-bb12.example.org."],
     [ZonesList "example.org.";
      RecordsetsCreate "zone-1" (createOpts_of "example.org" "node001" "bb12" node0);
      ZonesList "example.org.";
      RecordsetsCreate "zone-1" (createOpts_of "example.org" "node001" "bb12" node0)]).
Proof.
  exact (proj2 (proj2 (DNS_registration_idempotent dns_remote "example.org" node0 []))
           {| zones.ID := "zone-1" |} [] [] "node001" "bb12" []
           ["node001r-bb12.example.org."]
           {| zones.ID := "zone-1" |} [] ["node001r-bb12.example.org."]
           ["node001r-bb12.example.org."]
           eq_refl eq_refl eq_refl eq_refl eq_refl).
Defined.

(** ** Node names without a hyphen *)

Lemma updateNode_returns {W} (B : Backend W) opts n w :
  exists res w' l, updateNode B opts n w = (Return res, w', l).
Proof.
  unfold updateNode, Poll.
  change (5 * time_Second <=? 0) with false. cbv iota.
  apply WaitFor_returns. intros w0. unfold updateNode_cf, bind, call.
  destruct (nodes_Update B (model.UUID n) opts w0) as [[e|] w1]; simpl; eauto.
Qed.

(** C10. [strings.Split] always gives at least one piece, so the guard
    [len(na) < 1] of the DNS registration is never true.  For every node
    whose name contains a hyphen, the DNS registration and the Prepared
    step return (they do not panic).  For every node whose name contains
    no hyphen, the Prepared step panics on the index [1], and so does the
    DNS registration whenever the listing gives it a zone: the name
    without a hyphen is not turned into an error. *)
Theorem second_name_component_unguarded {W} (B : Backend W) (domain : string)
    (n : model.IronicNode) (w : W) :
  (List.length (strings_Split (model.Name n) "-") <? 1)%nat = false
  /\ (strings_Contains (model.Name n) "-" = true ->
      (exists r w' l, CreateDNSRecordFor B domain n w = (Return r, w', l))
      /\ (exists r w' l, PrepareNode B n w = (Return r, w', l)))
  /\ (strings_Contains (model.Name n) "-" = false ->
      PrepareNode B n w = (Panic "index out of range", w, [])
      /\ (forall z zs w1,
            zones_List B (domain ++ ".") w = (Ok (Ok (z :: zs)), w1) ->
            CreateDNSRecordFor B domain n w
            = (Panic "index out of range", w1, [ZonesList (domain ++ ".")]))).
Proof.
  split; [|split].
  - pose proof (strings_Split_length (model.Name n) "-") as Hlen.
    apply Nat.ltb_ge. exact Hlen.
  - intros Hc. destruct (strings_Split_hyphen _ Hc) as (na0 & na1 & rest & Hs). split.
    + destruct (zones_List B (domain ++ ".") w) as [[[zs0|e']|e] w1] eqn:Hz.
      * destruct zs0 as [|z zs].
        -- unfold CreateDNSRecordFor, bind, call. rewrite Hz. do 3 eexists; reflexivity.
        -- destruct (recordsets_Create B (zones.ID z) (createOpts_of domain na0 na1 n) w1)
             as [err w2] eqn:Hcr.
           rewrite (CreateDNSRecordFor_creates B domain n w z zs w1 na0 na1 rest err w2 Hz Hs Hcr).
           do 3 eexists; reflexivity.
      * unfold CreateDNSRecordFor, bind, call. rewrite Hz. do 3 eexists; reflexivity.
      * unfold CreateDNSRecordFor, bind, call. rewrite Hz. do 3 eexists; reflexivity.
    + unfold PrepareNode. rewrite Hs. simpl. apply updateNode_returns.
  - intros Hc. destruct (strings_Split_no_hyphen _ Hc) as (na0 & Hs). split.
    + unfold PrepareNode. rewrite Hs. reflexivity.
    + intros z zs w1 Hz. unfold CreateDNSRecordFor, bind, call. rewrite Hz, Hs. reflexivity.
Qed.

Lemma second_name_component_unguarded_witness :
  ((exists r w' l, CreateDNSRecordFor dns_remote "example.org" node0 [] = (Return r, w', l))
   /\ (exists r w' l, PrepareNode dns_remote node0 [] = (Return r, w', l)))
  /\ (PrepareNode dns_remote node_without_hyphen [] = (Panic "index out of range", [], [])
      /\ CreateDNSRecordFor dns_remote "example.org" node_without_hyphen []
         = (Panic "index out of range", [], [ZonesList "example.org."])).
Proof.
  split.
  - exact (proj1 (proj2 (second_name_component_unguarded dns_remote "example.org" node0 []))
             eq_refl).
  - destruct (proj2 (proj2 (second_name_component_unguarded dns_remote "example.org"
                              node_without_hyphen [])) eq_refl) as [Hprep Hdns].
    split; [exact Hprep|].
    exact (Hdns {| zones.ID := "zone-1" |} [] [] eq_refl).
Defined.

(** ** Validation *)

(** A reason without ['%'] is rendered as it is. *)
Lemma fmt_Sprintf_plain s :
  strings_Contains s "%" = false -> fmt_Sprintf s = Some s.
Proof.
  induction s as [|c s IH]; simpl; [reflexivity|].
  destruct (Ascii.eqb c "%"); simpl; [discriminate|].
  intros H. rewrite (IH H). reflexivity.
Qed.

(** The step fails with the error built from the reason of the first
    negative sub-result, and succeeds when there is none. *)
Lemma ValidateNode_first_failing {W} (B : Backend W) n w v w1 :
  nodes_Validate B (model.UUID n) w = (Ok v, w1) ->
  ValidateNode B n w
  = (Return (option_map (fun d => fmt_Errorf (nodes.Reason d))
                        (find (fun d => negb (nodes.Result d)) (sub_results v))),
     w1, [NodesValidate (model.UUID n)]).
Proof.
  intros H. unfold ValidateNode, bind, call. rewrite H. unfold sub_results. simpl.
  destruct (nodes.Result (nodes.Inspect v)); simpl; [|reflexivity].
  destruct (nodes.Result (nodes.Power v)); simpl; [|reflexivity].
  destruct (nodes.Result (nodes.Management v)); simpl; [|reflexivity].
  destruct (nodes.Result (nodes.Network v)); reflexivity.
Qed.

Lemma ValidateNode_succeeds_iff {W} (B : Backend W) n w v w1 :
  nodes_Validate B (model.UUID n) w = (Ok v, w1) ->
  (fst (fst (ValidateNode B n w)) = Return None
   <-> forallb nodes.Result (sub_results v) = true).
Proof.
  intros H. rewrite (ValidateNode_first_failing B n w v w1 H). unfold sub_results. simpl.
  destruct (nodes.Result (nodes.Inspect v)), (nodes.Result (nodes.Power v)),
    (nodes.Result (nodes.Management v)), (nodes.Result (nodes.Network v));
    simpl; split; intros H0; try reflexivity; discriminate.
Qed.

(** When the reason holds no ['%'], the message of the error is the
    reason. *)
Lemma ValidateNode_plain_reason {W} (B : Backend W) n w v w1 d :
  nodes_Validate B (model.UUID n) w = (Ok v, w1) ->
  find (fun d => negb (nodes.Result d)) (sub_results v) = Some d ->
  strings_Contains (nodes.Reason d) "%" = false ->
  exists err, fst (fst (ValidateNode B n w)) = Return (Some err)
              /\ Error err = Some (nodes.Reason d).
Proof.
  intros H Hd Hplain. rewrite (ValidateNode_first_failing B n w v w1 H), Hd. simpl.
  exists (fmt_Errorf (nodes.Reason d)). split; [reflexivity|].
  simpl. apply fmt_Sprintf_plain. exact Hplain.
Qed.

(** C5 (failing input). The inspection sub-result is negative with the
    reason "hi%d": [ValidateNode] passes the reason to [fmt.Errorf] as the
    format, so the message of the error it returns is "hi%!d(MISSING)",
    not the reason. *)
Theorem ValidateNode_reason_as_format :
  ValidateNode (validating_remote validation_with_verb) node0 0%nat
  = (Return (Some (fmt_Errorf "hi%d")), 1%nat, [NodesValidate "uuid-1"])
  /\ Error (fmt_Errorf "hi%d") = Some "hi%!d(MISSING)"
  /\ Error (fmt_Errorf "hi%d")
     <> Some (nodes.Reason (nodes.Inspect validation_with_verb)).
Proof.
  split; [reflexivity|]. split; [reflexivity|]. discriminate.
Qed.

(** ** Teardown of the test instance *)

(** C6 (amended). For every node and every answer of the remote side,
    the teardown of the test instance returns the node as it got it: no
    field of the node is modified, the workload identifier and the
    workload address included. *)
Theorem DeleteTestInstance_keeps_node {W} (B : Backend W) (n : model.IronicNode) (w : W) :
  exists err w' l, DeleteTestInstance B n w = (Return (n, err), w', l).
Proof.
  unfold DeleteTestInstance, bind, call.
  destruct (servers_ForceDelete B (model.InstanceUUID n) w) as [[e|] w1].
  - do 3 eexists. reflexivity.
  - destruct (servers_WaitForStatus B (model.InstanceUUID n) "DELETED" 60 w1) as [err w2].
    do 3 eexists. reflexivity.
Qed.

(** The claim of C6 fails: after a teardown that succeeds, the workload
    identifier and the workload address of the node are still set. *)
Lemma teardown_leaves_workload_fields :
  exists n',
    DeleteTestInstance (validating_remote no_validation) node_with_instance 0%nat
    = (Return (n', None), 2%nat,
       [ServersForceDelete "instance-1"; ServersWaitForStatus "instance-1" "DELETED" 60])
    /\ model.InstanceUUID n' = "instance-1"
    /\ model.InstanceIPv4 n' = "10.0.1.9"
    /\ model.InstanceUUID n' <> ""
    /\ model.InstanceIPv4 n' <> "".
Proof.
  exists node_with_instance.
  split; [reflexivity|]. split; [reflexivity|]. split; [reflexivity|].
  split; discriminate.
Qed.

(** ** Rule application *)

(** The condition of [updateNode] never reports an error. *)
Lemma updateNode_cf_swallows {W} (B : Backend W) opts n w :
  exists b w1, updateNode_cf B opts n w = (Return (b, None), w1, [NodesUpdate (model.UUID n) opts]).
Proof.
  unfold updateNode_cf, bind, call.
  destruct (nodes_Update B (model.UUID n) opts w) as [[e|] w1]; do 2 eexists; reflexivity.
Qed.

(** The condition of [updatePorts] reports every error but the conflict. *)
Lemma updatePorts_cf_fatal {W} (B : Backend W) opts p w e w1 :
  ports_Update B (ports.UUID p) opts w = (Some e, w1) ->
  (forall Actual, e <> ErrDefault409 Actual) ->
  updatePorts_cf B opts p w = (Return (true, Some e), w1, [PortsUpdate (ports.UUID p) opts]).
Proof.
  intros H Hne. unfold updatePorts_cf, bind, call. rewrite H.
  destruct e as [a| | | |]; try reflexivity. exfalso. apply (Hne a). reflexivity.
Qed.

(** C7 (failing input). The remote side answers every update with the
    error 500.  The port update stops at the first answer with that
    error; the node update is attempted twelve times, until the poll times
    out, and returns the timeout error instead of the error 500; so does
    the rule application on a node without ports. *)
Theorem updateNode_retries_every_error :
  updatePorts (failing_remote (ErrUnexpectedResponseCode 500)) patch_0 node0 0%nat
  = (Return (Some (ErrUnexpectedResponseCode 500)), 2%nat,
     [PortsList "uuid-1"; PortsUpdate "port-1" patch_0])
  /\ updateNode (failing_remote (ErrUnexpectedResponseCode 500)) patch_0 node0 0%nat
     = (Return (Some ErrWaitTimeout), 12%nat, repeat (NodesUpdate "uuid-1" patch_0) 12)
  /\ ApplyRules (node_update_failing_remote (ErrUnexpectedResponseCode 500))
       getRules_0 node0 0%nat
     = (Return (node0, Some ErrWaitTimeout), 13%nat,
        PortsList "uuid-1" :: repeat (NodesUpdate "uuid-1" patch_0) 12).
Proof.
  split; [|split]; vm_compute; reflexivity.
Qed.

(** ** The failure handler *)

(** C8 (failing input). Two failures, each with a node that has a test
    instance, are sent before the cancellation.  The handler receives the
    first, tears its instance down, and returns: the second failure is
    never received and its instance is not torn down.  The looping handler
    of the spec receives both. *)
Theorem initHandler_receives_one_failure :
  provision.initHandler (teardown (validating_remote no_validation)) two_failures 0%nat
  = (Return [provision.Errors_recv failure_2; provision.ctx_Done], 2%nat,
     [ServersForceDelete "instance-1"; ServersWaitForStatus "instance-1" "DELETED" 60])
  /\ provision.loopingHandler (teardown (validating_remote no_validation)) two_failures 0%nat
     = (Return [], 4%nat,
        [ServersForceDelete "instance-1"; ServersWaitForStatus "instance-1" "DELETED" 60;
         ServersForceDelete "instance-2"; ServersWaitForStatus "instance-2" "DELETED" 60]).
Proof.
  split; reflexivity.
Qed.

(** The failure the handler receives is handled as the spec says: the
    instance of its node, if there is one, is torn down, and the error of
    the teardown is dropped. *)
Lemma initHandler_first_failure {W} (DeleteNodeTestDeployment : model.IronicNode -> M W (option error))
    msg node rest w err w1 l :
  model.InstanceUUID node <> "" ->
  DeleteNodeTestDeployment node w = (Return err, w1, l) ->
  provision.initHandler DeleteNodeTestDeployment
    (provision.Errors_recv (provision.SchedulerError msg (Some node)) :: rest) w
  = (Return rest, w1, l).
Proof.
  intros Hne Hdel. simpl.
  destruct (String.eqb_spec (model.InstanceUUID node) "") as [Heq|_]; [contradiction|].
  simpl. unfold bind. rewrite Hdel. simpl. rewrite app_nil_r. reflexivity.
Qed.

(** ** Provisioning *)

(** A poll over a condition that sends one request [req] at each
    invocation and cannot panic: it returns, its log is that request at
    least once and nothing else, and it returns success only from an
    invocation that answered "settled". *)
Lemma WaitFor_single_request {W} (fn : ConditionFunc W) (req : Request) :
  (forall w, exists r w', fn w = (Return r, w', [req])) ->
  forall ticks w,
  exists res w' k,
    WaitFor ticks fn w = (Return res, w', repeat req (S k))
    /\ (res = None -> exists wa, fn wa = (Return (true, None), w', [req])).
Proof.
  intros Hfn. induction ticks as [|ticks IH]; intros w; rewrite WaitFor_eq;
    destruct (Hfn w) as ([[] [e|]] & w1 & Hw); rewrite Hw;
    try (exists (Some e), w1, 0%nat; split; [reflexivity|discriminate]);
    try (exists None, w1, 0%nat; split; [reflexivity|intros _; exists w; exact Hw]).
  - exists (Some ErrWaitTimeout), w1, 0%nat. split; [reflexivity|discriminate].
  - destruct (IH w1) as (res & w' & k & Hrun & Hres). rewrite Hrun.
    exists res, w', (S k). split; [reflexivity|exact Hres].
Qed.

Lemma ProvideNode_cf_request {W} (B : Backend W) n tp w :
  exists r w', ProvideNode_cf B n tp w
               = (Return r, w', [NodesChangeProvisionState (model.UUID n) tp]).
Proof.
  unfold ProvideNode_cf, bind, call.
  destruct (nodes_ChangeProvisionState B (model.UUID n) tp w) as [[[a| | | |]|] w1];
    do 2 eexists; reflexivity.
Qed.

Lemma ProvideNode_cfp_request {W} (B : Backend W) n w :
  exists r w', ProvideNode_cfp B n w = (Return r, w', [NodesGet (model.UUID n)]).
Proof.
  unfold ProvideNode_cfp, bind, call.
  destruct (nodes_Get B (model.UUID n) w) as [[node|e] w1]; simpl.
  - destruct (negb (nodes.ProvisionState node =? "available")%string);
      do 2 eexists; reflexivity.
  - do 2 eexists; reflexivity.
Qed.

(** The condition [cfp] answers "settled" only on a node that the remote
    side reports available. *)
Lemma ProvideNode_cfp_settled {W} (B : Backend W) n wa w' l :
  ProvideNode_cfp B n wa = (Return (true, None), w', l) ->
  exists node, nodes_Get B (model.UUID n) wa = (Ok node, w')
               /\ nodes.ProvisionState node = "available".
Proof.
  unfold ProvideNode_cfp, bind, call.
  destruct (nodes_Get B (model.UUID n) wa) as [[node|e] w1]; simpl; [|discriminate].
  destruct (String.eqb_spec (nodes.ProvisionState node) "available") as [Heq|Hne];
    simpl; intros H; inversion H; subst.
  exists node. split; [reflexivity|exact Heq].
Qed.

(** C9. For every node and every behaviour of the remote side,
    [ProvideNode] returns, and its requests are, in this order: one or
    more "manage" requests, then the "provide" requests, then the reads
    of the node.  A conflict answer to a "manage" or "provide" request is
    reported as "not settled" to the poll, which retries it.  The step
    returns success only when there was a "provide" request and a read
    after it, and the last read showed the provision state "available".
    When the "manage" poll ends with an error (the timeout included), that
    error is returned and no "provide" request and no read is made; when
    the "provide" poll ends with an error, that error is returned and no
    read is made. *)
Theorem ProvideNode_phases {W} (B : Backend W) (n : model.IronicNode) (w : W) :
  let manage := NodesChangeProvisionState (model.UUID n) nodes.TargetManage in
  let provide := NodesChangeProvisionState (model.UUID n) nodes.TargetProvide in
  let get := NodesGet (model.UUID n) in
  let poll := Poll (deadline_tick B) (5 * time_Second) (30 * time_Second) in
  exists res w' km kp kg,
    ProvideNode B n w
    = (Return res, w', repeat manage (S km) ++ repeat provide kp ++ repeat get kg)
    /\ (kp = 0%nat -> kg = 0%nat)
    /\ (forall tp w0 Actual w1,
          nodes_ChangeProvisionState B (model.UUID n) tp w0
          = (Some (ErrDefault409 Actual), w1) ->
          ProvideNode_cf B n tp w0
          = (Return pending, w1, [NodesChangeProvisionState (model.UUID n) tp]))
    /\ (res = None ->
        (1 <= kp)%nat /\ (1 <= kg)%nat
        /\ exists wa node, nodes_Get B (model.UUID n) wa = (Ok node, w')
                           /\ nodes.ProvisionState node = "available")
    /\ (forall e w1 l1,
          poll (ProvideNode_cf B n nodes.TargetManage) w = (Return (Some e), w1, l1) ->
          res = Some e /\ w' = w1 /\ kp = 0%nat /\ kg = 0%nat)
    /\ (forall w1 l1 e w2 l2,
          poll (ProvideNode_cf B n nodes.TargetManage) w = (Return None, w1, l1) ->
          poll (ProvideNode_cf B n nodes.TargetProvide) w1 = (Return (Some e), w2, l2) ->
          res = Some e /\ w' = w2 /\ (1 <= kp)%nat /\ kg = 0%nat).
Proof.
  intros manage provide get poll.
  assert (Hcf : forall tp w0 Actual w1,
             nodes_ChangeProvisionState B (model.UUID n) tp w0
             = (Some (ErrDefault409 Actual), w1) ->
             ProvideNode_cf B n tp w0
             = (Return pending, w1, [NodesChangeProvisionState (model.UUID n) tp])).
  { intros tp w0 a w1 H. unfold ProvideNode_cf, bind, call. rewrite H. reflexivity. }
  assert (Hpoll : forall fn w0, poll fn w0
            = WaitFor (delivered (5 * time_Second) (30 * time_Second) (deadline_tick B w0)) fn w0).
  { intros fn w0. reflexivity. }
  unfold ProvideNode. fold poll.
  destruct (WaitFor_single_request _ manage (ProvideNode_cf_request B n nodes.TargetManage)
              (delivered (5 * time_Second) (30 * time_Second) (deadline_tick B w)) w)
    as (res1 & w1 & k1 & Hrun1 & _).
  rewrite <- Hpoll in Hrun1.
  unfold bind at 1. rewrite Hrun1.
  destruct res1 as [e1|].
  - (* the manage poll fails *)
    exists (Some e1), w1, k1, 0%nat, 0%nat. simpl.
    rewrite !app_nil_r.
    split; [reflexivity|]. split; [reflexivity|]. split; [exact Hcf|].
    split; [discriminate|]. split.
    + intros e w1' l1' H. inversion H; subst. repeat split; reflexivity.
    + intros w1' l1' e w2 l2 H. discriminate H.
  - destruct (WaitFor_single_request _ provide (ProvideNode_cf_request B n nodes.TargetProvide)
                (delivered (5 * time_Second) (30 * time_Second) (deadline_tick B w1)) w1)
      as (res2 & w2 & k2 & Hrun2 & _).
    rewrite <- Hpoll in Hrun2.
    unfold bind at 1. rewrite Hrun2.
    destruct res2 as [e2|].
    + (* the provide poll fails *)
      exists (Some e2), w2, k1, (S k2), 0%nat. simpl.
      rewrite !app_nil_r.
      split; [reflexivity|]. split; [discriminate|]. split; [exact Hcf|].
      split; [discriminate|]. split.
      * intros e w1' l1' H. discriminate H.
      * intros w1' l1' e w2' l2' H1 H2. inversion H1; subst.
        rewrite Hrun2 in H2. inversion H2; subst.
        repeat split; try reflexivity. lia.
    + destruct (WaitFor_single_request _ get (ProvideNode_cfp_request B n)
                  (delivered (5 * time_Second) (30 * time_Second) (deadline_tick B w2)) w2)
        as (res3 & w3 & k3 & Hrun3 & Hres3).
      rewrite <- Hpoll in Hrun3. rewrite Hrun3.
      exists res3, w3, k1, (S k2), (S k3).
      split; [reflexivity|]. split; [discriminate|]. split; [exact Hcf|].
      split; [|split].
      * intros Hnone. split; [lia|]. split; [lia|].
        destruct (Hres3 Hnone) as (wa & Hwa).
        destruct (ProvideNode_cfp_settled B n wa w3 _ Hwa) as (node & Hget & Hst).
        exists wa, node. split; assumption.
      * intros e w1' l1' H. discriminate H.
      * intros w1' l1' e w2' l2' H1 H2. inversion H1; subst.
        rewrite Hrun2 in H2. discriminate H2.
Qed.

(** The remote side answers the first two requests with a conflict and
    the node is available from the fifth call on: two retried "manage"
    requests and the accepted one, one "provide" request, two reads. *)
Lemma ProvideNode_phases_witness :
  ProvideNode (locked_remote 2 5 false) node0 0%nat
  = (Return None, 6%nat,
     repeat (NodesChangeProvisionState "uuid-1" nodes.TargetManage) 3
     ++ repeat (NodesChangeProvisionState "uuid-1" nodes.TargetProvide) 1
     ++ repeat (NodesGet "uuid-1") 2)
  /\ exists res w' km kp kg,
       ProvideNode (locked_remote 2 5 false) node0 0%nat
       = (Return res, w',
          repeat (NodesChangeProvisionState "uuid-1" nodes.TargetManage) (S km)
          ++ repeat (NodesChangeProvisionState "uuid-1" nodes.TargetProvide) kp
          ++ repeat (NodesGet "uuid-1") kg)
       /\ (kp = 0%nat -> kg = 0%nat).
Proof.
  split; [vm_compute; reflexivity|].
  destruct (ProvideNode_phases (locked_remote 2 5 false) node0 0%nat)
    as (res & w' & km & kp & kg & Hrun & Hk & _).
  exists res, w', km, kp, kg. split; [exact Hrun|exact Hk].
Defined.

(** * Further properties *)

(** ** Polls whose condition sends the same requests at each invocation *)

Lemma concat_repeat_single {A} (a : A) k : List.concat (repeat [a] k) = repeat a k.
Proof. induction k as [|k IH]; simpl; [reflexivity|rewrite IH; reflexivity]. Qed.

(** A poll over a condition that cannot panic and whose invocations all
    log [lg]: it returns after at most [ticks + 1] invocations; success
    comes from an invocation that answered "settled", and an error is the
    timeout, after all [ticks + 1] invocations, or an error the condition
    reported. *)
Lemma WaitFor_trace {W} (fn : ConditionFunc W) (lg : list Request) :
  (forall w, exists r w', fn w = (Return r, w', lg)) ->
  forall ticks w,
  exists res w' k,
    WaitFor ticks fn w = (Return res, w', List.concat (repeat lg (S k)))
    /\ (k <= ticks)%nat
    /\ (res = None -> exists wa, fn wa = (Return (true, None), w', lg))
    /\ (forall e, res = Some e ->
          (e = ErrWaitTimeout /\ k = ticks)
          \/ (exists wa b, fn wa = (Return (b, Some e), w', lg))).
Proof.
  intros Hfn. induction ticks as [|ticks IH]; intros w; rewrite WaitFor_eq;
    destruct (Hfn w) as ([b [e|]] & w1 & Hw); rewrite Hw.
  - exists (Some e), w1, 0%nat. simpl. rewrite app_nil_r.
    split; [destruct b; reflexivity|]. split; [lia|]. split; [discriminate|].
    intros e' He'. inversion He'; subst. right. exists w, b. exact Hw.
  - destruct b.
    + exists None, w1, 0%nat. simpl. rewrite app_nil_r.
      split; [reflexivity|]. split; [lia|]. split; [|discriminate].
      intros _. exists w. exact Hw.
    + exists (Some ErrWaitTimeout), w1, 0%nat. simpl. rewrite app_nil_r.
      split; [reflexivity|]. split; [lia|]. split; [discriminate|].
      intros e' He'. inversion He'; subst. left. split; reflexivity.
  - exists (Some e), w1, 0%nat. simpl. rewrite app_nil_r.
    split; [destruct b; reflexivity|]. split; [lia|]. split; [discriminate|].
    intros e' He'. inversion He'; subst. right. exists w, b. exact Hw.
  - destruct b.
    + exists None, w1, 0%nat. simpl. rewrite app_nil_r.
      split; [reflexivity|]. split; [lia|]. split; [|discriminate].
      intros _. exists w. exact Hw.
    + destruct (IH w1) as (res & w' & k & Hrun & Hk & Hnone & Herr). rewrite Hrun.
      exists res, w', (S k).
      split; [reflexivity|]. split; [lia|]. split; [exact Hnone|].
      intros e' He'. destruct (Herr e' He') as [[-> ->]|Hrep].
      * left. split; reflexivity.
      * right. exact Hrep.
Qed.

(** The ticks of the polls of the client. *)
Lemma delivered_5_60 b :
  (11 <= delivered (5 * time_Second)%Z (60 * time_Second)%Z b <= 12)%nat.
Proof. destruct b; vm_compute; lia. Qed.

Lemma delivered_5_30 b :
  (5 <= delivered (5 * time_Second)%Z (30 * time_Second)%Z b <= 6)%nat.
Proof. destruct b; vm_compute; lia. Qed.

Lemma delivered_10_600 b :
  (59 <= delivered (10 * time_Second)%Z (600 * time_Second)%Z b <= 60)%nat.
Proof. destruct b; vm_compute; lia. Qed.

(** ** updateNode *)

Lemma updateNode_cf_invocation {W} (B : Backend W) opts n w :
  exists r w', updateNode_cf B opts n w = (Return r, w', [NodesUpdate (model.UUID n) opts]).
Proof.
  destruct (updateNode_cf_swallows B opts n w) as (b & w1 & H).
  exists (b, None), w1. exact H.
Qed.

(** The requests of [updateNode]: the same update, at most 13 times,
    and a result that is nil or the timeout error. *)
Lemma updateNode_requests {W} (B : Backend W) (opts : UpdateOpts)
    (n : model.IronicNode) (w : W) :
  exists res w' k,
    updateNode B opts n w
    = (Return res, w', repeat (NodesUpdate (model.UUID n) opts) (S k))
    /\ (k <= 12)%nat
    /\ (res = None \/ res = Some ErrWaitTimeout).
Proof.
  unfold updateNode, Poll. change (5 * time_Second <=? 0) with false. cbv iota.
  pose proof (delivered_5_60 (deadline_tick B w)) as Hticks.
  destruct (WaitFor_trace _ _ (updateNode_cf_invocation B opts n)
              (delivered (5 * time_Second) (60 * time_Second) (deadline_tick B w)) w)
    as (res & w' & k & Hrun & Hk & _ & Herr).
  rewrite concat_repeat_single in Hrun.
  exists res, w', k. split; [exact Hrun|]. split; [lia|].
  destruct res as [e|]; [|left; reflexivity]. right.
  destruct (Herr e eq_refl) as [[-> _]|(wa & b & Hrep)]; [reflexivity|].
  destruct (updateNode_cf_swallows B opts n wa) as (b' & w1 & H').
  rewrite H' in Hrep. discriminate Hrep.
Qed.

(** X1. For every patch, node and behaviour of the remote side,
    [updateNode] sends the same update request between 1 and 13 times and
    nothing else; it returns nil, and then the last request was accepted,
    or the timeout error, and then at least 12 requests were sent.  An
    error of the remote side is never returned. *)
Theorem updateNode_nil_or_timeout {W} (B : Backend W) (opts : UpdateOpts)
    (n : model.IronicNode) (w : W) :
  exists res w' k,
    updateNode B opts n w
    = (Return res, w', repeat (NodesUpdate (model.UUID n) opts) (S k))
    /\ (k <= 12)%nat
    /\ (res = None \/ res = Some ErrWaitTimeout)
    /\ (res = None -> exists wa, nodes_Update B (model.UUID n) opts wa = (None, w'))
    /\ (res = Some ErrWaitTimeout -> (11 <= k)%nat).
Proof.
  unfold updateNode, Poll. change (5 * time_Second <=? 0) with false. cbv iota.
  pose proof (delivered_5_60 (deadline_tick B w)) as Hticks.
  destruct (WaitFor_trace _ _ (updateNode_cf_invocation B opts n)
              (delivered (5 * time_Second) (60 * time_Second) (deadline_tick B w)) w)
    as (res & w' & k & Hrun & Hk & Hnone & Herr).
  rewrite concat_repeat_single in Hrun.
  exists res, w', k. split; [exact Hrun|]. split; [lia|].
  assert (Hres : res = None \/ res = Some ErrWaitTimeout /\ (11 <= k)%nat).
  { destruct res as [e|]; [|left; reflexivity]. right.
    destruct (Herr e eq_refl) as [[-> ->]|(wa & b & Hrep)]; [split; [reflexivity|lia]|].
    destruct (updateNode_cf_swallows B opts n wa) as (b' & w1 & H').
    rewrite H' in Hrep. discriminate Hrep. }
  split; [destruct Hres as [->|[-> _]]; [left|right]; reflexivity|].
  split.
  - intros Hn. destruct (Hnone Hn) as (wa & Hwa). exists wa.
    unfold updateNode_cf, bind, call in Hwa.
    destruct (nodes_Update B (model.UUID n) opts wa) as [[e|] w1]; simpl in Hwa;
      inversion Hwa; subst. reflexivity.
  - intros He. destruct Hres as [Hn|[_ Hk11]]; [rewrite Hn in He; discriminate|exact Hk11].
Qed.

(** ** DeleteNode *)

(** X2. For every node and behaviour of the remote side, [DeleteNode]
    makes exactly one delete call and returns its answer: the poll around
    it never repeats the call, also not on a conflict. *)
Theorem DeleteNode_one_attempt {W} (B : Backend W) (X : Externals W)
    (n : model.IronicNode) (w : W) :
  DeleteNode B X n w
  = (Return (fst (nodes_Delete X (model.UUID n) w)),
     snd (nodes_Delete X (model.UUID n) w), []).
Proof.
  unfold DeleteNode, Poll. change (5 * time_Second <=? 0) with false. cbv iota.
  rewrite WaitFor_eq. unfold DeleteNode_cfp, bind, outside.
  destruct (nodes_Delete X (model.UUID n) w) as [[e|] w1]; reflexivity.
Qed.

(** ** CheckIronicNodeCreated *)

(** X3. For a node that has a UUID, [CheckIronicNodeCreated] returns nil
    without any remote call and leaves the node as it is.  The remote side
    is asked only for a node whose UUID is empty, with that empty
    identifier; the only error the function returns is then the
    [NodeNotFoundError] with the text "could not find node " and no
    identifier after it, and on success the node takes the resource class
    the remote side reports. *)
Theorem CheckIronicNodeCreated_cases {W} (B : Backend W) (n : model.IronicNode) (w : W) :
  (model.UUID n <> "" ->
   CheckIronicNodeCreated B n w = (Return (n, None), w, []))
  /\ (model.UUID n = "" ->
      (forall e w1, nodes_Get B "" w = (Err e, w1) ->
         CheckIronicNodeCreated B n w
         = (Return (n, Some (NodeNotFoundError "could not find node ")), w1, [NodesGet ""]))
      /\ (forall node w1, nodes_Get B "" w = (Ok node, w1) ->
         CheckIronicNodeCreated B n w
         = (Return (model.set_ResourceClass n (nodes.NodeResourceClass node), None),
            w1, [NodesGet ""])))
  /\ (forall n' e w' l,
        CheckIronicNodeCreated B n w = (Return (n', Some e), w', l) ->
        e = NodeNotFoundError "could not find node " /\ n' = n).
Proof.
  unfold CheckIronicNodeCreated.
  destruct (String.eqb_spec (model.UUID n) "") as [Heq|Hne]; simpl.
  - rewrite Heq. unfold bind, call.
    split; [intros H; contradiction H; reflexivity|]. split.
    + intros _. split.
      * intros e w1 Hget. rewrite Hget. reflexivity.
      * intros node w1 Hget. rewrite Hget. reflexivity.
    + intros n' e w' l. destruct (nodes_Get B "" w) as [[node|e0] w1]; simpl;
        intros H; inversion H; subst. split; reflexivity.
  - split; [intros _; reflexivity|]. split; [intros Heq; contradiction|].
    intros n' e w' l H. discriminate H.
Qed.

Lemma CheckIronicNodeCreated_cases_witness :
  CheckIronicNodeCreated (validating_remote no_validation) node0 0%nat
  = (Return (node0, None), 0%nat, []).
Proof.
  refine (proj1 (CheckIronicNodeCreated_cases (validating_remote no_validation) node0 0%nat) _).
  discriminate.
Defined.

(** ** PowerNodeOn *)

Lemma PowerNodeOn_cf_invocation {W} (B : Backend W) n w :
  exists r w', PowerNodeOn_cf B n w = (Return r, w', [NodesGet (model.UUID n)]).
Proof.
  unfold PowerNodeOn_cf, bind, call.
  destruct (nodes_Get B (model.UUID n) w) as [[node|e] w1]; simpl.
  - destruct (negb (nodes.PowerState node =? nodes_PowerOn)%string);
      do 2 eexists; reflexivity.
  - do 2 eexists; reflexivity.
Qed.

Lemma PowerNodeOn_cf_settled {W} (B : Backend W) n wa w' l :
  PowerNodeOn_cf B n wa = (Return (true, None), w', l) ->
  exists node, nodes_Get B (model.UUID n) wa = (Ok node, w')
               /\ nodes.PowerState node = "power on".
Proof.
  unfold PowerNodeOn_cf, bind, call.
  destruct (nodes_Get B (model.UUID n) wa) as [[node|e] w1]; simpl; [|discriminate].
  destruct (String.eqb_spec (nodes.PowerState node) nodes_PowerOn) as [Heq|Hne];
    simpl; intros H; inversion H; subst.
  exists node. split; [reflexivity|exact Heq].
Qed.

Lemma PowerNodeOn_cf_error {W} (B : Backend W) n wa b e w' l :
  PowerNodeOn_cf B n wa = (Return (b, Some e), w', l) ->
  e = fmt_Errorf "cannot power on node".
Proof.
  unfold PowerNodeOn_cf, bind, call.
  destruct (nodes_Get B (model.UUID n) wa) as [[node|e0] w1]; simpl.
  - destruct (negb (nodes.PowerState node =? nodes_PowerOn)%string); discriminate.
  - intros H. inversion H. reflexivity.
Qed.

(** X4. For every node and behaviour of the remote side: when the
    power-on request is answered with an error, conflict or not,
    [PowerNodeOn] returns the error "cannot power on node <UUID>" and
    never reads the node; when the request is accepted it reads the node
    between 1 and 7 times and makes no other logged request, returns nil
    only after a read that showed the power state "power on", and
    otherwise returns the timeout error or, at the first read that fails,
    the error "cannot power on node". *)
Theorem PowerNodeOn_cases {W} (B : Backend W) (X : Externals W)
    (n : model.IronicNode) (w : W) :
  (forall e w1,
      nodes_ChangePowerState X (model.UUID n) "power on" w = (Some e, w1) ->
      PowerNodeOn B X n w
      = (Return (Some (errorString ("cannot power on node " ++ model.UUID n))), w1, []))
  /\ (forall w1,
        nodes_ChangePowerState X (model.UUID n) "power on" w = (None, w1) ->
        exists res w' k,
          PowerNodeOn B X n w = (Return res, w', repeat (NodesGet (model.UUID n)) (S k))
          /\ (k <= 6)%nat
          /\ (res = None ->
              exists wa node, nodes_Get B (model.UUID n) wa = (Ok node, w')
                              /\ nodes.PowerState node = "power on")
          /\ (res = None
              \/ res = Some (Of_error ErrWaitTimeout)
              \/ res = Some (Of_error (fmt_Errorf "cannot power on node")))).
Proof.
  split.
  - intros e w1 H. unfold PowerNodeOn, bind, outside.
    change nodes_PowerOn with "power on". rewrite H.
    destruct e; reflexivity.
  - intros w1 H. unfold PowerNodeOn. unfold bind at 1. unfold outside.
    change nodes_PowerOn with "power on". rewrite H.
    unfold Poll. change (5 * time_Second <=? 0) with false. cbv iota.
    pose proof (delivered_5_30 (deadline_tick B w1)) as Hticks.
    destruct (WaitFor_trace _ _ (PowerNodeOn_cf_invocation B n)
                (delivered (5 * time_Second) (30 * time_Second) (deadline_tick B w1)) w1)
      as (res & w' & k & Hrun & Hk & Hnone & Herr).
    rewrite concat_repeat_single in Hrun.
    unfold bind. rewrite Hrun.
    exists (option_map Of_error res), w', k. simpl. rewrite app_nil_r.
    split; [reflexivity|]. split; [lia|]. split.
    + intros Hres. destruct res; [discriminate|].
      destruct (Hnone eq_refl) as (wa & Hwa).
      destruct (PowerNodeOn_cf_settled B n wa w' _ Hwa) as (node & Hget & Hst).
      exists wa, node. split; assumption.
    + destruct res as [e|]; [|left; reflexivity]. right.
      destruct (Herr e eq_refl) as [[-> _]|(wa & b & Hrep)]; [left; reflexivity|].
      right. rewrite (PowerNodeOn_cf_error B n wa b e w' _ Hrep). reflexivity.
Qed.

(** ** WaitForNovaPropagation *)

(** The loop over the hypervisors finds one exactly when a hypervisor of
    the listing has the node's UUID as host name and positive disk and
    memory. *)
Lemma WaitForNovaPropagation_range_spec uuid hys :
  WaitForNovaPropagation_range uuid hys = true
  <-> exists hv, In hv hys
                 /\ hypervisors.HypervisorHostname hv = uuid
                 /\ 0 < hypervisors.LocalGB hv
                 /\ 0 < hypervisors.MemoryMB hv.
Proof.
  induction hys as [|hv hys IH]; simpl.
  - split; [discriminate|]. intros (hv & [] & _).
  - destruct (String.eqb_spec (hypervisors.HypervisorHostname hv) uuid) as [Heq|Hne].
    + destruct (Z.gtb_spec (hypervisors.LocalGB hv) 0) as [Hl|Hl];
        destruct (Z.gtb_spec (hypervisors.MemoryMB hv) 0) as [Hm|Hm]; simpl.
      * split; [|reflexivity]. intros _. exists hv.
        split; [left; reflexivity|]. split; [exact Heq|]. split; lia.
      * rewrite IH. split.
        -- intros (hv' & Hin & Hrest). exists hv'. split; [right; exact Hin|exact Hrest].
        -- intros (hv' & [->|Hin] & Hh & Hl' & Hm'); [lia|].
           exists hv'. repeat split; assumption.
      * rewrite IH. split.
        -- intros (hv' & Hin & Hrest). exists hv'. split; [right; exact Hin|exact Hrest].
        -- intros (hv' & [->|Hin] & Hh & Hl' & Hm'); [lia|].
           exists hv'. repeat split; assumption.
      * rewrite IH. split.
        -- intros (hv' & Hin & Hrest). exists hv'. split; [right; exact Hin|exact Hrest].
        -- intros (hv' & [->|Hin] & Hh & Hl' & Hm'); [lia|].
           exists hv'. repeat split; assumption.
    + rewrite IH. split.
      * intros (hv' & Hin & Hrest). exists hv'. split; [right; exact Hin|exact Hrest].
      * intros (hv' & [->|Hin] & Hh & Hl' & Hm'); [contradiction|].
        exists hv'. repeat split; assumption.
Qed.

Lemma WaitForNovaPropagation_cfp_invocation {W} (X : Externals W) n w :
  exists r w', WaitForNovaPropagation_cfp X n w = (Return r, w', []).
Proof.
  unfold WaitForNovaPropagation_cfp, bind, outside.
  destruct (hypervisors_List X w) as [[[hys|e]|e] w1]; simpl.
  - destruct (WaitForNovaPropagation_range (model.UUID n) hys); do 2 eexists; reflexivity.
  - do 2 eexists; reflexivity.
  - do 2 eexists; reflexivity.
Qed.

(** X5. For every node and behaviour of the compute service,
    [WaitForNovaPropagation] returns nil only after a listing that holds a
    hypervisor with the node's UUID as host name and with positive disk
    and memory (one with a zero capacity does not count); an error it
    returns is the timeout error or the error of a failed listing, which
    ends the wait at once. *)
Theorem WaitForNovaPropagation_cases {W} (B : Backend W) (X : Externals W)
    (n : model.IronicNode) (w : W) :
  exists res w',
    WaitForNovaPropagation B X n w = (Return res, w', [])
    /\ (res = None ->
        exists wa hys hv,
          hypervisors_List X wa = (Ok (Ok hys), w')
          /\ In hv hys
          /\ hypervisors.HypervisorHostname hv = model.UUID n
          /\ 0 < hypervisors.LocalGB hv
          /\ 0 < hypervisors.MemoryMB hv)
    /\ (forall e, res = Some e ->
          e = ErrWaitTimeout
          \/ (exists wa, hypervisors_List X wa = (Err e, w'))
          \/ (exists wa, hypervisors_List X wa = (Ok (Err e), w'))).
Proof.
  unfold WaitForNovaPropagation, Poll. change (10 * time_Second <=? 0) with false. cbv iota.
  destruct (WaitFor_trace _ _ (WaitForNovaPropagation_cfp_invocation X n)
              (delivered (10 * time_Second) (600 * time_Second) (deadline_tick B w)) w)
    as (res & w' & k & Hrun & Hk & Hnone & Herr).
  assert (Hnil : forall j, List.concat (repeat (@nil Request) j) = []).
  { induction j as [|j IH]; simpl; [reflexivity|exact IH]. }
  rewrite Hnil in Hrun.
  exists res, w'. split; [exact Hrun|]. split.
  - intros Hres. destruct (Hnone Hres) as (wa & Hwa).
    unfold WaitForNovaPropagation_cfp, bind, outside in Hwa.
    destruct (hypervisors_List X wa) as [[[hys|e]|e] w1] eqn:Hlist; simpl in Hwa;
      try discriminate.
    destruct (WaitForNovaPropagation_range (model.UUID n) hys) eqn:Hfound;
      simpl in Hwa; inversion Hwa; subst.
    apply WaitForNovaPropagation_range_spec in Hfound.
    destruct Hfound as (hv & Hin & Hh & Hl & Hm).
    exists wa, hys, hv. repeat split; assumption.
  - intros e He. destruct (Herr e He) as [[-> _]|(wa & b & Hrep)]; [left; reflexivity|].
    right. unfold WaitForNovaPropagation_cfp, bind, outside in Hrep.
    destruct (hypervisors_List X wa) as [[[hys|e0]|e0] w1] eqn:Hlist; simpl in Hrep.
    + destruct (WaitForNovaPropagation_range (model.UUID n) hys); discriminate.
    + inversion Hrep; subst. right. exists wa. exact Hlist.
    + inversion Hrep; subst. left. exists wa. exact Hlist.
Qed.

Lemma PowerNodeOn_cases_witness :
  PowerNodeOn (validating_remote no_validation)
    (counting_externals (Some (ErrDefault409 409)) (fun _ => None) (Ok (Ok []))
       (PagesOf []) (PagesOf []) (Err ErrWaitTimeout) None)
    node0 0%nat
  = (Return (Some (errorString "cannot power on node uuid-1")), 1%nat, []).
Proof.
  exact (proj1 (PowerNodeOn_cases (validating_remote no_validation)
                  (counting_externals (Some (ErrDefault409 409)) (fun _ => None) (Ok (Ok []))
                     (PagesOf []) (PagesOf []) (Err ErrWaitTimeout) None)
                  node0 0%nat)
           (ErrDefault409 409) 1%nat eq_refl).
Defined.

(** ** updatePorts *)

Lemma updatePorts_cf_invocation {W} (B : Backend W) opts p w :
  exists r w', updatePorts_cf B opts p w
               = (Return r, w', [PortsUpdate (ports.UUID p) opts]).
Proof.
  unfold updatePorts_cf, bind, call.
  destruct (ports_Update B (ports.UUID p) opts w) as [[[a| | | |]|] w1];
    do 2 eexists; reflexivity.
Qed.

(** The poll for one port: between 1 and 13 requests, all for that
    port. *)
Lemma updatePorts_poll {W} (B : Backend W) opts p w :
  exists res w' k,
    Poll (deadline_tick B) (5 * time_Second) (60 * time_Second) (updatePorts_cf B opts p) w
    = (Return res, w', repeat (PortsUpdate (ports.UUID p) opts) (S k))
    /\ (k <= 12)%nat.
Proof.
  unfold Poll. change (5 * time_Second <=? 0) with false. cbv iota.
  pose proof (delivered_5_60 (deadline_tick B w)) as Hticks.
  destruct (WaitFor_trace _ _ (updatePorts_cf_invocation B opts p)
              (delivered (5 * time_Second) (60 * time_Second) (deadline_tick B w)) w)
    as (res & w' & k & Hrun & Hk & _).
  rewrite concat_repeat_single in Hrun.
  exists res, w', k. split; [exact Hrun|lia].
Qed.

(** One port of the loop. *)
Lemma updatePorts_range_cons {W} (B : Backend W) opts p ps w :
  updatePorts_range B opts (p :: ps) w
  = match Poll (deadline_tick B) (5 * time_Second) (60 * time_Second)
            (updatePorts_cf B opts p) w with
    | (Return (Some e), w1, l1) => (Return (Some e), w1, l1)
    | (Return None, w1, l1) =>
        match updatePorts_range B opts ps w1 with
        | (o, w2, l2) => (o, w2, l1 ++ l2)
        end
    | (Panic msg, w1, l1) => (Panic msg, w1, l1)
    end.
Proof.
  cbn [updatePorts_range]. unfold bind.
  destruct (Poll (deadline_tick B) (5 * time_Second) (60 * time_Second)
              (updatePorts_cf B opts p) w) as [[[[e|]|msg] w1] l1];
    simpl; rewrite ?app_nil_r; reflexivity.
Qed.

(** The loop over two lists of ports run one after the other: the second
    list is reached only when every port of the first was updated. *)
Lemma updatePorts_range_app {W} (B : Backend W) opts l1 l2 w :
  updatePorts_range B opts (l1 ++ l2) w
  = match updatePorts_range B opts l1 w with
    | (Return None, w1, lg1) =>
        match updatePorts_range B opts l2 w1 with
        | (o, w2, lg2) => (o, w2, lg1 ++ lg2)
        end
    | other => other
    end.
Proof.
  revert w. induction l1 as [|p l1 IH]; intros w.
  - simpl. destruct (updatePorts_range B opts l2 w) as [[o w2] lg2]. reflexivity.
  - change ((p :: l1) ++ l2) with (p :: (l1 ++ l2)).
    rewrite !updatePorts_range_cons.
    destruct (Poll (deadline_tick B) (5 * time_Second) (60 * time_Second)
                (updatePorts_cf B opts p) w) as [[[[e|]|msg] w1] lg1];
      try reflexivity.
    rewrite IH.
    destruct (updatePorts_range B opts l1 w1) as [[[[e|]|msg] w2] lg2];
      try reflexivity.
    destruct (updatePorts_range B opts l2 w2) as [[o w3] lg3].
    rewrite app_assoc. reflexivity.
Qed.

(** The loop returns, and sends updates only for the ports it is given,
    at most 13 for each. *)
Lemma updatePorts_range_log {W} (B : Backend W) opts : forall ps w,
  exists res w' l,
    updatePorts_range B opts ps w = (Return res, w', l)
    /\ Forall (fun r => exists q, In q ps /\ r = PortsUpdate (ports.UUID q) opts) l
    /\ (List.length l <= 13 * List.length ps)%nat.
Proof.
  induction ps as [|p ps IH]; intros w.
  - exists None, w, []. split; [reflexivity|]. split; [constructor|simpl; lia].
  - destruct (updatePorts_poll B opts p w) as (res & w1 & k & Hrun & Hk).
    rewrite updatePorts_range_cons, Hrun.
    assert (Hfirst : Forall (fun r => exists q, (p = q \/ In q ps)
                                                /\ r = PortsUpdate (ports.UUID q) opts)
                            (repeat (PortsUpdate (ports.UUID p) opts) (S k))).
    { apply Forall_forall. intros r Hr. apply repeat_spec in Hr. subst r.
      exists p. split; [left; reflexivity|reflexivity]. }
    destruct res as [e|].
    + exists (Some e), w1, (repeat (PortsUpdate (ports.UUID p) opts) (S k)).
      split; [reflexivity|]. split; [exact Hfirst|].
      rewrite repeat_length. simpl List.length. lia.
    + destruct (IH w1) as (res & w' & l & Hrest & Hall & Hlen). rewrite Hrest.
      exists res, w', (repeat (PortsUpdate (ports.UUID p) opts) (S k) ++ l).
      split; [reflexivity|]. split.
      * apply Forall_app. split; [exact Hfirst|].
        eapply Forall_impl; [|exact Hall]. simpl.
        intros r (q & Hq & Hr). exists q. split; [right; exact Hq|exact Hr].
      * rewrite length_app, repeat_length. simpl List.length. lia.
Qed.

(** X6. For every patch, node and behaviour of the remote side:
    a failed port listing ends [updatePorts] with that error before any
    update; otherwise the updates are sent port by port in the order of
    the listing, only for listed ports and at most 13 for each, and the
    first port whose poll ends with an error ends the function with that
    error: no update is sent for the ports after it. *)
Theorem updatePorts_first_failure_stops {W} (B : Backend W) (opts : UpdateOpts)
    (n : model.IronicNode) (w : W) :
  (forall e w0,
      ports_List B (model.UUID n) w = (Err e, w0)
      \/ ports_List B (model.UUID n) w = (Ok (Err e), w0) ->
      updatePorts B opts n w = (Return (Some e), w0, [PortsList (model.UUID n)]))
  /\ (forall ps w0,
        ports_List B (model.UUID n) w = (Ok (Ok ps), w0) ->
        exists res w' l,
          updatePorts B opts n w = (Return res, w', PortsList (model.UUID n) :: l)
          /\ Forall (fun r => exists q, In q ps /\ r = PortsUpdate (ports.UUID q) opts) l
          /\ (List.length l <= 13 * List.length ps)%nat)
  /\ (forall pre p post w0 w1 l1 e w2 l2,
        ports_List B (model.UUID n) w = (Ok (Ok (pre ++ p :: post)), w0) ->
        updatePorts_range B opts pre w0 = (Return None, w1, l1) ->
        Poll (deadline_tick B) (5 * time_Second) (60 * time_Second)
             (updatePorts_cf B opts p) w1 = (Return (Some e), w2, l2) ->
        updatePorts B opts n w
        = (Return (Some e), w2, PortsList (model.UUID n) :: l1 ++ l2)
        /\ Forall (fun r => exists q, In q (pre ++ [p])
                                      /\ r = PortsUpdate (ports.UUID q) opts)
                  (l1 ++ l2)).
Proof.
  split; [|split].
  - intros e w0 [H|H]; unfold updatePorts, bind, call; rewrite H; reflexivity.
  - intros ps w0 H. unfold updatePorts, bind, call. rewrite H.
    destruct (updatePorts_range_log B opts ps w0) as (res & w' & l & Hrun & Hall & Hlen).
    rewrite Hrun. exists res, w', l. split; [reflexivity|]. split; assumption.
  - intros pre p post w0 w1 l1 e w2 l2 Hlist Hpre Hpoll.
    assert (Hrun : updatePorts_range B opts (pre ++ p :: post) w0
                   = (Return (Some e), w2, l1 ++ l2)).
    { rewrite updatePorts_range_app, Hpre, updatePorts_range_cons, Hpoll. reflexivity. }
    split.
    + unfold updatePorts, bind, call. rewrite Hlist, Hrun. reflexivity.
    + destruct (updatePorts_range_log B opts (pre ++ [p]) w0)
        as (res & w' & l & Hrun' & Hall & _).
      rewrite updatePorts_range_app, Hpre, updatePorts_range_cons, Hpoll in Hrun'.
      inversion Hrun'; subst. exact Hall.
Qed.

Lemma updatePorts_first_failure_stops_witness :
  updatePorts second_port_failing_remote patch_1 node0 0%nat
  = (Return (Some (ErrUnexpectedResponseCode 500)), 3%nat,
     PortsList "uuid-1" :: [PortsUpdate "port-1" patch_1] ++ [PortsUpdate "port-2" patch_1])
  /\ Forall (fun r => exists q, In q ([ {| ports.UUID := "port-1" |} ]
                                      ++ [ {| ports.UUID := "port-2" |} ])
                                /\ r = PortsUpdate (ports.UUID q) patch_1)
            ([PortsUpdate "port-1" patch_1] ++ [PortsUpdate "port-2" patch_1]).
Proof.
  exact (proj2 (proj2 (updatePorts_first_failure_stops second_port_failing_remote
                         patch_1 node0 0%nat))
           [ {| ports.UUID := "port-1" |} ] {| ports.UUID := "port-2" |}
           [ {| ports.UUID := "port-3" |} ] 1%nat 2%nat [PortsUpdate "port-1" patch_1]
           (ErrUnexpectedResponseCode 500) 3%nat [PortsUpdate "port-2" patch_1]
           eq_refl eq_refl eq_refl).
Defined.

(** ** ApplyRules *)

(** X7. For every rendering of the rules, node and behaviour of the
    remote side: when the rendering fails, [ApplyRules] returns its error
    and sends nothing of its own; otherwise the ports are patched before
    the node, and when the port patching ends with an error that error is
    returned and no node update is sent; when it succeeds, the node
    updates follow the port updates and the result is nil or the timeout
    error. *)
Theorem ApplyRules_ports_before_node {W} (B : Backend W)
    (getRules : model.IronicNode -> M W (model.IronicNode * Rule * option error))
    (n : model.IronicNode) (w : W) :
  (forall n1 rules e w1 lg,
      getRules n w = (Return (n1, rules, Some e), w1, lg) ->
      ApplyRules B getRules n w = (Return (n1, Some e), w1, lg))
  /\ (forall n1 rules w1 lg e w2 lp,
        getRules n w = (Return (n1, rules, None), w1, lg) ->
        updatePorts B (map toUpdateOperation (Properties_Port rules)) n1 w1
        = (Return (Some e), w2, lp) ->
        ApplyRules B getRules n w = (Return (n1, Some e), w2, lg ++ lp)
        /\ (forall r u o, In r lp -> r <> NodesUpdate u o))
  /\ (forall n1 rules w1 lg w2 lp,
        getRules n w = (Return (n1, rules, None), w1, lg) ->
        updatePorts B (map toUpdateOperation (Properties_Port rules)) n1 w1
        = (Return None, w2, lp) ->
        exists res w3 k,
          ApplyRules B getRules n w
          = (Return (n1, res), w3,
             lg ++ lp
             ++ repeat (NodesUpdate (model.UUID n1)
                          (map toUpdateOperation (Properties_Node rules))) (S k))
          /\ (k <= 12)%nat
          /\ (res = None \/ res = Some ErrWaitTimeout)).
Proof.
  split; [|split].
  - intros n1 rules e w1 lg Hg. unfold ApplyRules, bind. rewrite Hg. simpl.
    rewrite app_nil_r. reflexivity.
  - intros n1 rules w1 lg e w2 lp Hg Hp. split.
    + unfold ApplyRules, bind. rewrite Hg. fold (@bind W). unfold bind. rewrite Hp.
      simpl. rewrite app_nil_r. reflexivity.
    + intros r u o Hin Heq. subst r.
      unfold updatePorts, bind, call in Hp.
      destruct (ports_List B (model.UUID n1) w1) as [[[ps|e0]|e0] w0]; simpl in Hp.
      * destruct (updatePorts_range_log B (map toUpdateOperation (Properties_Port rules)) ps w0)
          as (res & w' & l & Hrun & Hall & _).
        rewrite Hrun in Hp. inversion Hp; subst.
        destruct Hin as [Hin|Hin]; [discriminate|].
        rewrite Forall_forall in Hall. destruct (Hall _ Hin) as (q & _ & Hq).
        discriminate.
      * inversion Hp; subst. destruct Hin as [Hin|[]]. discriminate.
      * inversion Hp; subst. destruct Hin as [Hin|[]]. discriminate.
  - intros n1 rules w1 lg w2 lp Hg Hp.
    destruct (updateNode_requests B (map toUpdateOperation (Properties_Node rules)) n1 w2)
      as (res & w3 & k & Hrun & Hk & Hres).
    exists res, w3, k. split; [|split; assumption].
    unfold ApplyRules, bind. rewrite Hg. fold (@bind W). unfold bind. rewrite Hp.
    fold (@bind W). unfold bind. rewrite Hrun. simpl. rewrite app_nil_r. reflexivity.
Qed.

Lemma ApplyRules_ports_before_node_witness :
  ApplyRules second_port_failing_remote getRules_1 node0 0%nat
  = (Return (node0, Some (ErrUnexpectedResponseCode 500)), 3%nat,
     [] ++ [PortsList "uuid-1"; PortsUpdate "port-1" patch_1; PortsUpdate "port-2" patch_1])
  /\ (forall r u o,
        In r [PortsList "uuid-1"; PortsUpdate "port-1" patch_1; PortsUpdate "port-2" patch_1] ->
        r <> NodesUpdate u o).
Proof.
  exact (proj1 (proj2 (ApplyRules_ports_before_node second_port_failing_remote
                         getRules_1 node0 0%nat))
           node0 rules_1 0%nat [] (ErrUnexpectedResponseCode 500) 3%nat
           [PortsList "uuid-1"; PortsUpdate "port-1" patch_1; PortsUpdate "port-2" patch_1]
           eq_refl eq_refl).
Defined.

(** ** The lookups over pages *)

Lemma find_app_first {A} (q : A -> bool) (l1 l2 : list A) :
  find q (l1 ++ l2) = match find q l1 with Some x => Some x | None => find q l2 end.
Proof.
  induction l1 as [|x l1 IH]; simpl; [reflexivity|].
  destruct (q x); [reflexivity|exact IH].
Qed.

Lemma getImageID_range_find name imgs id :
  getImageID_range name imgs id
  = match find (fun i => String.eqb (images.Name i) name) imgs with
    | Some i => (false, None, images.ID i)
    | None => (true, None, id)
    end.
Proof.
  induction imgs as [|i imgs IH]; simpl; [reflexivity|].
  destruct (String.eqb (images.Name i) name); [reflexivity|exact IH].
Qed.

(** The iteration of [getImageID] over pages that all extract: it goes
    through the pages before the first empty one, up to the first image
    with the name. *)
Lemma getImageID_pages name : forall pre rest id,
  Forall (fun pg => pg <> []) pre ->
  rest = [] \/ (exists rest', rest = [] :: rest') ->
  EachPageOf (map (@Ok _) (pre ++ rest)) (getImageID_handler name) id
  = (None,
     match find (fun i => String.eqb (images.Name i) name) (List.concat pre) with
     | Some i => images.ID i
     | None => id
     end).
Proof.
  induction pre as [|pg pre IH]; intros rest id Hne Hrest.
  - simpl. destruct Hrest as [->|(rest' & ->)]; reflexivity.
  - inversion Hne as [|? ? Hpg Hne']; subst.
    destruct pg as [|x pg]; [contradiction Hpg; reflexivity|].
    rewrite <- app_comm_cons. cbn [map EachPageOf List.concat].
    unfold getImageID_handler.
    rewrite getImageID_range_find, find_app_first.
    destruct (find (fun i => String.eqb (images.Name i) name) (x :: pg)) as [i|].
    + reflexivity.
    + apply IH; assumption.
Qed.

(** X8. [getImageID] returns the identifier of the first image with the
    given name, in the order of the pages and of the images in them, among
    the pages before the first empty page, and the empty identifier with
    no error when there is none; images after an empty page are not
    looked at.  When the listing itself fails, the error is returned with
    the empty identifier. *)
Theorem getImageID_first_match {W} (X : Externals W) (name : string) (w : W) :
  (forall pre rest w1,
      Forall (fun pg => pg <> []) pre ->
      rest = [] \/ (exists rest', rest = [] :: rest') ->
      images_ListDetail X name w = (PagesOf (map (@Ok _) (pre ++ rest)), w1) ->
      getImageID X name w
      = (Return (match find (fun i => String.eqb (images.Name i) name) (List.concat pre) with
                 | Some i => images.ID i
                 | None => ""
                 end, None), w1, []))
  /\ (forall e w1,
        images_ListDetail X name w = (PagerErrOf e, w1) ->
        getImageID X name w = (Return ("", Some e), w1, [])).
Proof.
  split.
  - intros pre rest w1 Hne Hrest Hlist. unfold getImageID, bind, outside.
    rewrite Hlist, (getImageID_pages name pre rest "" Hne Hrest). reflexivity.
  - intros e w1 Hlist. unfold getImageID, bind, outside. rewrite Hlist. reflexivity.
Qed.

(** The page handlers of [getFlavorID] and [getConductorZone] answer
    "go on" on a page with a match and "stop" on a page without one.
    With such a handler the iteration stops at the first page without a
    match, and the identifier is that of the last page looked at that had
    one. *)
Lemma EachPageOf_stops_without_match {A} (q : A -> bool) (g : A -> string)
    (h : result (list A) -> string -> bool * option error * string) :
  (forall xs id, h (Ok xs) id = match find q xs with
                                | Some x => (true, None, g x)
                                | None => (false, None, id)
                                end) ->
  (forall first rest id,
      find q first = None ->
      EachPageOf (Ok first :: rest) h id = (None, id))
  /\ (forall pre last rest x id,
        Forall (fun pg => find q pg <> None) pre ->
        find q last = Some x ->
        rest = [] \/ (exists pg rest', rest = Ok pg :: rest' /\ find q pg = None) ->
        EachPageOf (map (@Ok _) (pre ++ [last]) ++ rest) h id = (None, g x)).
Proof.
  intros Hh.
  assert (Hfirst : forall first rest id,
             find q first = None -> EachPageOf (Ok first :: rest) h id = (None, id)).
  { intros first rest id Hnone. destruct first as [|x first]; [reflexivity|].
    cbn [EachPageOf]. rewrite Hh, Hnone. reflexivity. }
  split; [exact Hfirst|].
  induction pre as [|pg pre IH]; intros last rest x id Hall Hlast Hrest.
  - destruct last as [|y last]; [discriminate Hlast|].
    cbn [app map EachPageOf]. rewrite Hh, Hlast.
    destruct Hrest as [->|(pg & rest' & -> & Hnone)]; [reflexivity|].
    apply Hfirst. exact Hnone.
  - inversion Hall as [|? ? Hpg Hall']; subst.
    destruct pg as [|y pg]; [contradiction Hpg; reflexivity|].
    cbn [app map EachPageOf]. rewrite Hh.
    destruct (find q (y :: pg)) as [z|]; [|contradiction Hpg; reflexivity].
    apply IH; assumption.
Qed.

Lemma EachPage_is_EachPageOf {S} ps
    (h : result (list flavors.Flavor) -> S -> bool * option error * S) st :
  EachPage ps h st = EachPageOf ps h st.
Proof.
  revert st. induction ps as [|p ps IH]; intros st; [reflexivity|].
  destruct p as [[|f fs]|e]; try reflexivity.
  cbn [EachPage EachPageOf]. destruct (h (Ok (f :: fs)) st) as [[[] [e|]] st'];
    try reflexivity. apply IH.
Qed.

Lemma getFlavorID_range_find name fs id :
  getFlavorID_range name fs id
  = match find (fun f => String.eqb (flavors.Name f) name) fs with
    | Some f => (true, None, flavors.ID f)
    | None => (false, None, id)
    end.
Proof.
  induction fs as [|f fs IH]; simpl; [reflexivity|].
  destruct (String.eqb (flavors.Name f) name); [reflexivity|exact IH].
Qed.

Lemma getConductorZone_range_find name svs id :
  getConductorZone_range name svs id
  = match find (fun sv => String.eqb (services.Host sv) name) svs with
    | Some sv => (true, None, services.Zone sv)
    | None => (false, None, id)
    end.
Proof.
  induction svs as [|sv svs IH]; simpl; [reflexivity|].
  destruct (String.eqb (services.Host sv) name); [reflexivity|exact IH].
Qed.

(** X9. [getFlavorID] looks at the next page only while the page at hand
    holds a flavor with the name: when the first page holds none, the
    result is the empty identifier with no error, whatever the later pages
    hold; when the pages up to some page all hold one and the listing ends
    there or goes on with a page without one, the result is the identifier
    of the first flavor with the name on that last page. *)
Theorem getFlavorID_stops_without_match {W} (B : Backend W) (name : string) (w : W) :
  (forall first rest w1,
      find (fun f => String.eqb (flavors.Name f) name) first = None ->
      flavors_ListDetail B w = (Pages (Ok first :: rest), w1) ->
      getFlavorID B name w = (Return ("", None), w1, [FlavorsListDetail]))
  /\ (forall pre last rest f w1,
        Forall (fun pg => find (fun f => String.eqb (flavors.Name f) name) pg <> None) pre ->
        find (fun f => String.eqb (flavors.Name f) name) last = Some f ->
        rest = [] \/ (exists pg rest', rest = Ok pg :: rest'
                      /\ find (fun f => String.eqb (flavors.Name f) name) pg = None) ->
        flavors_ListDetail B w = (Pages (map (@Ok _) (pre ++ [last]) ++ rest), w1) ->
        getFlavorID B name w = (Return (flavors.ID f, None), w1, [FlavorsListDetail])).
Proof.
  destruct (EachPageOf_stops_without_match
              (fun f => String.eqb (flavors.Name f) name) flavors.ID
              (getFlavorID_handler name)
              (fun xs id => getFlavorID_range_find name xs id)) as [Hstop Hlast].
  split.
  - intros first rest w1 Hnone Hlist. unfold getFlavorID, bind, call.
    rewrite Hlist, EachPage_is_EachPageOf, (Hstop first rest "" Hnone). reflexivity.
  - intros pre last rest f w1 Hall Hf Hrest Hlist. unfold getFlavorID, bind, call.
    rewrite Hlist, EachPage_is_EachPageOf, (Hlast pre last rest f "" Hall Hf Hrest).
    reflexivity.
Qed.

(** X10. [getConductorZone] has the same iteration: when the first page
    holds no service on the host, the result is the empty zone with no
    error; when the pages up to some page all hold one and the listing
    ends there or goes on with a page without one, the result is the zone
    of the first service on the host on that last page. *)
Theorem getConductorZone_stops_without_match {W} (X : Externals W) (name : string) (w : W) :
  (forall first rest w1,
      find (fun sv => String.eqb (services.Host sv) name) first = None ->
      services_List X name w = (PagesOf (Ok first :: rest), w1) ->
      getConductorZone X name w = (Return ("", None), w1, []))
  /\ (forall pre last rest sv w1,
        Forall (fun pg => find (fun sv => String.eqb (services.Host sv) name) pg <> None) pre ->
        find (fun sv => String.eqb (services.Host sv) name) last = Some sv ->
        rest = [] \/ (exists pg rest', rest = Ok pg :: rest'
                      /\ find (fun sv => String.eqb (services.Host sv) name) pg = None) ->
        services_List X name w = (PagesOf (map (@Ok _) (pre ++ [last]) ++ rest), w1) ->
        getConductorZone X name w = (Return (services.Zone sv, None), w1, [])).
Proof.
  destruct (EachPageOf_stops_without_match
              (fun sv => String.eqb (services.Host sv) name) services.Zone
              (getConductorZone_handler name)
              (fun xs id => getConductorZone_range_find name xs id)) as [Hstop Hlast].
  split.
  - intros first rest w1 Hnone Hlist. unfold getConductorZone, bind, outside.
    rewrite Hlist, (Hstop first rest "" Hnone). reflexivity.
  - intros pre last rest sv w1 Hall Hsv Hrest Hlist. unfold getConductorZone, bind, outside.
    rewrite Hlist, (Hlast pre last rest sv "" Hall Hsv Hrest). reflexivity.
Qed.

Lemma getImageID_first_match_witness :
  getImageID (example_externals image_pages (Ok server_1)) "cirros" 0%nat
  = (Return ("img-2", None), 1%nat, []).
Proof.
  refine (proj1 (getImageID_first_match (example_externals image_pages (Ok server_1))
                   "cirros" 0%nat)
            [[image_1]; [image_2]] [[]; [image_3]] 1%nat _ _ eq_refl).
  - repeat constructor; discriminate.
  - right. exists [[image_3]]. reflexivity.
Defined.

Lemma getFlavorID_stops_without_match_witness :
  getFlavorID paged_flavors_remote "B" 0%nat = (Return ("", None), 1%nat, [FlavorsListDetail]).
Proof.
  exact (proj1 (getFlavorID_stops_without_match paged_flavors_remote "B" 0%nat)
           [flavor_A] [Ok [flavor_B]] 1%nat eq_refl eq_refl).
Defined.

Lemma getConductorZone_stops_without_match_witness :
  getConductorZone (example_externals image_pages (Ok server_1)) "nova-compute-2" 0%nat
  = (Return ("", None), 1%nat, []).
Proof.
  exact (proj1 (getConductorZone_stops_without_match
                  (example_externals image_pages (Ok server_1)) "nova-compute-2" 0%nat)
           [service_1] [Ok [service_2]] 1%nat eq_refl eq_refl).
Defined.

(** ** DeployTestInstance *)

(** X11. In [DeployTestInstance] the error of the image lookup is
    dropped: when the lookup fails and the zone lookup succeeds, the
    instance is requested with an empty image reference.  A failed zone
    lookup ends the function before any creation, with the node
    unchanged.  Once the creation has succeeded the node carries the
    instance identifier, also when the wait for the status ACTIVE fails;
    the instance address is then not set and nothing is pinged. *)
Theorem DeployTestInstance_cases {W} (B : Backend W) (X : Externals W)
    (image zone : string) (n : model.IronicNode) (w : W) :
  (forall i w1 li zid w2 lz now w3 r w4,
      getImageID X image w = (Return i, w1, li) ->
      getConductorZone X zone w1 = (Return (zid, None), w2, lz) ->
      time_Now X w2 = (now, w3) ->
      servers_Create X
        {| servers.Name := now ++ "_inspector_test";
           servers.FlavorRef := model.ResourceClass n;
           servers.ImageRef := fst i;
           servers.AvailabilityZone := zid ++ "::" ++ model.UUID n |} w3 = (r, w4) ->
      (forall e, r = Err e ->
         DeployTestInstance B X image zone n w = (Return (n, Some e), w4, li ++ lz))
      /\ (forall s e w5, r = Ok s ->
            servers_WaitForStatus B (servers.ID s) "ACTIVE" 60 w4 = (Some e, w5) ->
            DeployTestInstance B X image zone n w
            = (Return (set_InstanceUUID n (servers.ID s), Some e), w5,
               li ++ lz ++ [ServersWaitForStatus (servers.ID s) "ACTIVE" 60])))
  /\ (forall e w1, images_ListDetail X image w = (PagerErrOf e, w1) ->
        getImageID X image w = (Return ("", Some e), w1, []))
  /\ (forall i w1 li zid e w2 lz,
        getImageID X image w = (Return i, w1, li) ->
        getConductorZone X zone w1 = (Return (zid, Some e), w2, lz) ->
        DeployTestInstance B X image zone n w = (Return (n, Some e), w2, li ++ lz)).
Proof.
  split; [|split].
  - intros i w1 li zid w2 lz now w3 r w4 Hi Hz Hnow Hcreate.
    assert (Hrun : DeployTestInstance B X image zone n w
                   = match r with
                     | Err e => (Return (n, Some e), w4, li ++ lz)
                     | Ok s =>
                         match servers_WaitForStatus B (servers.ID s) "ACTIVE" 60 w4 with
                         | (Some e, w5) =>
                             (Return (set_InstanceUUID n (servers.ID s), Some e), w5,
                              li ++ lz ++ [ServersWaitForStatus (servers.ID s) "ACTIVE" 60])
                         | (None, w5) =>
                             match (err <- outside (ping_NewPinger X (servers.AccessIPv4 s)) ;;
                                    match err with
                                    | Some e =>
                                        ret (set_InstanceIPv4 (set_InstanceUUID n (servers.ID s))
                                               (servers.AccessIPv4 s), Some e)
                                    | None =>
                                        err <- outside (pinger_Run X (servers.AccessIPv4 s) 3) ;;
                                        ret (set_InstanceIPv4 (set_InstanceUUID n (servers.ID s))
                                               (servers.AccessIPv4 s), err)
                                    end) w5 with
                             | (o, w6, lp) =>
                                 (o, w6,
                                  li ++ lz ++ [ServersWaitForStatus (servers.ID s) "ACTIVE" 60]
                                  ++ lp)
                             end
                         end
                     end).
    { unfold DeployTestInstance. unfold bind at 1. rewrite Hi.
      unfold bind at 1. rewrite Hz. cbn [snd fst].
      unfold bind at 1. unfold outside at 1. rewrite Hnow.
      unfold bind at 1. unfold outside at 1. rewrite Hcreate.
      destruct r as [s|e].
      - unfold bind at 1. unfold call at 1.
        destruct (servers_WaitForStatus B (servers.ID s) "ACTIVE" 60 w4) as [[e|] w5].
        + cbn. rewrite ?app_nil_r. reflexivity.
        + cbn [model.InstanceIPv4 set_InstanceIPv4].
          match goal with
          | |- context [bind ?m ?k w5] => destruct (bind m k w5) as [[o w6] lp]
          end.
          cbn. reflexivity.
      - cbn. rewrite ?app_nil_r. reflexivity. }
    split.
    + intros e ->. exact Hrun.
    + intros s e w5 -> Hwait. rewrite Hrun, Hwait. reflexivity.
  - intros e w1 Hlist. unfold getImageID, bind, outside. rewrite Hlist. reflexivity.
  - intros i w1 li zid e w2 lz Hi Hz.
    unfold DeployTestInstance. unfold bind at 1. rewrite Hi.
    unfold bind at 1. rewrite Hz. cbn. rewrite ?app_nil_r. reflexivity.
Qed.

Lemma DeployTestInstance_cases_witness :
  DeployTestInstance wait_failing_remote
    (example_externals (PagerErrOf (ErrOther "image service down")) (Ok server_1))
    "cirros" "nova-compute-1" node0 0%nat
  = (Return (set_InstanceUUID node0 "instance-9", Some (ErrOther "status ERROR")), 5%nat,
     [] ++ [] ++ [ServersWaitForStatus "instance-9" "ACTIVE" 60]).
Proof.
  refine (proj2 (proj1 (DeployTestInstance_cases wait_failing_remote
                          (example_externals (PagerErrOf (ErrOther "image service down"))
                             (Ok server_1))
                          "cirros" "nova-compute-1" node0 0%nat)
                   ("", Some (ErrOther "image service down")) 1%nat [] "zone-a" 2%nat []
                   "2021-03-01T10:00:00" 3%nat (Ok server_1) 4%nat
                   eq_refl eq_refl eq_refl eq_refl)
            server_1 (ErrOther "status ERROR") 5%nat eq_refl eq_refl).
Defined.

(** ** ProvideNode: the number of requests *)

(** X12. For every node and behaviour of the remote side, [ProvideNode]
    returns after at least 1 and at most 21 requests: each of its three
    polls sends at most 7. *)
Theorem ProvideNode_bounded {W} (B : Backend W) (n : model.IronicNode) (w : W) :
  exists res w' l,
    ProvideNode B n w = (Return res, w', l)
    /\ (1 <= List.length l <= 21)%nat.
Proof.
  assert (Hpoll : forall fn req w0,
             (forall w1, exists r w', fn w1 = (Return r, w', [req])) ->
             exists res w' k,
               Poll (deadline_tick B) (5 * time_Second) (30 * time_Second) fn w0
               = (Return res, w', repeat req (S k)) /\ (k <= 6)%nat).
  { intros fn req w0 Hfn. unfold Poll. change (5 * time_Second <=? 0) with false. cbv iota.
    pose proof (delivered_5_30 (deadline_tick B w0)) as Hticks.
    destruct (WaitFor_trace fn [req] Hfn
                (delivered (5 * time_Second) (30 * time_Second) (deadline_tick B w0)) w0)
      as (res & w' & k & Hrun & Hk & _).
    rewrite concat_repeat_single in Hrun. exists res, w', k. split; [exact Hrun|lia]. }
  unfold ProvideNode.
  destruct (Hpoll _ _ w (ProvideNode_cf_request B n nodes.TargetManage))
    as (res1 & w1 & k1 & Hrun1 & Hk1).
  unfold bind at 1. rewrite Hrun1.
  destruct res1 as [e1|].
  - exists (Some e1), w1, (repeat (NodesChangeProvisionState (model.UUID n) nodes.TargetManage)
                             (S k1) ++ []).
    split; [reflexivity|]. rewrite app_nil_r, repeat_length. lia.
  - destruct (Hpoll _ _ w1 (ProvideNode_cf_request B n nodes.TargetProvide))
      as (res2 & w2 & k2 & Hrun2 & Hk2).
    unfold bind at 1. rewrite Hrun2.
    destruct res2 as [e2|].
    + eexists _, _, _. split; [reflexivity|].
      rewrite !length_app, !repeat_length. simpl. lia.
    + destruct (Hpoll _ _ w2 (ProvideNode_cfp_request B n))
        as (res3 & w3 & k3 & Hrun3 & Hk3).
      rewrite Hrun3.
      eexists _, _, _. split; [reflexivity|].
      rewrite !length_app, !repeat_length. lia.
Qed.

(** ** The matcher: what is recorded is within the thresholds *)

Lemma calcDelta_finite c m : c <> 0 -> exists q, calcDelta c m = Finite q.
Proof.
  intros Hc. unfold calcDelta. destruct (Z.eqb_spec c 0) as [Heq|_]; [contradiction|].
  eexists. reflexivity.
Qed.

Lemma float64_gt_finite_false a b :
  float64_gt (Finite a) (Finite b) = false -> (a <= b)%Q.
Proof.
  simpl. intros H. apply negb_false_iff in H. apply Qle_bool_iff. exact H.
Qed.

Lemma scan_invariant_weaken name0 nd seen f s :
  scan_invariant name0 nd seen s -> scan_invariant name0 nd (seen ++ [f]) s.
Proof.
  intros (Hinv & Hbest & [Hnone|(g & Hin & Hrest)]).
  - split; [exact Hinv|]. split; [exact Hbest|]. left. exact Hnone.
  - split; [exact Hinv|]. split; [exact Hbest|]. right.
    exists g. split; [apply in_or_app; left; exact Hin|exact Hrest].
Qed.

(** One candidate keeps the invariant. *)
Lemma visit_invariant name0 nd seen s f :
  nonzero_capacities f ->
  scan_invariant name0 nd seen s ->
  scan_invariant name0 nd (seen ++ [f]) (visit float64_gt calcDelta s f).
Proof.
  intros (Hr & Hd & Hc) Hs.
  pose proof (scan_invariant_weaken name0 nd seen f s Hs) as Hs'.
  destruct Hs as (Hinv & (r & d & c & Hram & Hdisk & Hcpu & Hr01 & Hd02 & Hc01) & Hrec).
  rewrite visit_cases.
  assert (Hmr : measured_ram (n s) = measured_ram nd) by (unfold measured_ram; rewrite Hinv; reflexivity).
  assert (Hmd : measured_disk (n s) = measured_disk nd) by (unfold measured_disk; rewrite Hinv; reflexivity).
  assert (Hmc : measured_cpu (n s) = measured_cpu nd) by (unfold measured_cpu; rewrite Hinv; reflexivity).
  unfold dram, ddisk, dcpu. rewrite Hmr, Hmd, Hmc, Hram, Hdisk, Hcpu.
  destruct (calcDelta_finite (flavors.RAM f) (measured_ram nd) Hr) as (qr & Hqr).
  destruct (calcDelta_finite (flavors.Disk f) (measured_disk nd) Hd) as (qd & Hqd).
  destruct (calcDelta_finite (flavors.VCPUs f) (measured_cpu nd) Hc) as (qc & Hqc).
  rewrite Hqr, Hqd, Hqc.
  destruct (float64_gt (Finite qr) (Finite r)) eqn:Hgr; [exact Hs'|].
  apply float64_gt_finite_false in Hgr.
  assert (Hrec' : (name s = name0 /\ n s = nd)
                  \/ (exists g, In g (seen ++ [f])
                                /\ name s = flavors.Name g
                                /\ n s = model.set_ResourceClass nd (flavors.Name g)
                                /\ within_thresholds nd g)).
  { destruct Hs' as (_ & _ & Hrec'). exact Hrec'. }
  destruct (float64_gt (Finite qd) (Finite d)) eqn:Hgd.
  { split; [exact Hinv|]. split; [|exact Hrec'].
    exists qr, d, c. simpl. repeat split; try assumption.
    eapply Qle_trans; eassumption. }
  apply float64_gt_finite_false in Hgd.
  destruct (float64_gt (Finite qc) (Finite c)) eqn:Hgc.
  { split; [exact Hinv|]. split; [|exact Hrec'].
    exists qr, qd, c. simpl. repeat split; try assumption;
      eapply Qle_trans; eassumption. }
  apply float64_gt_finite_false in Hgc.
  assert (Hqr01 : (qr <= 1 # 10)%Q) by (eapply Qle_trans; eassumption).
  assert (Hqd02 : (qd <= 2 # 10)%Q) by (eapply Qle_trans; eassumption).
  assert (Hqc01 : (qc <= 1 # 10)%Q) by (eapply Qle_trans; eassumption).
  split; [simpl; exact Hinv|]. split.
  - exists qr, qd, qc. simpl. repeat split; assumption.
  - right. exists f. split; [apply in_or_app; right; left; reflexivity|].
    split; [reflexivity|]. split.
    + simpl. destruct Hrec as [[_ ->]|(g & _ & _ & -> & _)]; reflexivity.
    + exists qr, qd, qc. repeat split; assumption.
Qed.

Lemma range_invariant name0 nd : forall fs seen s,
  Forall nonzero_capacities fs ->
  scan_invariant name0 nd seen s ->
  scan_invariant name0 nd (seen ++ fs) (range float64_gt calcDelta fs s).
Proof.
  induction fs as [|f fs IH]; intros seen s Hnz Hs.
  - rewrite app_nil_r. exact Hs.
  - inversion Hnz as [|? ? Hf Hnz']; subst.
    change (range float64_gt calcDelta (f :: fs) s)
      with (range float64_gt calcDelta fs (visit float64_gt calcDelta s f)).
    replace (seen ++ f :: fs) with ((seen ++ [f]) ++ fs)
      by (rewrite <- app_assoc; reflexivity).
    apply IH; [exact Hnz'|]. apply visit_invariant; assumption.
Qed.

(** X13. For every node and every page of candidates none of whose
    capacities is zero, the scan of the matcher either records nothing
    (the name and the node are as before) or records the name of a
    candidate of the page, which is also the node's resource class, and
    the three deltas of that candidate are within the initial thresholds
    10%, 20%, 10%. *)
Theorem matchPage_records_within_thresholds (fs : list flavors.Flavor) (name0 : string)
    (nd : model.IronicNode) :
  Forall nonzero_capacities fs ->
  (name (matchPage fs name0 nd) = name0 /\ n (matchPage fs name0 nd) = nd)
  \/ (exists f, In f fs
                /\ name (matchPage fs name0 nd) = flavors.Name f
                /\ n (matchPage fs name0 nd) = model.set_ResourceClass nd (flavors.Name f)
                /\ within_thresholds nd f).
Proof.
  intros Hnz.
  assert (Hstart : scan_invariant name0 nd [] (page_start name0 nd)).
  { split; [reflexivity|]. split.
    - exists (1 # 10)%Q, (2 # 10)%Q, (1 # 10)%Q. simpl.
      repeat split; apply Qle_refl.
    - left. split; reflexivity. }
  destruct (range_invariant name0 nd fs [] (page_start name0 nd) Hnz Hstart)
    as (_ & _ & Hrec).
  exact Hrec.
Qed.

Lemma matchPage_records_within_thresholds_witness :
  (name (matchPage [flavor_A; flavor_C; flavor_B] "" node0) = ""
   /\ n (matchPage [flavor_A; flavor_C; flavor_B] "" node0) = node0)
  \/ (exists f, In f [flavor_A; flavor_C; flavor_B]
                /\ name (matchPage [flavor_A; flavor_C; flavor_B] "" node0) = flavors.Name f
                /\ n (matchPage [flavor_A; flavor_C; flavor_B] "" node0)
                   = model.set_ResourceClass node0 (flavors.Name f)
                /\ within_thresholds node0 f).
Proof.
  apply matchPage_records_within_thresholds.
  repeat constructor; discriminate.
Defined.

(** * The inventory loader *)

(** ** Splitting *)

Lemma strings_Split_none s sep :
  strings_Contains s sep = false -> strings_Split s sep = [s].
Proof.
  induction s as [|c s IH]; simpl; [reflexivity|].
  destruct (Ascii.eqb c sep); simpl; [discriminate|].
  intros H. rewrite (IH H). reflexivity.
Qed.

(** A string without the separator, the separator, and a rest: the first
    piece is that string and the other pieces are those of the rest. *)
Lemma strings_Split_app a b sep :
  strings_Contains a sep = false ->
  strings_Split (a ++ String sep b) sep = a :: strings_Split b sep.
Proof.
  induction a as [|c a IH]; simpl.
  - intros _. rewrite Ascii.eqb_refl. reflexivity.
  - destruct (Ascii.eqb c sep); simpl; [discriminate|].
    intros H. rewrite (IH H). reflexivity.
Qed.

Lemma strings_Contains_app a b sep :
  strings_Contains (a ++ b) sep = strings_Contains a sep || strings_Contains b sep.
Proof.
  induction a as [|c a IH]; simpl; [reflexivity|].
  rewrite IH, orb_assoc. reflexivity.
Qed.

(** ** mapInterfaceToNetbox *)

(** The pieces of an identifier [a.kind.x-y-z]. *)
Lemma interface_id_pieces a kind x y z :
  strings_Contains a "." = false ->
  strings_Contains kind "." = false ->
  plain x -> plain y -> strings_Contains z "." = false ->
  strings_Split (a ++ "." ++ kind ++ "." ++ x ++ "-" ++ y ++ "-" ++ z) "."
  = [a; kind; (x ++ "-" ++ y ++ "-" ++ z)%string]
  /\ exists more, strings_Split (x ++ "-" ++ y ++ "-" ++ z) "-" = x :: y :: more.
Proof.
  intros Ha Hk [Hx Hx'] [Hy Hy'] Hz. split.
  - change (a ++ "." ++ kind ++ "." ++ x ++ "-" ++ y ++ "-" ++ z)%string
      with (a ++ String "." (kind ++ String "." (x ++ "-" ++ y ++ "-" ++ z)))%string.
    rewrite (strings_Split_app a _ "." Ha), (strings_Split_app kind _ "." Hk).
    rewrite strings_Split_none; [reflexivity|].
    change (x ++ "-" ++ y ++ "-" ++ z)%string
      with (x ++ (String "-" EmptyString ++ (y ++ (String "-" EmptyString ++ z))))%string.
    rewrite !strings_Contains_app, Hx, Hy, Hz. reflexivity.
  - change (x ++ "-" ++ y ++ "-" ++ z)%string
      with (x ++ String "-" (y ++ String "-" z))%string.
    rewrite (strings_Split_app x _ "-" Hx'), (strings_Split_app y _ "-" Hy').
    eexists. reflexivity.
Qed.

(** X14. [mapInterfaceToNetbox] on an identifier of the form
    [a.Slot.x-y-z] gives "PCI" x "-P" y, and on [a.Integrated.x-y-z] it
    gives "L" y (the pieces holding no further separator); on an
    identifier whose second piece is neither "Integrated" nor "Slot" it
    gives the empty name; and it panics on an identifier without a dot,
    and on [a.Integrated.c] and [a.Slot.c] when [c] holds no hyphen. *)
Theorem mapInterfaceToNetbox_names :
  (forall a x y z,
      strings_Contains a "." = false -> plain x -> plain y ->
      strings_Contains z "." = false ->
      mapInterfaceToNetbox (a ++ "." ++ "Slot" ++ "." ++ x ++ "-" ++ y ++ "-" ++ z)
      = Return ("PCI" ++ x ++ "-P" ++ y)%string
      /\ mapInterfaceToNetbox (a ++ "." ++ "Integrated" ++ "." ++ x ++ "-" ++ y ++ "-" ++ z)
         = Return ("L" ++ y)%string)
  /\ (forall id p0 p1 rest,
        strings_Split id "." = p0 :: p1 :: rest ->
        p1 <> "Integrated" -> p1 <> "Slot" ->
        mapInterfaceToNetbox id = Return "")
  /\ (forall id,
        strings_Contains id "." = false ->
        mapInterfaceToNetbox id = Panic "index out of range")
  /\ (forall a c,
        strings_Contains a "." = false -> plain c ->
        mapInterfaceToNetbox (a ++ "." ++ "Integrated" ++ "." ++ c) = Panic "index out of range"
        /\ mapInterfaceToNetbox (a ++ "." ++ "Slot" ++ "." ++ c) = Panic "index out of range").
Proof.
  split; [|split; [|split]].
  - intros a x y z Ha Hx Hy Hz. split.
    + destruct (interface_id_pieces a "Slot" x y z Ha eq_refl Hx Hy Hz)
        as (Hp & more & Hnr).
      unfold mapInterfaceToNetbox. rewrite Hp. cbn [nth_error].
      change (("Slot" =? "Integrated")%string) with false.
      change (("Slot" =? "Slot")%string) with true. cbv iota.
      rewrite Hnr. reflexivity.
    + destruct (interface_id_pieces a "Integrated" x y z Ha eq_refl Hx Hy Hz)
        as (Hp & more & Hnr).
      unfold mapInterfaceToNetbox. rewrite Hp. cbn [nth_error].
      change (("Integrated" =? "Integrated")%string) with true.
      change (("Integrated" =? "Slot")%string) with false. cbv iota.
      rewrite Hnr. reflexivity.
  - intros id p0 p1 rest Hp Hi Hs. unfold mapInterfaceToNetbox. rewrite Hp.
    cbn [nth_error].
    destruct (String.eqb_spec p1 "Integrated") as [Heq|_]; [contradiction|].
    destruct (String.eqb_spec p1 "Slot") as [Heq|_]; [contradiction|].
    reflexivity.
  - intros id Hid. unfold mapInterfaceToNetbox.
    rewrite (strings_Split_none id "." Hid). reflexivity.
  - intros a c Ha [Hc Hc'].
    assert (Hp : forall kind, strings_Contains kind "." = false ->
                 strings_Split (a ++ "." ++ kind ++ "." ++ c) "." = [a; kind; c]).
    { intros kind Hk.
      change (a ++ "." ++ kind ++ "." ++ c)%string
        with (a ++ String "." (kind ++ String "." c))%string.
      rewrite (strings_Split_app a _ "." Ha), (strings_Split_app kind _ "." Hk).
      rewrite (strings_Split_none c "." Hc). reflexivity. }
    split; unfold mapInterfaceToNetbox.
    + rewrite (Hp "Integrated" eq_refl). cbn [nth_error].
      change (("Integrated" =? "Integrated")%string) with true. cbv iota.
      rewrite (strings_Split_none c "-" Hc'). reflexivity.
    + rewrite (Hp "Slot" eq_refl). cbn [nth_error].
      change (("Slot" =? "Integrated")%string) with false.
      change (("Slot" =? "Slot")%string) with true. cbv iota.
      rewrite (strings_Split_none c "-" Hc'). reflexivity.
Qed.

Lemma mapInterfaceToNetbox_names_witness :
  mapInterfaceToNetbox ("NIC" ++ "." ++ "Slot" ++ "." ++ "3" ++ "-" ++ "2" ++ "-" ++ "1")
  = Return ("PCI" ++ "3" ++ "-P" ++ "2")%string
  /\ mapInterfaceToNetbox
       ("NIC" ++ "." ++ "Integrated" ++ "." ++ "3" ++ "-" ++ "2" ++ "-" ++ "1")
     = Return ("L" ++ "2")%string.
Proof.
  apply (proj1 mapInterfaceToNetbox_names "NIC" "3" "2" "1").
  - reflexivity.
  - split; reflexivity.
  - split; reflexivity.
  - reflexivity.
Defined.

(** ** setNetworkDevicesData *)

Lemma find_last_snoc {A} (q : A -> bool) (l : list A) (x : A) :
  find q (rev (l ++ [x])) = if q x then Some x else find q (rev l).
Proof. rewrite rev_app_distr. simpl. reflexivity. Qed.

(** The loop over the interfaces, one more interface at the end. *)
Lemma setNetworkDevicesData_range_snoc : forall es e m,
  setNetworkDevicesData_range (es ++ [e]) m
  = match setNetworkDevicesData_range es m with
    | Panic msg => Panic msg
    | Return m' =>
        match mapInterfaceToNetbox (EthernetInterface.ID e) with
        | Panic msg => Panic msg
        | Return key =>
            Return (strmap_set m' key
                      {| NodeInterface.Connection := ""; NodeInterface.ConnectionIP := "";
                         NodeInterface.Mac := EthernetInterface.MACAddress e |})
        end
    end.
Proof.
  induction es as [|e0 es IH]; intros e m; simpl.
  - destruct (mapInterfaceToNetbox (EthernetInterface.ID e)); reflexivity.
  - destruct (mapInterfaceToNetbox (EthernetInterface.ID e0)) as [key|msg]; [|reflexivity].
    apply IH.
Qed.

(** X15. When every interface identifier has a name, the loop of
    [setNetworkDevicesData] returns a map in which a name is bound to the
    MAC address of the last interface with that name, earlier interfaces
    with the same name being overwritten, and in which the other names
    are bound as before; when an identifier makes [mapInterfaceToNetbox]
    panic, the loop panics. *)
Theorem setNetworkDevicesData_last_wins (es : list EthernetInterface.t)
    (m : strmap NodeInterface.t) :
  (Forall (fun e => exists k, mapInterfaceToNetbox (EthernetInterface.ID e) = Return k) es ->
   exists m',
     setNetworkDevicesData_range es m = Return m'
     /\ forall k,
          m' k = match find (named k) (rev es) with
                 | Some e => Some {| NodeInterface.Connection := "";
                                     NodeInterface.ConnectionIP := "";
                                     NodeInterface.Mac := EthernetInterface.MACAddress e |}
                 | None => m k
                 end)
  /\ (forall e msg,
        In e es ->
        mapInterfaceToNetbox (EthernetInterface.ID e) = Panic msg ->
        exists msg', setNetworkDevicesData_range es m = Panic msg').
Proof.
  split.
  - induction es as [|e es IH] using rev_ind; intros Hall.
    + exists m. split; [reflexivity|]. intros k. reflexivity.
    + apply Forall_app in Hall. destruct Hall as [Hes He].
      inversion He as [|? ? (key & Hkey) _]; subst.
      destruct (IH Hes) as (m' & Hrun & Hm').
      rewrite setNetworkDevicesData_range_snoc, Hrun, Hkey.
      eexists. split; [reflexivity|].
      intros k. rewrite find_last_snoc. unfold named at 1. rewrite Hkey.
      unfold strmap_set. rewrite String.eqb_sym.
      destruct (String.eqb key k); [reflexivity|apply Hm'].
  - revert m. induction es as [|e0 es IH]; intros m e msg Hin Hpanic; [destruct Hin|].
    simpl. destruct Hin as [->|Hin].
    + rewrite Hpanic. exists msg. reflexivity.
    + destruct (mapInterfaceToNetbox (EthernetInterface.ID e0)) as [key|msg0].
      * apply (IH _ e msg Hin Hpanic).
      * exists msg0. reflexivity.
Qed.

Lemma setNetworkDevicesData_last_wins_witness :
  exists m',
    setNetworkDevicesData_range
      [ {| EthernetInterface.ID := "NIC.Slot.3-2-1"; EthernetInterface.MACAddress := "aa:aa" |};
        {| EthernetInterface.ID := "NIC.Slot.3-2-2"; EthernetInterface.MACAddress := "bb:bb" |} ]
      strmap_empty = Return m'
    /\ forall k,
         m' k = match find (named k)
                        (rev [ {| EthernetInterface.ID := "NIC.Slot.3-2-1";
                                  EthernetInterface.MACAddress := "aa:aa" |};
                               {| EthernetInterface.ID := "NIC.Slot.3-2-2";
                                  EthernetInterface.MACAddress := "bb:bb" |} ]) with
                | Some e => Some {| NodeInterface.Connection := "";
                                    NodeInterface.ConnectionIP := "";
                                    NodeInterface.Mac := EthernetInterface.MACAddress e |}
                | None => strmap_empty k
                end.
Proof.
  apply (proj1 (setNetworkDevicesData_last_wins _ strmap_empty)).
  repeat constructor; eexists; reflexivity.
Defined.

(** The two interfaces of the witness share the name "PCI3-P2": the map
    holds the MAC address of the second. *)
Example partitions_share_a_name :
  match setNetworkDevicesData_range
          [ {| EthernetInterface.ID := "NIC.Slot.3-2-1"; EthernetInterface.MACAddress := "aa:aa" |};
            {| EthernetInterface.ID := "NIC.Slot.3-2-2"; EthernetInterface.MACAddress := "bb:bb" |} ]
          strmap_empty with
  | Return m' => option_map NodeInterface.Mac (m' "PCI3-P2")
  | Panic _ => None
  end = Some "bb:bb".
Proof. reflexivity. Qed.

(** ** setDisks *)

Section DisksFacts.

Variable scale : Z -> Z.

(** The outer loop is the inner loop over the drives that were listed. *)
Lemma setDisks_storages_drives : forall sts acc,
  fold_left (setDisks_storage scale) sts acc
  = fold_left (setDisks_drive scale) (listed_drives sts) acc.
Proof.
  induction sts as [|st sts IH]; intros acc; [reflexivity|].
  simpl. rewrite fold_left_app, IH. unfold setDisks_storage.
  destruct (Storage.Drives st) as [ds [e|]]; reflexivity.
Qed.

(** The disks recorded: one for each drive, in order. *)
Lemma setDisks_drives_disks : forall ds acc,
  snd (fold_left (setDisks_drive scale) ds acc)
  = snd acc
    ++ map (fun s => {| Disk.Name := Drive.Name s; Disk.Model := Drive.Model s;
                        Disk.Vendor := Drive.Manufacturer s;
                        Disk.Size := scale (Drive.CapacityBytes s);
                        Disk.Rotational := negb (Drive.RotationSpeedRPM s =? 0) |}) ds.
Proof.
  induction ds as [|s ds IH]; intros acc; simpl.
  - rewrite app_nil_r. reflexivity.
  - rewrite IH. simpl. rewrite <- app_assoc. reflexivity.
Qed.

(** With a scaling that does not shrink a positive capacity, the size of
    the root disk bounds the capacity of every drive gone through. *)
Lemma setDisks_drives_bound :
  (forall c, 0 < c -> c <= scale c) ->
  forall ds acc,
    0 <= RootDiskData.Size (fst acc) ->
    (forall s, In s ds ->
       Drive.CapacityBytes s
       <= RootDiskData.Size (fst (fold_left (setDisks_drive scale) ds acc)))
    /\ RootDiskData.Size (fst acc)
       <= RootDiskData.Size (fst (fold_left (setDisks_drive scale) ds acc)).
Proof.
  intros Hscale. induction ds as [|s ds IH]; intros acc Hacc0; simpl.
  - split; [intros s []|lia].
  - assert (Hstep : Drive.CapacityBytes s
                    <= RootDiskData.Size (fst (setDisks_drive scale acc s))
                    /\ RootDiskData.Size (fst acc)
                       <= RootDiskData.Size (fst (setDisks_drive scale acc s))).
    { unfold setDisks_drive. simpl.
      destruct (Z.gtb_spec (Drive.CapacityBytes s) (RootDiskData.Size (fst acc)))
        as [Hgt|Hle]; simpl.
      - assert (Hpos : 0 < Drive.CapacityBytes s) by lia.
        pose proof (Hscale _ Hpos). lia.
      - lia. }
    destruct Hstep as [Hs Hmono].
    destruct (IH (setDisks_drive scale acc s)) as [Hds Hacc]; [lia|].
    split; [|lia].
    intros s' [->|Hin]; [lia|apply Hds; exact Hin].
Qed.

(** The root disk stays marked rotational when no drive gone through
    has the rotation speed 0. *)
Lemma setDisks_drives_rotational : forall ds acc,
  RootDiskData.Rotational (fst acc) = true ->
  Forall (fun s => Drive.RotationSpeedRPM s <> 0) ds ->
  RootDiskData.Rotational (fst (fold_left (setDisks_drive scale) ds acc)) = true.
Proof.
  induction ds as [|s ds IH]; intros acc Hacc Hall; simpl; [exact Hacc|].
  inversion Hall as [|? ? Hs Hall']; subst.
  apply IH; [|exact Hall'].
  unfold setDisks_drive. simpl.
  destruct (Drive.CapacityBytes s >? RootDiskData.Size (fst acc)); simpl; [|exact Hacc].
  destruct (Z.eqb_spec (Drive.RotationSpeedRPM s) 0) as [Heq|_]; [contradiction|exact Hacc].
Qed.

End DisksFacts.

(** X16. For every system and every scaling of the capacities,
    [setDisks] records one disk for each drive of the storages whose
    drives can be listed, in order (a storage whose listing fails is
    passed over without an error), and it returns the error of the
    storage listing itself after it has written the disks.  When the
    scaling does not shrink a positive capacity, the size recorded for the
    root disk is at least the capacity of every such drive; and the root
    disk is marked rotational when none of these drives has the rotation
    speed 0. *)
Theorem setDisks_records {Memory : Type} (scale : Z -> Z)
    (s : ComputerSystem Memory) (r : loader) :
  let drives := listed_drives (fst (System_Storage s)) in
  let r' := fst (setDisks scale s r) in
  snd (setDisks scale s r) = snd (System_Storage s)
  /\ Interfaces r' = Interfaces r
  /\ Inspected.Disks (data r')
     = map (fun d => {| Disk.Name := Drive.Name d; Disk.Model := Drive.Model d;
                        Disk.Vendor := Drive.Manufacturer d;
                        Disk.Size := scale (Drive.CapacityBytes d);
                        Disk.Rotational := negb (Drive.RotationSpeedRPM d =? 0) |}) drives
  /\ ((forall c, 0 < c -> c <= scale c) ->
      forall d, In d drives ->
                Drive.CapacityBytes d <= RootDiskData.Size (Inspected.RootDisk (data r')))
  /\ (Forall (fun d => Drive.RotationSpeedRPM d <> 0) drives ->
      RootDiskData.Rotational (Inspected.RootDisk (data r')) = true).
Proof.
  intros drives r'. subst drives r'. unfold setDisks. simpl.
  rewrite setDisks_storages_drives.
  split; [reflexivity|]. split; [reflexivity|]. split.
  - rewrite setDisks_drives_disks. reflexivity.
  - split.
    + intros Hscale d Hin.
      apply (setDisks_drives_bound scale Hscale _ (rootDisk_start, [])); [simpl; lia|exact Hin].
    + intros Hall. apply setDisks_drives_rotational; [reflexivity|exact Hall].
Qed.

Lemma scale_exact_grows c : 0 < c -> c <= scale_exact c.
Proof.
  intros Hc. unfold scale_exact. apply Z.div_le_lower_bound; lia.
Qed.

Lemma setDisks_records_witness :
  Drive.CapacityBytes drive_2
  <= RootDiskData.Size
       (Inspected.RootDisk (data (fst (setDisks scale_exact example_system
                                         example_loader)))).
Proof.
  apply (proj1 (proj2 (proj2 (proj2 (setDisks_records scale_exact example_system
                                       example_loader))))
           scale_exact_grows drive_2).
  simpl. right. left. reflexivity.
Defined.

(** In the example the second drive is the larger one, but its capacity
    is below the scaled size of the first: the first stays the root
    disk. *)
Example larger_drive_not_root :
  RootDiskData.Name
    (Inspected.RootDisk (data (fst (setDisks scale_exact example_system example_loader))))
  = "Disk.Bay.0".
Proof. reflexivity. Qed.

(** ** setCPUs *)

Lemma int_quot_small a b :
  0 <= a < 2 ^ 63 -> 0 < b -> int_quot a b = a / b.
Proof.
  intros Ha Hb. unfold int_quot.
  rewrite Z.quot_div_nonneg by lia.
  assert (H0 : 0 <= a / b) by (apply Z.div_pos; lia).
  assert (H1 : a / b <= a) by (apply Z.div_le_upper_bound; nia).
  rewrite Z.mod_small by lia. lia.
Qed.

Lemma strings_Replace1_none s old new :
  strings_Contains s old = false -> strings_Replace1 s old new = s.
Proof.
  induction s as [|c s IH]; simpl; [reflexivity|].
  destruct (Ascii.eqb c old); simpl; [discriminate|].
  intros H. rewrite (IH H). reflexivity.
Qed.

Lemma strings_Replace1_first a b old new :
  strings_Contains a old = false ->
  strings_Replace1 (a ++ String old b) old new = (a ++ String new b)%string.
Proof.
  induction a as [|c a IH]; simpl.
  - intros _. rewrite Ascii.eqb_refl. reflexivity.
  - destruct (Ascii.eqb c old); simpl; [discriminate|].
    intros H. rewrite (IH H). reflexivity.
Qed.

(** [setCPUs] leaves the interfaces of the node alone. *)
Lemma setCPUs_interfaces {Memory : Type} (s : ComputerSystem Memory) (r r' : loader) err :
  setCPUs s r = Return (r', err) -> Interfaces r' = Interfaces r.
Proof.
  unfold setCPUs. destruct (System_Processors s) as [[|cpu0 cpus] [e|]];
    try (intros H; inversion H; reflexivity).
  destruct (ProcessorSummary_Count s =? 0); intros H; inversion H; reflexivity.
Qed.

(** X17. For every system, [setCPUs] panics (division by zero) exactly
    when the processors are listed without error, the list is not empty
    and the processor count of the summary is 0.  Otherwise it returns the
    error of the listing and writes nothing unless a processor is listed;
    then, for a positive count and a logical count in the range of
    [int64], the count it records is the truncated quotient of the two,
    and the architecture is the instruction set of the first processor
    with its first hyphen turned into an underscore. *)
Theorem setCPUs_cases {Memory : Type} (s : ComputerSystem Memory) (r : loader) :
  ((exists msg, setCPUs s r = Panic msg)
   <-> (snd (System_Processors s) = None
        /\ fst (System_Processors s) <> []
        /\ ProcessorSummary_Count s = 0))
  /\ (forall r' err, setCPUs s r = Return (r', err) ->
        err = snd (System_Processors s)
        /\ Interfaces r' = Interfaces r
        /\ ((err <> None \/ fst (System_Processors s) = []) -> r' = r))
  /\ (forall cpu0 cpus,
        System_Processors s = (cpu0 :: cpus, None) ->
        0 < ProcessorSummary_Count s ->
        0 <= ProcessorSummary_LogicalProcessorCount s < 2 ^ 63 ->
        exists r',
          setCPUs s r = Return (r', None)
          /\ Inspected.CPU_Count (data r')
             = ProcessorSummary_LogicalProcessorCount s / ProcessorSummary_Count s
          /\ (forall a b,
                Processor.InstructionSet cpu0 = (a ++ String "-" b)%string ->
                strings_Contains a "-" = false ->
                Inspected.CPU_Architecture (data r') = (a ++ String "_" b)%string)
          /\ (strings_Contains (Processor.InstructionSet cpu0) "-" = false ->
              Inspected.CPU_Architecture (data r') = Processor.InstructionSet cpu0)).
Proof.
  split; [|split].
  - unfold setCPUs. destruct (System_Processors s) as [[|cpu0 cpus] [e|]]; simpl.
    + split; [intros (msg & H); discriminate|intros (H & _); discriminate].
    + split; [intros (msg & H); discriminate|intros (_ & H & _); contradiction H; reflexivity].
    + split; [intros (msg & H); discriminate|intros (H & _); discriminate].
    + destruct (Z.eqb_spec (ProcessorSummary_Count s) 0) as [Heq|Hne].
      * split; [intros _; repeat split; [discriminate|exact Heq]|].
        intros _. eexists. reflexivity.
      * split; [intros (msg & H); discriminate|intros (_ & _ & H); contradiction].
  - intros r' err. unfold setCPUs.
    destruct (System_Processors s) as [[|cpu0 cpus] [e|]]; simpl.
    + intros H. inversion H; subst. repeat split.
    + intros H. inversion H; subst. repeat split.
    + intros H. inversion H; subst. repeat split.
    + destruct (ProcessorSummary_Count s =? 0); [discriminate|].
      intros H. inversion H; subst. split; [reflexivity|]. split; [reflexivity|].
      intros [Hc|Hc]; [contradiction Hc; reflexivity|discriminate Hc].
  - intros cpu0 cpus Hp Hcount Hlogical. unfold setCPUs. rewrite Hp.
    destruct (Z.eqb_spec (ProcessorSummary_Count s) 0) as [Heq|_]; [lia|].
    eexists. split; [reflexivity|]. simpl. split; [|split].
    + apply int_quot_small; assumption.
    + intros a b -> Ha. apply strings_Replace1_first. exact Ha.
    + intros Hnone. apply strings_Replace1_none. exact Hnone.
Qed.

Lemma setCPUs_cases_witness :
  exists r',
    setCPUs example_system example_loader = Return (r', None)
    /\ Inspected.CPU_Count (data r') = 48 / 2
    /\ (forall a b,
          "x86-64" = (a ++ String "-" b)%string ->
          strings_Contains a "-" = false ->
          Inspected.CPU_Architecture (data r') = (a ++ String "_" b)%string)
    /\ (strings_Contains "x86-64" "-" = false ->
        Inspected.CPU_Architecture (data r') = "x86-64").
Proof.
  refine (proj2 (proj2 (setCPUs_cases example_system example_loader))
            {| Processor.InstructionSet := "x86-64" |} [] eq_refl _ _).
  - reflexivity.
  - split; [discriminate|reflexivity].
Defined.

(** ** LoadInventory *)

Lemma setNetworkDevicesData_error {Memory : Type} (s : ComputerSystem Memory) r r' e :
  setNetworkDevicesData s r = Return (r', Some e) -> r' = r.
Proof.
  unfold setNetworkDevicesData.
  destruct (System_EthernetInterfaces s) as [[|e0 rest] [e1|]]; simpl;
    intros H; inversion H; subst; try reflexivity.
  destruct (mapInterfaceToNetbox (EthernetInterface.ID e0)) as [key|msg];
    [|discriminate].
  destruct (setNetworkDevicesData_range rest _); discriminate.
Qed.

(** The steps before the network step leave the interfaces alone. *)
Lemma setInventory_error_interfaces {Memory : Type} (scale : Z -> Z)
    (calcTotalMemory : list Memory -> Z) (service : Service Memory) r r' e :
  setInventory scale calcTotalMemory service r = Return (r', Some e) ->
  Interfaces r' = Interfaces r.
Proof.
  unfold setInventory.
  destruct (Service_Chassis service) as [[|ch0 chs] [e0|]];
    try (intros H; inversion H; subst; reflexivity).
  destruct (Service_Systems service) as [[|s0 ss] [e1|]];
    try (intros H; inversion H; subst; reflexivity).
  unfold setMemory.
  destruct (System_Memory s0) as [mem [e2|]];
    try (intros H; inversion H; subst; reflexivity).
  unfold setDisks.
  destruct (snd (System_Storage s0)) as [e3|];
    try (intros H; inversion H; subst; reflexivity).
  match goal with
  | |- context [setCPUs s0 ?r0] =>
      destruct (setCPUs s0 r0) as [[r1 [e4|]]|msg] eqn:Hrun
  end.
  - pose proof (setCPUs_interfaces _ _ _ _ Hrun) as Hi.
    intros H. inversion H; subst. rewrite Hi. reflexivity.
  - pose proof (setCPUs_interfaces _ _ _ _ Hrun) as Hi.
    intros H. apply setNetworkDevicesData_error in H. subst r'. rewrite Hi. reflexivity.
  - discriminate.
Qed.

(** X18. For every service and node, [LoadInventory] leaves the node
    exactly as it was whenever it returns an error (a failed connection or
    a failed step of the loading).  When the service lists no chassis and
    reports no error, it returns nil with the node's inspection data
    replaced by the zero value; when it lists a chassis but no system, it
    returns nil with inspection data that are zero but for the vendor
    fields: manufacturer and model of the first chassis, and as serial
    number its SKU when the manufacturer, in lower case, contains the
    text dell, and its serial number otherwise. *)
Theorem LoadInventory_cases {Memory : Type} (scale : Z -> Z)
    (calcTotalMemory : list Memory -> Z) (connect : result (Service Memory)) (nd : Node) :
  (forall nd' e,
      LoadInventory scale calcTotalMemory connect nd = Return (nd', Some e) -> nd' = nd)
  /\ (forall service,
        connect = Ok service ->
        Service_Chassis service = ([], None) ->
        LoadInventory scale calcTotalMemory connect nd
        = Return ({| Node_InspectionData := Inspected.zero;
                     Node_Interfaces := Node_Interfaces nd |}, None))
  /\ (forall service ch0 chs,
        connect = Ok service ->
        Service_Chassis service = (ch0 :: chs, None) ->
        Service_Systems service = ([], None) ->
        LoadInventory scale calcTotalMemory connect nd
        = Return ({| Node_InspectionData :=
                       Inspected.set_SystemVendor Inspected.zero
                         (Chassis.Manufacturer ch0)
                         (if strings_ContainsStr
                               (strings_ToLower (Chassis.Manufacturer ch0)) "dell"
                          then Chassis.SKU ch0 else Chassis.SerialNumber ch0)
                         (Chassis.Model ch0);
                     Node_Interfaces := Node_Interfaces nd |}, None)).
Proof.
  split; [|split].
  - intros nd' e. unfold LoadInventory. destruct connect as [service|e0].
    + destruct (setInventory scale calcTotalMemory service
                  {| data := Inspected.zero; Interfaces := Node_Interfaces nd |})
        as [[r [e1|]]|msg] eqn:Hrun; try discriminate.
      intros H. inversion H; subst.
      apply setInventory_error_interfaces in Hrun. simpl in Hrun. rewrite Hrun.
      destruct nd; reflexivity.
    + intros H. inversion H. reflexivity.
  - intros service -> Hch. unfold LoadInventory, setInventory. rewrite Hch. reflexivity.
  - intros service ch0 chs -> Hch Hsys. unfold LoadInventory, setInventory.
    rewrite Hch, Hsys. reflexivity.
Qed.

Lemma LoadInventory_cases_witness :
  LoadInventory scale_exact (fun mem => 16384 * Z.of_nat (List.length mem))
    (Ok service_without_chassis) example_node
  = Return ({| Node_InspectionData := Inspected.zero;
               Node_Interfaces := Node_Interfaces example_node |}, None).
Proof.
  exact (proj1 (proj2 (LoadInventory_cases scale_exact
                         (fun mem => 16384 * Z.of_nat (List.length mem))
                         (Ok service_without_chassis) example_node))
           service_without_chassis eq_refl eq_refl).
Defined.

(** ** ValidateNode *)

(** X19. For every node and behaviour of the remote side: a failed
    validation call makes [ValidateNode] return its error; otherwise the
    step returns nil exactly when all four sub-results are positive, and
    when one is negative it returns the error that [fmt.Errorf] builds
    from the reason of the first negative sub-result in the order
    inspection, power, management, network, whose message is that reason
    when the reason holds no ['%']. *)
Theorem ValidateNode_result {W} (B : Backend W) (n : model.IronicNode) (w : W) :
  (forall e w1,
      nodes_Validate B (model.UUID n) w = (Err e, w1) ->
      ValidateNode B n w = (Return (Some e), w1, [NodesValidate (model.UUID n)]))
  /\ (forall v w1,
        nodes_Validate B (model.UUID n) w = (Ok v, w1) ->
        (ValidateNode B n w = (Return None, w1, [NodesValidate (model.UUID n)])
         <-> forallb nodes.Result (sub_results v) = true)
        /\ (forall d,
              find (fun d => negb (nodes.Result d)) (sub_results v) = Some d ->
              ValidateNode B n w
              = (Return (Some (fmt_Errorf (nodes.Reason d))), w1,
                 [NodesValidate (model.UUID n)])
              /\ (strings_Contains (nodes.Reason d) "%" = false ->
                  Error (fmt_Errorf (nodes.Reason d)) = Some (nodes.Reason d)))).
Proof.
  split.
  - intros e w1 H. unfold ValidateNode, bind, call. rewrite H. reflexivity.
  - intros v w1 H. pose proof (ValidateNode_first_failing B n w v w1 H) as Hrun.
    split.
    + rewrite Hrun. unfold sub_results. simpl.
      destruct (nodes.Result (nodes.Inspect v)), (nodes.Result (nodes.Power v)),
        (nodes.Result (nodes.Management v)), (nodes.Result (nodes.Network v));
        simpl; split; intros H0; try reflexivity; discriminate.
    + intros d Hd. rewrite Hrun, Hd. split; [reflexivity|].
      intros Hplain. simpl. apply fmt_Sprintf_plain. exact Hplain.
Qed.

Lemma ValidateNode_result_witness :
  ValidateNode (validating_remote no_validation) node0 0%nat
  = (Return None, 1%nat, [NodesValidate (model.UUID node0)]).
Proof.
  apply (proj1 (proj2 (ValidateNode_result (validating_remote no_validation) node0 0%nat)
                  no_validation 1%nat eq_refl)).
  reflexivity.
Defined.

(** ** DNS records of nodes with the same first two name pieces *)

(** X20. The DNS record of a node is named after the first two pieces
    of the node's name only: for two nodes whose names share these pieces,
    when the record of the first is created and the creation for the
    second is answered with "already exists", both registrations return
    nil and both nodes get the same host name, although the second
    request, with the second node's address, created nothing. *)
Theorem DNS_record_shared_by_name_prefix {W} (B : Backend W) (domain : string)
    (n1 n2 : model.IronicNode) (w : W) :
  forall z zs w1 na0 na1 rest1 rest2 w2 z' zs' w3 w4,
    strings_Split (model.Name n1) "-" = na0 :: na1 :: rest1 ->
    strings_Split (model.Name n2) "-" = na0 :: na1 :: rest2 ->
    zones_List B (domain ++ ".") w = (Ok (Ok (z :: zs)), w1) ->
    recordsets_Create B (zones.ID z) (createOpts_of domain na0 na1 n1) w1 = (None, w2) ->
    zones_List B (domain ++ ".") w2 = (Ok (Ok (z' :: zs')), w3) ->
    recordsets_Create B (zones.ID z') (createOpts_of domain na0 na1 n2) w3
      = (Some (ErrDefault409 409), w4) ->
    (r1 <- CreateDNSRecordFor B domain n1 ;;
     r2 <- CreateDNSRecordFor B domain n2 ;;
     ret (snd r1, snd r2, model.Host (fst r1), model.Host (fst r2))) w
    = (Return (None, None, recordName_of domain na0 na1, recordName_of domain na0 na1), w4,
       [ZonesList (domain ++ ".");
        RecordsetsCreate (zones.ID z) (createOpts_of domain na0 na1 n1);
        ZonesList (domain ++ ".");
        RecordsetsCreate (zones.ID z') (createOpts_of domain na0 na1 n2)]).
Proof.
  intros z zs w1 na0 na1 rest1 rest2 w2 z' zs' w3 w4 Hs1 Hs2 Hz Hc Hz' Hc'.
  pose proof (CreateDNSRecordFor_creates B domain n1 w z zs w1 na0 na1 rest1 None w2 Hz Hs1 Hc)
    as Hrun1.
  pose proof (CreateDNSRecordFor_creates B domain n2 w2 z' zs' w3 na0 na1 rest2
                (Some (ErrDefault409 409)) w4 Hz' Hs2 Hc') as Hrun2.
  unfold bind at 1. rewrite Hrun1. unfold bind at 1. rewrite Hrun2. reflexivity.
Qed.

Lemma DNS_record_shared_by_name_prefix_witness :
  (r1 <- CreateDNSRecordFor dns_remote "example.org" node_a ;;
   r2 <- CreateDNSRecordFor dns_remote "example.org" node_b ;;
   ret (snd r1, snd r2, model.Host (fst r1), model.Host (fst r2))) []
  = (Return (None, None, recordName_of "example.org" "node001" "bb12",
             recordName_of "example.org" "node001" "bb12"),
     ["node001r-bb12.example.org."],
     [ZonesList "example.org.";
      RecordsetsCreate "zone-1" (createOpts_of "example.org" "node001" "bb12" node_a);
      ZonesList "example.org.";
      RecordsetsCreate "zone-1" (createOpts_of "example.org" "node001" "bb12" node_b)]).
Proof.
  exact (DNS_record_shared_by_name_prefix dns_remote "example.org" node_a node_b []
           {| zones.ID := "zone-1" |} [] [] "node001" "bb12" ["a"] ["b"]
           ["node001r-bb12.example.org."]
           {| zones.ID := "zone-1" |} [] ["node001r-bb12.example.org."]
           ["node001r-bb12.example.org."]
           eq_refl eq_refl eq_refl eq_refl eq_refl eq_refl).
Defined.

(** ** loadRedfishInfo *)

Lemma loadRedfishInfo_range_without : forall post interfaces,
  Forall without_adapters post ->
  loadRedfishInfo_range post interfaces = Return interfaces.
Proof.
  induction post as [|c post IH]; intros interfaces Hall; [reflexivity|].
  inversion Hall as [|? ? Hc Hall']; subst. simpl.
  unfold loadRedfishInfo_chassis. unfold without_adapters in Hc.
  destruct (AdapterChassis.NetworkAdapters c) as [[|n0 rest] [e|]]; simpl in *;
    try (apply IH; exact Hall').
  destruct Hc as [Hc|Hc]; [contradiction Hc; reflexivity|discriminate Hc].
Qed.

Lemma loadRedfishInfo_range_app : forall pre post interfaces,
  loadRedfishInfo_range (pre ++ post) interfaces
  = match loadRedfishInfo_range pre interfaces with
    | Panic msg => Panic msg
    | Return interfaces' => loadRedfishInfo_range post interfaces'
    end.
Proof.
  induction pre as [|c pre IH]; intros post interfaces; [reflexivity|].
  simpl. destruct (loadRedfishInfo_chassis interfaces c) as [i'|msg]; [apply IH|reflexivity].
Qed.

(** X21. [loadRedfishInfo] returns the interfaces of the last chassis
    that lists adapters, the interfaces of earlier chassis being dropped:
    as many entries as that chassis has adapters, the first with the MAC
    address of the first device function of the first adapter, all others
    with an empty MAC address.  Without such a chassis it returns no
    interface and no error.  It panics when the first adapter of a chassis
    gives no device function. *)
Theorem loadRedfishInfo_last_chassis (pre post : list AdapterChassis.t)
    (chass : AdapterChassis.t) :
  (Forall without_adapters post ->
   loadRedfishInfo (Ok (post, None)) = Return ([], None))
  /\ (forall interfaces n0 adapters mac macs err,
        loadRedfishInfo_range pre [] = Return interfaces ->
        AdapterChassis.NetworkAdapters chass = (n0 :: adapters, None) ->
        NetworkAdapter.NetworkDeviceFunctions n0 = (mac :: macs, err) ->
        Forall without_adapters post ->
        loadRedfishInfo (Ok (pre ++ chass :: post, None))
        = Return (mac :: repeat EmptyString (List.length adapters), None))
  /\ (forall interfaces n0 adapters err,
        loadRedfishInfo_range pre [] = Return interfaces ->
        AdapterChassis.NetworkAdapters chass = (n0 :: adapters, None) ->
        NetworkAdapter.NetworkDeviceFunctions n0 = ([], err) ->
        loadRedfishInfo (Ok (pre ++ chass :: post, None)) = Panic "index out of range").
Proof.
  split; [|split].
  - intros Hall. unfold loadRedfishInfo.
    rewrite (loadRedfishInfo_range_without post [] Hall). reflexivity.
  - intros interfaces n0 adapters mac macs err Hpre Hc Hf Hall.
    unfold loadRedfishInfo. rewrite loadRedfishInfo_range_app, Hpre.
    cbn [loadRedfishInfo_range]. unfold loadRedfishInfo_chassis. rewrite Hc, Hf.
    cbn [fst]. rewrite (loadRedfishInfo_range_without post _ Hall). reflexivity.
  - intros interfaces n0 adapters err Hpre Hc Hf.
    unfold loadRedfishInfo. rewrite loadRedfishInfo_range_app, Hpre.
    cbn [loadRedfishInfo_range]. unfold loadRedfishInfo_chassis. rewrite Hc, Hf.
    reflexivity.
Qed.

Lemma loadRedfishInfo_last_chassis_witness :
  loadRedfishInfo (Ok ([chassis_two_adapters] ++ chassis_two_adapters
                         :: [chassis_no_adapter], None))
  = Return ("aa:aa" :: repeat EmptyString (List.length
              [ {| NetworkAdapter.NetworkDeviceFunctions := (["bb:bb"], None) |} ]), None).
Proof.
  refine (proj1 (proj2 (loadRedfishInfo_last_chassis [chassis_two_adapters]
                          [chassis_no_adapter] chassis_two_adapters))
            ["aa:aa"; ""] _ _ "aa:aa" ["aa:ab"] None eq_refl eq_refl eq_refl _).
  apply Forall_cons; [right; reflexivity | apply Forall_nil].
Defined.

(** ** The failure handler *)


